(** * Geodetic transformation engine of [flood_tool/geo.py]

    A shallow embedding of the module [geo]: the ellipsoid and datum
    containers, the angle utilities, the geographic/Cartesian converters,
    the Helmert transform, the WGS84 to OSGB36 wrapper and the national
    grid projection.

    Number model.  A Python/numpy float is read as the real number it
    stands for, so [+], [*], [/], [sqrt], [sin] ... are the operations of
    [R].  Rounding, infinities and NaN are outside the model; where the
    source would divide by zero the statements below carry the side
    condition that excludes it.  [x ** k] with an integer literal [k] is
    [x ^ k]; [x ** y] with a float exponent is [Rpower x y] (used only on
    positive bases).

    Array model.  A one-dimensional numpy array is a [list R]; an
    n-dimensional one is a shape together with its elements in row-major
    order.  Elementwise operations between two arrays follow numpy's
    broadcasting rule and raise [ValueError] when the shapes are
    incompatible. *)

From Stdlib Require Import String Ascii.
From Stdlib Require Import Reals Lra Lia List ListDec ZArith Bool PeanoNat.
From Stdlib Require Import Permutation Sorted.
Import ListNotations.

Open Scope R_scope.

(** ** Errors raised by array operations *)

Inductive result (A : Type) : Type :=
| Ok (x : A)
| ValueError.

Arguments Ok {A} x.
Arguments ValueError {A}.

Definition bind {A B : Type} (r : result A) (k : A -> result B) : result B :=
  match r with
  | Ok x => k x
  | ValueError => ValueError
  end.

Notation "x <- e ;; k" := (bind e (fun x => k))
  (at level 61, e at next level, right associativity).
Notation "' p <- e ;; k" := (bind e (fun p => k))
  (at level 61, p pattern, e at next level, right associativity).

(** [for _ in range(n): s = body(s)] *)
Fixpoint for_range {S : Type} (n : nat) (body : S -> result S) (s : S)
  : result S :=
  match n with
  | O => Ok s
  | Datatypes.S k => s' <- body s ;; for_range k body s'
  end.

(** The same loop with every pass through the body counted. *)
Fixpoint for_range_counted {S : Type} (n : nat) (body : S -> result S)
  (s : S) (passes : nat) : result (S * nat) :=
  match n with
  | O => Ok (s, passes)
  | Datatypes.S k =>
      s' <- body s ;; for_range_counted k body s' (Datatypes.S passes)
  end.

(** ** One-dimensional arrays and broadcasting *)

Definition arr := list R.

Fixpoint map2 (f : R -> R -> R) (xs ys : arr) : arr :=
  match xs, ys with
  | x :: xs', y :: ys' => f x y :: map2 f xs' ys'
  | _, _ => []
  end.

(** numpy's rule for two 1-D shapes: a length-1 operand is stretched to
    the length of the other one, otherwise the lengths must agree. *)
Definition broadcast_to (len : nat) (x : arr) : result arr :=
  if Nat.eqb (length x) len then Ok x
  else match x with
       | [v] => Ok (repeat v len)
       | _ => ValueError
       end.

Definition bshape (m k : nat) : nat := if Nat.eqb m 1 then k else m.

Definition bop (f : R -> R -> R) (x y : arr) : result arr :=
  let len := bshape (length x) (length y) in
  x' <- broadcast_to len x ;;
  y' <- broadcast_to len y ;;
  Ok (map2 f x' y').

(** In-place [x -= y]: [y] is broadcast to the shape of [x], which cannot
    change. *)
Definition isub (x y : arr) : result arr :=
  y' <- broadcast_to (length x) y ;;
  Ok (map2 Rminus x y').

(** ** n-dimensional arrays *)

Record ndarray : Type := mk_ndarray { shape : list nat; data : arr }.

Definition size (X : ndarray) : nat := fold_right Nat.mul 1%nat (shape X).

Definition ndarray_wf (X : ndarray) : Prop := length (data X) = size X.

(** [array((r0, r1, r2))] for three 1-D arrays.  Rows of different lengths
    do not form a rectangular array and are refused. *)
Definition array3 (r0 r1 r2 : arr) : result ndarray :=
  if Nat.eqb (length r1) (length r0) && Nat.eqb (length r2) (length r0)
  then Ok (mk_ndarray [3%nat; length r0] (r0 ++ r1 ++ r2))
  else ValueError.

(** [X.reshape((3, -1))]: the element count must be a multiple of 3; the
    elements keep their row-major order. *)
Definition reshape_3 (X : ndarray) : result ndarray :=
  if Nat.eqb (size X mod 3) 0
  then Ok (mk_ndarray [3%nat; (size X / 3)%nat] (data X))
  else ValueError.

(** Number of columns of a 2-D array, and [X[i]], its row [i]. *)
Definition ncols (X : ndarray) : nat := nth 1 (shape X) 0%nat.

Definition row (i : nat) (X : ndarray) : arr :=
  firstn (ncols X) (skipn (i * ncols X) (data X)).

(** [X[i, k]] *)
Definition entry (X : ndarray) (i k : nat) : R :=
  nth (i * ncols X + k) (data X) 0.

(** ** Ellipsoid and Datum *)

Record Ellipsoid : Type := mk_Ellipsoid {
  a : R;
  b : R;
  n : R;
  e2 : R;
  F_0 : R;
  H : R
}.

(** [Ellipsoid.__init__] *)
Definition Ellipsoid_init (a b F_0 : R) : Ellipsoid :=
  {| a := a;
     b := b;
     n := (a - b) / (a + b);
     e2 := (a ^ 2 - b ^ 2) / a ^ 2;
     F_0 := F_0;
     H := 0 |}.

(** A [Datum] is an [Ellipsoid] with a projection origin; it can be used
    wherever an ellipsoid is expected. *)
Record Datum : Type := mk_Datum {
  ellipsoid :> Ellipsoid;
  phi_0 : R;
  lam_0 : R;
  E_0 : R;
  N_0 : R
}.

Definition with_H (e : Ellipsoid) (h : R) : Ellipsoid :=
  {| a := a e; b := b e; n := n e; e2 := e2 e; F_0 := F_0 e; H := h |}.

(** [Datum.__init__]: the parent constructor first, then [self.H = H]. *)
Definition Datum_init (a b F_0 phi_0 lam_0 E_0 N_0 H : R) : Datum :=
  {| ellipsoid := with_H (Ellipsoid_init a b F_0) H;
     phi_0 := phi_0;
     lam_0 := lam_0;
     E_0 := E_0;
     N_0 := N_0 |}.

(** ** Angle utilities *)

(** [rad(deg, min=0, sec=0)] *)
Definition rad_dms (deg min sec : R) : R :=
  (deg + min / 60 + sec / 3600) * (PI / 180).

Definition rad (deg : R) : R := rad_dms deg 0 0.

(** numpy [floor] and the float remainder [x % 1.] *)
Definition floor (x : R) : R := IZR (Int_part x).

Definition mod1 (x : R) : R := x - floor x.

(** Rounding to the nearest integer, ties to the even one. *)
Definition rint (x : R) : R :=
  let f := Int_part x in
  let r := x - IZR f in
  if Rlt_dec r (1 / 2) then IZR f
  else if Rlt_dec (1 / 2) r then IZR f + 1
  else if Z.even f then IZR f else IZR f + 1.

(** [round(x, ndigits)] *)
Definition round (x : R) (ndigits : nat) : R :=
  rint (x * 10 ^ ndigits) / 10 ^ ndigits.

(** [deg(rad)] with [dms=False] *)
Definition deg (rad : R) : R := rad * (180 / PI).

(** [deg(rad, dms=True)] *)
Definition deg_dms (rad : R) : R * R * R :=
  let d := rad * (180 / PI) in
  let m := 60 * mod1 d in
  (floor d, floor m, round (60 * mod1 m) 4).

(** ** The two reference bodies *)

Definition osgb36 : Datum :=
  Datum_init 6377563.396 6356256.910 0.9996012717
             (rad 49.0) (rad (-2)) 400000 (-100000) 24.7.

Definition wgs84 : Ellipsoid :=
  Ellipsoid_init 6378137 6356752.3142 0.9996.

(** ** Geographic to Cartesian *)

Definition to_radians (radians : bool) (x : arr) : arr :=
  if radians then x else map rad x.

(** [datum.a*datum.F_0/sqrt(1-datum.e2*sin(latitude)**2)] *)
Definition nu_of (datum : Ellipsoid) (latitude : R) : R :=
  a datum * F_0 datum / sqrt (1 - e2 datum * sin latitude ^ 2).

Definition lat_long_to_xyz (latitude longitude : arr) (radians : bool)
  (datum : Ellipsoid) : result ndarray :=
  let latitude := to_radians radians latitude in
  let longitude := to_radians radians longitude in
  let nu := map (nu_of datum) latitude in
  let nuH_cos := map2 (fun nu lat => (nu + H datum) * cos lat) nu latitude in
  X <- bop Rmult nuH_cos (map cos longitude) ;;
  Y <- bop Rmult nuH_cos (map sin longitude) ;;
  let Z := map2 (fun nu lat => ((1 - e2 datum) * nu + H datum) * sin lat)
                nu latitude in
  array3 X Y Z.

(** ** Cartesian to geographic *)

(** numpy [arctan2(y, x)]: the angle of the point [(x, y)] in [(-PI, PI]]. *)
Definition arctan2 (y x : R) : R :=
  if Rlt_dec 0 x then atan (y / x)
  else if Rlt_dec x 0 then
         if Rle_dec 0 y then atan (y / x) + PI else atan (y / x) - PI
  else if Rlt_dec 0 y then PI / 2
  else if Rlt_dec y 0 then - (PI / 2)
  else 0.

(** [-datum.a*datum.F_0*cos(latitude)*sin(latitude)
      /(1-datum.e2*sin(latitude)**2)**1.5] *)
Definition dnu_of (datum : Ellipsoid) (latitude : R) : R :=
  - a datum * F_0 datum * cos latitude * sin latitude
  / Rpower (1 - e2 datum * sin latitude ^ 2) 1.5.

(** [f0 = (z + datum.e2*nu*sin(latitude))/p - tan(latitude)] *)
Definition nr_f0 (datum : Ellipsoid) (z p latitude : arr) : result arr :=
  let nu := map (nu_of datum) latitude in
  let e2_nu_sin := map2 (fun nu lat => e2 datum * nu * sin lat) nu latitude in
  t <- bop Rplus z e2_nu_sin ;;
  t <- bop Rdiv t p ;;
  bop Rminus t (map tan latitude).

(** [f1 = datum.e2*(nu**cos(latitude)+dnu*sin(latitude))/p
          - 1.0/cos(latitude)**2] *)
Definition f1_numerator (datum : Ellipsoid) (latitude : R) : R :=
  e2 datum * (Rpower (nu_of datum latitude) (cos latitude)
              + dnu_of datum latitude * sin latitude).

Definition nr_f1 (datum : Ellipsoid) (p latitude : arr) : result arr :=
  t <- bop Rdiv (map (f1_numerator datum) latitude) p ;;
  bop Rminus t (map (fun lat => 1.0 / cos lat ^ 2) latitude).

(** One pass of the loop body, ending with [latitude -= f0/f1]. *)
Definition nr_step (datum : Ellipsoid) (z p latitude : arr) : result arr :=
  f0 <- nr_f0 datum z p latitude ;;
  f1 <- nr_f1 datum p latitude ;;
  q <- bop Rdiv f0 f1 ;;
  isub latitude q.

Definition from_radians (radians : bool) (x : arr) : arr :=
  if radians then x else map deg x.

Definition xyz_to_lat_long (x y z : arr) (radians : bool)
  (datum : Ellipsoid) : result (arr * arr) :=
  x2y2 <- bop Rplus (map (fun v => v ^ 2) x) (map (fun v => v ^ 2) y) ;;
  let p := map sqrt x2y2 in
  longitude <- bop arctan2 y x ;;
  latitude <- bop arctan2 z (map (fun v => v * (1 - e2 datum)) p) ;;
  latitude <- for_range 6 (nr_step datum z p) latitude ;;
  Ok (from_radians radians latitude, from_radians radians longitude).

(** [xyz_to_lat_long] with the passes through the loop body counted. *)
Definition xyz_to_lat_long_counted (x y z : arr) (radians : bool)
  (datum : Ellipsoid) : result (arr * arr * nat) :=
  x2y2 <- bop Rplus (map (fun v => v ^ 2) x) (map (fun v => v ^ 2) y) ;;
  let p := map sqrt x2y2 in
  longitude <- bop arctan2 y x ;;
  latitude <- bop arctan2 z (map (fun v => v * (1 - e2 datum)) p) ;;
  '(latitude, passes) <- for_range_counted 6 (nr_step datum z p) latitude 0 ;;
  Ok (from_radians radians latitude, from_radians radians longitude, passes).

(** ** Helmert transform *)

Definition nrows (X : ndarray) : nat := nth 0 (shape X) 0%nat.

(** [X.reshape((3, 1))] *)
Definition reshape_3_1 (X : ndarray) : result ndarray :=
  if Nat.eqb (size X) 3
  then Ok (mk_ndarray [3%nat; 1%nat] (data X))
  else ValueError.

(** [A.dot(B)] for two 2-D arrays: the inner dimensions must agree. *)
Definition dot_entry (A B : ndarray) (i k : nat) : R :=
  fold_left (fun acc j => acc + entry A i j * entry B j k)
            (seq 0 (ncols A)) 0.

Definition dot (A B : ndarray) : result ndarray :=
  if Nat.eqb (ncols A) (nrows B)
  then Ok (mk_ndarray [nrows A; ncols B]
             (flat_map (fun i => map (dot_entry A B i) (seq 0 (ncols B)))
                       (seq 0 (nrows A))))
  else ValueError.

(** [T + Y] for a column [T] of shape (r, 1) and [Y] of shape (r, c): the
    column is broadcast along the second axis. *)
Definition add_column (T Y : ndarray) : ndarray :=
  mk_ndarray [nrows Y; ncols Y]
    (flat_map (fun i => map (fun k => entry T i 0 + entry Y i k)
                            (seq 0 (ncols Y)))
              (seq 0 (nrows Y))).

Record HelmertTransform : Type := mk_HelmertTransform {
  T : ndarray;
  M : ndarray
}.

(** [HelmertTransform.__init__] *)
Definition HelmertTransform_init (s rx ry rz : R) (T : ndarray)
  : result HelmertTransform :=
  T' <- reshape_3_1 T ;;
  Ok {| T := T';
        M := mk_ndarray [3%nat; 3%nat]
               [1 + s; - rz; ry;
                rz; 1 + s; - rx;
                - ry; rx; 1 + s] |}.

(** [HelmertTransform.__call__] *)
Definition HelmertTransform_call (h : HelmertTransform) (X : ndarray)
  : result ndarray :=
  X' <- reshape_3 X ;;
  MX <- dot (M h) X' ;;
  Ok (add_column (T h) MX).

Definition WGS84toOSGB36transform : result HelmertTransform :=
  HelmertTransform_init 20.4894e-6
                        (- rad_dms 0 0 0.1502)
                        (- rad_dms 0 0 0.2470)
                        (- rad_dms 0 0 0.8421)
                        (mk_ndarray [3%nat] [-446.448; 125.157; -542.060]).

(** ** WGS84 to OSGB36 *)

(** First statement of the wrapper,
    [xyz = lat_long_to_xyz(latitude, longitude, radians)]: no datum is
    passed, so the default [datum=osgb36] applies. *)
Definition WGS84toOSGB36_xyz (latitude longitude : arr) (radians : bool)
  : result ndarray :=
  lat_long_to_xyz latitude longitude radians osgb36.

Definition WGS84toOSGB36 (latitude longitude : arr) (radians : bool)
  : result (arr * arr) :=
  xyz <- WGS84toOSGB36_xyz latitude longitude radians ;;
  h <- WGS84toOSGB36transform ;;
  xyz <- HelmertTransform_call h xyz ;;
  xyz_to_lat_long (row 0 xyz) (row 1 xyz) (row 2 xyz) radians osgb36.

(** ** National grid projection *)

(** The scalar expressions of [get_easting_northing_from_lat_long], one per
    assignment of the source. *)
Definition grid_nu (latitude : R) : R :=
  (a osgb36 * F_0 osgb36) / sqrt (1 - e2 osgb36 * sin latitude ^ 2).

Definition grid_rho (latitude : R) : R :=
  (a osgb36 * F_0 osgb36 * (1 - e2 osgb36))
  / Rpower (1 - e2 osgb36 * (sin latitude ^ 2)) (3 / 2).

Definition grid_heta (latitude : R) : R :=
  sqrt (grid_nu latitude / grid_rho latitude - 1).

Definition grid_M (latitude : R) : R :=
  b osgb36 * F_0 osgb36 *
  ((1 + n osgb36 + (5 / 4) * (n osgb36 ^ 2) + (5 / 4) * (n osgb36 ^ 3))
     * (latitude - phi_0 osgb36)
   - (3 * n osgb36 + 3 * (n osgb36 ^ 2) + (21 / 8) * (n osgb36 ^ 3))
     * sin (latitude - phi_0 osgb36) * cos (latitude + phi_0 osgb36)
   + ((15 / 8) * (n osgb36 ^ 2) + (15 / 8) * (n osgb36 ^ 3))
     * sin (2 * (latitude - phi_0 osgb36))
     * cos (2 * (latitude + phi_0 osgb36))
   - (35 / 24) * (n osgb36 ^ 3)
     * sin (3 * (latitude - phi_0 osgb36))
     * cos (3 * (latitude + phi_0 osgb36))).

Definition grid_I (latitude : R) : R := grid_M latitude + N_0 osgb36.

Definition grid_II (latitude : R) : R :=
  (grid_nu latitude / 2) * sin latitude * cos latitude.

Definition grid_III (latitude : R) : R :=
  (grid_nu latitude / 24) * sin latitude * (cos latitude ^ 3)
  * (5 - tan latitude ^ 2 + 9 * grid_heta latitude ^ 2).

Definition grid_IIIA (latitude : R) : R :=
  (grid_nu latitude / 720) * sin latitude * (cos latitude ^ 5)
  * (61 - 58 * (tan latitude ^ 2) + tan latitude ^ 4).

Definition grid_IV (latitude : R) : R := grid_nu latitude * cos latitude.

Definition grid_V (latitude : R) : R :=
  (grid_nu latitude / 6) * (cos latitude ^ 3)
  * ((grid_nu latitude / grid_rho latitude) - tan latitude ^ 2).

Definition grid_VI (latitude : R) : R :=
  (grid_nu latitude / 120) * (cos latitude ^ 5)
  * (5 - 18 * (tan latitude ^ 2) + tan latitude ^ 4
     + 14 * grid_heta latitude ^ 2
     - 58 * (tan latitude ^ 2) * grid_heta latitude ^ 2).

Definition easting_of (latitude longitude : R) : R :=
  E_0 osgb36 + grid_IV latitude * (longitude - lam_0 osgb36)
  + grid_V latitude * ((longitude - lam_0 osgb36) ^ 3)
  + grid_VI latitude * ((longitude - lam_0 osgb36) ^ 5).

Definition northing_of (latitude longitude : R) : R :=
  grid_I latitude + grid_II latitude * ((longitude - lam_0 osgb36) ^ 2)
  + grid_III latitude * ((longitude - lam_0 osgb36) ^ 4)
  + grid_IIIA latitude * ((longitude - lam_0 osgb36) ^ 6).

(** The elementwise expressions for easting and northing combine the
    latitude and the longitude array, hence one broadcast each. *)
Definition get_easting_northing_from_lat_long (latitude longitude : arr)
  (radians : bool) : result (arr * arr) :=
  let latitude := to_radians radians latitude in
  let longitude := to_radians radians longitude in
  '(latitude, longitude) <- WGS84toOSGB36 latitude longitude true ;;
  easting <- bop easting_of latitude longitude ;;
  northing <- bop northing_of latitude longitude ;;
  Ok (easting, northing).

(** ** Reference formulas

    The formulas the documentation of the engine gives, written on single
    points and mathematical matrices.  They are compared with the array
    programs above. *)

(** Closed form of the geographic to Cartesian conversion. *)
Definition closed_form_nu (datum : Ellipsoid) (lat : R) : R :=
  a datum * F_0 datum / sqrt (1 - e2 datum * (sin lat)²).

Definition closed_form_x (datum : Ellipsoid) (lat long : R) : R :=
  (closed_form_nu datum lat + H datum) * cos lat * cos long.

Definition closed_form_y (datum : Ellipsoid) (lat long : R) : R :=
  (closed_form_nu datum lat + H datum) * cos lat * sin long.

Definition closed_form_z (datum : Ellipsoid) (lat : R) : R :=
  ((1 - e2 datum) * closed_form_nu datum lat + H datum) * sin lat.

(** Residual of the latitude equation, the derivative of [nu] with
    respect to the latitude, and the slope of the residual:
    [e2 (dnu sin(lat) + nu cos(lat)) / p - 1 / cos(lat)^2] with [dnu] that
    derivative. *)
Definition f0_residual (datum : Ellipsoid) (z p lat : R) : R :=
  (z + e2 datum * nu_of datum lat * sin lat) / p - tan lat.

Definition dnu_dlat (datum : Ellipsoid) (lat : R) : R :=
  a datum * F_0 datum * e2 datum * sin lat * cos lat
  / ((1 - e2 datum * sin lat ^ 2) * sqrt (1 - e2 datum * sin lat ^ 2)).

Definition f1_derivative (datum : Ellipsoid) (p lat : R) : R :=
  e2 datum * (dnu_dlat datum lat * sin lat + nu_of datum lat * cos lat) / p
  - 1 / (cos lat) ^ 2.

(** The loop body of [xyz_to_lat_long] read on one point: the slope as
    the source computes it, and the updated latitude. *)
Definition f1_code (datum : Ellipsoid) (p lat : R) : R :=
  f1_numerator datum lat / p - 1.0 / cos lat ^ 2.

Definition newton_update (datum : Ellipsoid) (z p lat : R) : R :=
  lat - f0_residual datum z p lat / f1_code datum p lat.

(** On arrays of one length: the horizontal distance [p] and the first
    guess at the latitude, as computed before the loop. *)
Definition horizontal (x y : arr) : arr :=
  map2 (fun u v => sqrt (u ^ 2 + v ^ 2)) x y.

Definition first_guess (datum : Ellipsoid) (x y z : arr) : arr :=
  map2 arctan2 z (map (fun v => v * (1 - e2 datum)) (horizontal x y)).

(** The chain of [WGS84toOSGB36] read on one point: closed form on the
    default datum, Helmert transform [h], six Newton-Raphson passes. *)
Definition xyz_to_lat_long_point (datum : Ellipsoid) (x y z : R) : R * R :=
  let p := sqrt (x ^ 2 + y ^ 2) in
  (Nat.iter 6 (newton_update datum z p) (arctan2 z (p * (1 - e2 datum))),
   arctan2 y x).

Definition helmert_point (h : HelmertTransform) (i : nat) (x y z : R) : R :=
  entry (T h) i 0
  + (0 + entry (M h) i 0 * x + entry (M h) i 1 * y + entry (M h) i 2 * z).

Definition WGS84toOSGB36_point (h : HelmertTransform)
  (radians : bool) (latitude longitude : R) : R * R :=
  let lat := if radians then latitude else rad latitude in
  let long := if radians then longitude else rad longitude in
  let x := closed_form_x osgb36 lat long in
  let y := closed_form_y osgb36 lat long in
  let z := closed_form_z osgb36 lat in
  let '(lat', long') :=
    xyz_to_lat_long_point osgb36 (helmert_point h 0 x y z)
                          (helmert_point h 1 x y z)
                          (helmert_point h 2 x y z) in
  if radians then (lat', long') else (deg lat', deg long').

(** Integer part of a real number (rounding towards zero). *)
Definition trunc (x : R) : R :=
  if Rle_dec 0 x then floor x else - floor (- x).

(** Mathematical 3-by-3 matrices and 3-vectors, indexed from 0. *)
Definition mat := nat -> nat -> R.

Definition identity3 : mat := fun i j => if Nat.eqb i j then 1 else 0.

Definition skew (s rx ry rz : R) : mat := fun i j =>
  nth j (nth i [[s; - rz; ry]; [rz; s; - rx]; [- ry; rx; s]] []) 0.

Definition mat_add (A B : mat) : mat := fun i j => A i j + B i j.

(** Entry [(i, k)] of [t + A * P] for a 3-by-N point set [P]. *)
Definition affine_image (t : nat -> R) (A P : mat) : mat := fun i k =>
  t i + (A i 0%nat * P 0%nat k + A i 1%nat * P 1%nat k
         + A i 2%nat * P 2%nat k).

(** Transverse Mercator series on the OSGB36 parameters, with
    [eta^2 = nu/rho - 1]. *)
Definition tm_nu (lat : R) : R :=
  a osgb36 * F_0 osgb36 / sqrt (1 - e2 osgb36 * (sin lat) ^ 2).

Definition tm_rho (lat : R) : R :=
  a osgb36 * F_0 osgb36 * (1 - e2 osgb36)
  / Rpower (1 - e2 osgb36 * (sin lat) ^ 2) 1.5.

Definition tm_eta2 (lat : R) : R := tm_nu lat / tm_rho lat - 1.

Definition tm_arc (lat : R) : R :=
  let n := n osgb36 in
  let dm := lat - phi_0 osgb36 in
  let dp := lat + phi_0 osgb36 in
  (1 + n + 5 / 4 * n ^ 2 + 5 / 4 * n ^ 3) * dm
  - (3 * n + 3 * n ^ 2 + 21 / 8 * n ^ 3) * sin dm * cos dp
  + (15 / 8 * n ^ 2 + 15 / 8 * n ^ 3) * sin (2 * dm) * cos (2 * dp)
  - 35 / 24 * n ^ 3 * sin (3 * dm) * cos (3 * dp).

Definition tm_I (lat : R) : R :=
  N_0 osgb36 + b osgb36 * F_0 osgb36 * tm_arc lat.

Definition tm_II (lat : R) : R := tm_nu lat / 2 * sin lat * cos lat.

Definition tm_III (lat : R) : R :=
  tm_nu lat / 24 * sin lat * cos lat ^ 3
  * (5 - tan lat ^ 2 + 9 * tm_eta2 lat).

Definition tm_IIIA (lat : R) : R :=
  tm_nu lat / 720 * sin lat * cos lat ^ 5
  * (61 - 58 * tan lat ^ 2 + tan lat ^ 4).

Definition tm_IV (lat : R) : R := tm_nu lat * cos lat.

Definition tm_V (lat : R) : R :=
  tm_nu lat / 6 * cos lat ^ 3 * (tm_nu lat / tm_rho lat - tan lat ^ 2).

Definition tm_VI (lat : R) : R :=
  tm_nu lat / 120 * cos lat ^ 5
  * (5 - 18 * tan lat ^ 2 + tan lat ^ 4 + 14 * tm_eta2 lat
     - 58 * tan lat ^ 2 * tm_eta2 lat).

Definition tm_easting (lat long : R) : R :=
  let dL := long - lam_0 osgb36 in
  E_0 osgb36 + tm_IV lat * dL + tm_V lat * dL ^ 3 + tm_VI lat * dL ^ 5.

Definition tm_northing (lat long : R) : R :=
  let dL := long - lam_0 osgb36 in
  tm_I lat + tm_II lat * dL ^ 2 + tm_III lat * dL ^ 4
  + tm_IIIA lat * dL ^ 6.


(** * The postcode and flood-risk tables of [flood_tool/tool.py]

    A pandas column is the list of its values, a data frame the list of
    its rows.  [NaN] in a float column is [None].  Where pandas or numpy
    raise, the functions below return [Raises] with the exception. *)

(** Comparisons of floats, as booleans. *)
Definition lt_b (u v : R) : bool := if Rlt_dec u v then true else false.
Definition le_b (u v : R) : bool := if Rle_dec u v then true else false.

Module Tool.

Inductive error : Type := Value_Error | Key_Error.

Inductive outcome (A : Type) : Type :=
| Returns (x : A)
| Raises (e : error).

Arguments Returns {A} x.
Arguments Raises {A} e.

Definition obind {A B : Type} (r : outcome A) (k : A -> outcome B)
  : outcome B :=
  match r with
  | Returns x => k x
  | Raises e => Raises e
  end.

(** ** The [Postcode] column as [Tool.__init__] leaves it

    Postcodes are ASCII text: a character is a byte. *)

(** [.str.replace(" ", "")] *)
Fixpoint remove_spaces (s : string) : string :=
  match s with
  | EmptyString => EmptyString
  | String c s' =>
      if Ascii.eqb c " " then remove_spaces s'
      else String c (remove_spaces s')
  end.

(** [lambda x: x[0:3] + " " + x[3:6] if len(x) == 6 else x] *)
Definition format_6 (x : string) : string :=
  if Nat.eqb (String.length x) 6
  then (substring 0 3 x ++ " " ++ substring 3 3 x)%string
  else x.

(** [lambda x: x[0:2] + "  " + x[4:6] if len(x) == 5 else x] *)
Definition format_5 (x : string) : string :=
  if Nat.eqb (String.length x) 5
  then (substring 0 2 x ++ "  " ++ substring 4 2 x)%string
  else x.

Definition init_postcode (x : string) : string :=
  format_5 (format_6 (remove_spaces x)).

(** ** The flood-risk table [dff] and the probability bands *)

(** The band names of the column [prob_4band]. *)
Inductive band4 : Type := High | Medium | Low | Very_Low.

Record circle : Type := mk_circle {
  X : R;
  Y : R;
  radius : R;
  prob_4band : band4
}.

(** Column ['Numerical Risk'], set by
    [replace(['High', 'Medium', 'Low', 'Very Low'], [4, 3, 2, 1])]. *)
Definition Numerical_Risk (c : circle) : nat :=
  match prob_4band c with
  | High => 4
  | Medium => 3
  | Low => 2
  | Very_Low => 1
  end.

(** [probs = {4:'High', 3:'Medium', 2:'Low', 1:'Very Low', 0:'Zero'}] *)
Definition probs (k : nat) : option string :=
  match k with
  | 4 => Some "High"%string
  | 3 => Some "Medium"%string
  | 2 => Some "Low"%string
  | 1 => Some "Very Low"%string
  | 0 => Some "Zero"%string
  | _ => None
  end.

(** One entry of [distance.cdist]: the Euclidean distance. *)
Definition dist (e n : R) (c : circle) : R :=
  sqrt ((e - X c) ^ 2 + (n - Y c) ^ 2).

(** [np.where(dist[0] <= self.dff['radius'],
              self.dff['Numerical Risk'], 0)] *)
Definition circles (dff : list circle) (e n : R) : list nat :=
  map (fun c => if Rle_dec (dist e n c) (radius c)
                then Numerical_Risk c else 0%nat) dff.

(** [np.max], which refuses an empty array. *)
Definition np_max (l : list nat) : outcome nat :=
  match l with
  | [] => Raises Value_Error
  | k :: l' => Returns (fold_left Nat.max l' k)
  end.

(** [get_probs(row)], returning the new [row[2]]. *)
Definition get_probs (dff : list circle) (row : R * R) : outcome string :=
  obind (np_max (circles dff (fst row) (snd row)))
        (fun k => match probs k with
                  | Some name => Returns name
                  | None => Raises Key_Error
                  end).

(** [c.apply(get_probs, axis=1)] *)
Fixpoint apply_rows {A B : Type} (f : A -> outcome B) (rows : list A)
  : outcome (list B) :=
  match rows with
  | [] => Returns []
  | r :: rows' =>
      obind (f r) (fun b =>
      obind (apply_rows f rows') (fun bs => Returns (b :: bs)))
  end.

(** [np.vstack((easting, northing))] needs two arrays of one length. *)
Definition get_easting_northing_flood_probability (dff : list circle)
  (easting northing : arr) : outcome (list string) :=
  if Nat.eqb (length easting) (length northing)
  then apply_rows (get_probs dff) (combine easting northing)
  else Raises Value_Error.

(** [replace(['High', 'Medium', 'Low', 'Very Low', 'Zero'],
             [4, 3, 2, 1, 0])], as used for sorting. *)
Definition band_number (name : string) : nat :=
  if String.eqb name "High" then 4
  else if String.eqb name "Medium" then 3
  else if String.eqb name "Low" then 2
  else if String.eqb name "Very Low" then 1
  else 0.

(** ** The postcode table [dfp] *)

Record postcode_row : Type := mk_postcode_row {
  Postcode : string;
  Latitude : R;
  Longitude : R;
  Easting : R;
  Northing : R;
  Total_Value : R
}.

(** [self.dfp.loc[self.dfp['Postcode'].isin(a)]] *)
Definition isin (label : string) (a : list string) : bool :=
  existsb (String.eqb label) a.

Definition loc_isin (dfp : list postcode_row) (a : list string)
  : list postcode_row :=
  filter (fun r => isin (Postcode r) a) dfp.

(** [.set_index('Postcode').reindex(index = a)]: one row per requested
    label, all [NaN] for a label the index does not have.  An index with
    duplicate labels cannot be reindexed, unless the requested labels are
    that very index, which leaves the frame as it is. *)
Definition reindex (rows : list postcode_row) (a : list string)
  : outcome (list (option postcode_row)) :=
  if list_eq_dec string_dec (map Postcode rows) a
  then Returns (map Some rows)
  else if NoDup_dec string_dec (map Postcode rows)
  then Returns (map (fun label =>
                       find (fun r => String.eqb (Postcode r) label) rows) a)
  else Raises Value_Error.

(** [get_lat_long]: the pairs stacked by [np.stack(..., axis=-1)]. *)
Definition get_lat_long (dfp : list postcode_row) (postcodes : list string)
  : outcome (list (option R * option R)) :=
  obind (reindex (loc_isin dfp postcodes) postcodes) (fun fp_data =>
  Returns (map (fun row => match row with
                           | Some r => (Some (Latitude r),
                                        Some (Longitude r))
                           | None => (None, None)
                           end) fp_data)).

(** [get_flood_cost], with its [fillna(0)]. *)
Definition get_flood_cost (dfp : list postcode_row) (postcodes : list string)
  : outcome arr :=
  obind (reindex (loc_isin dfp postcodes) postcodes) (fun total_value_data =>
  Returns (map (fun row => match row with
                           | Some r => Total_Value r
                           | None => 0
                           end) total_value_data)).

(** [probs = {'Very Low':1/1000, 'Low':1/100, 'Medium':1/50,
              'High':1/10, 'Zero':0}] under [Series.map]: a band that is
    not a key gives [NaN]. *)
Definition probs_values (name : string) : option R :=
  if String.eqb name "Very Low" then Some (1 / 1000)
  else if String.eqb name "Low" then Some (1 / 100)
  else if String.eqb name "Medium" then Some (1 / 50)
  else if String.eqb name "High" then Some (1 / 10)
  else if String.eqb name "Zero" then Some 0
  else None.

Fixpoint risk_column (values : list (option R)) (cost : arr)
  : list (option R) :=
  match values, cost with
  | v :: values', c :: cost' =>
      option_map (fun p => p * c * 0.05) v :: risk_column values' cost'
  | _, _ => []
  end.

(** [get_annual_flood_risk] *)
Definition get_annual_flood_risk (dfp : list postcode_row)
  (postcodes probability_bands : list string) : outcome (list (option R)) :=
  if Nat.eqb (length postcodes) (length probability_bands)
  then obind (get_flood_cost dfp postcodes) (fun cost =>
       Returns (risk_column (map probs_values probability_bands) cost))
  else Raises Value_Error.

(** ** Sorted flood probabilities *)

(** [s.upper()], on ASCII text. *)
Definition upper_char (c : ascii) : ascii :=
  let k := nat_of_ascii c in
  if (97 <=? k)%nat && (k <=? 122)%nat then ascii_of_nat (k - 32) else c.

Fixpoint upper (s : string) : string :=
  match s with
  | EmptyString => EmptyString
  | String c s' => String (upper_char c) (upper s')
  end.

(** A stable sort: every element is put before the first element of the
    sorted rest that it may precede. *)
Fixpoint insert_sorted {A : Type} (before : A -> A -> bool) (x : A)
  (l : list A) : list A :=
  match l with
  | [] => [x]
  | y :: l' => if before x y then x :: l else y :: insert_sorted before x l'
  end.

Definition stable_sort {A : Type} (before : A -> A -> bool) (l : list A)
  : list A :=
  fold_right (insert_sorted before) [] l.

(** [np.unique]: the distinct values, sorted. *)
Definition np_unique (l : list string) : list string :=
  nodup string_dec (stable_sort String.leb l).

(** A cell of the column ['Probability Band'], which holds band names
    and, between the two [replace] calls, numbers. *)
Inductive cell : Type :=
| Num (k : nat)
| Str (s : string).

(** [replace(['High', 'Medium', 'Low', 'Very Low', 'Zero'],
             [4, 3, 2, 1, 0])] *)
Definition names_to_numbers (c : cell) : cell :=
  match c with
  | Str s =>
      if String.eqb s "High" then Num 4
      else if String.eqb s "Medium" then Num 3
      else if String.eqb s "Low" then Num 2
      else if String.eqb s "Very Low" then Num 1
      else if String.eqb s "Zero" then Num 0
      else c
  | Num _ => c
  end.

(** [replace([4, 3, 2, 1, 0],
             ['High', 'Medium', 'Low', 'Very Low', 'Zero'])] *)
Definition numbers_to_names (c : cell) : cell :=
  match c with
  | Num 4 => Str "High"
  | Num 3 => Str "Medium"
  | Num 2 => Str "Low"
  | Num 1 => Str "Very Low"
  | Num 0 => Str "Zero"
  | _ => c
  end.

(** The ascending order of a column: numbers by value, strings by code
    point, numbers before strings. *)
Definition cell_leb (c1 c2 : cell) : bool :=
  match c1, c2 with
  | Num k1, Num k2 => (k1 <=? k2)%nat
  | Num _, Str _ => true
  | Str _, Num _ => false
  | Str s1, Str s2 => String.leb s1 s2
  end.

(** [sort_values(by = ['Probability Band', 'Postcode'],
                 ascending = (False, True))]: a row may precede another
    when its band is larger, or the bands are equal and its postcode is
    not larger. *)
Definition band_then_postcode (r1 r2 : string * cell) : bool :=
  negb (cell_leb (snd r1) (snd r2))
  || (cell_leb (snd r2) (snd r1) && String.leb (fst r1) (fst r2)).

(** The rows of the table that a request selects:
    [self.dfp.loc[self.dfp['Postcode'].str.replace(" ", "").isin(a)]]
    with [a] the distinct requests without spaces and in upper case. *)
Definition requested (dfp : list postcode_row) (postcodes : list string)
  : list postcode_row :=
  let a := np_unique (map (fun s => upper (remove_spaces s)) postcodes) in
  filter (fun r => isin (remove_spaces (Postcode r)) a) dfp.

(** [get_sorted_flood_probability]: the index [Postcode] and the column
    [Probability Band] of the frame it returns.  Assigning the column
    needs as many bands as rows. *)
Definition get_sorted_flood_probability (dff : list circle)
  (dfp : list postcode_row) (postcodes : list string)
  : outcome (list (string * cell)) :=
  let fp_data := requested dfp postcodes in
  obind (get_easting_northing_flood_probability dff
           (map Easting fp_data) (map Northing fp_data))
        (fun replace_data =>
  if Nat.eqb (length replace_data) (length fp_data)
  then
    let banded := combine (map Postcode fp_data) (map Str replace_data) in
    let numbered := map (fun r => (fst r, names_to_numbers (snd r))) banded in
    let updated := stable_sort band_then_postcode numbered in
    Returns (map (fun r => (fst r, numbers_to_names (snd r))) updated)
  else Raises Value_Error).

(** ** Sorted annual flood risk *)

(** [sort_values(by = ['Flood Risk', 'Postcode'],
                 ascending = (False, True))]: a row may precede another
    when its risk is larger, or the risks are equal and its postcode is
    not larger; NaN comes last. *)
Definition risk_then_postcode (r1 r2 : string * option R) : bool :=
  match snd r1, snd r2 with
  | Some x1, Some x2 =>
      lt_b x2 x1 || (le_b x2 x1 && String.leb (fst r1) (fst r2))
  | Some _, None => true
  | None, Some _ => false
  | None, None => String.leb (fst r1) (fst r2)
  end.

(** [get_sorted_annual_flood_risk]: the index [Postcode] and the column
    [Flood Risk] of the frame it returns.  The table has no NaN for
    [dropna] to remove, [Tool.__init__] having filled them with 0;
    [insert] needs as many risks as rows. *)
Definition get_sorted_annual_flood_risk (dff : list circle)
  (dfp : list postcode_row) (postcodes : list string)
  : outcome (list (string * option R)) :=
  let a := np_unique (map (fun s => upper (remove_spaces (remove_spaces s)))
                          postcodes) in
  let fp_data := filter (fun r => isin (remove_spaces (Postcode r)) a) dfp in
  obind (get_easting_northing_flood_probability dff
           (map Easting fp_data) (map Northing fp_data))
        (fun probs =>
  obind (get_annual_flood_risk dfp (map Postcode fp_data) probs)
        (fun risk =>
  if Nat.eqb (length risk) (length fp_data)
  then Returns (stable_sort risk_then_postcode
                  (combine (map Postcode fp_data) risk))
  else Raises Value_Error)).

End Tool.

(** * The warning printed by [step3_api.py]

    The chain of [if]/[elif] on the risk of a postcode and the latest
    reading of its station, a number; [None] when no branch prints.  The
    risk is compared with strings, and is a string or a float ([None]
    for NaN, as in the result of [get_annual_flood_risk]). *)

Inductive pyvalue : Type :=
| PyStr (s : string)
| PyFloat (x : option R).

Definition warning_for (risk : string) (station_value : R)
  : option string :=
  if String.eqb risk "Zero" then Some "No Risk"%string
  else if String.eqb risk "Very Low" then
    if lt_b station_value 3 then Some "No Risk"%string
    else if lt_b 3 station_value
    then Some "Yellow Warning, Medium Risk"%string
    else None
  else if String.eqb risk "Low" then
    if le_b station_value 2 then Some "No Risk"%string
    else if lt_b 2 station_value && lt_b station_value 3
    then Some "Yellow Warning, Medium Risk"%string
    else if le_b 3 station_value
    then Some "Yellow Waring, Medium Risk"%string
    else None
  else if String.eqb risk "Medium" then
    if lt_b station_value 2 then Some "No Risk"%string
    else if lt_b 2 station_value && lt_b station_value 3
    then Some "Yellow Warning, Medium Risk"%string
    else if le_b 3 station_value
    then Some "Red Warning, High Risk"%string
    else None
  else if String.eqb risk "High" then
    if lt_b station_value 2
    then Some "Yellow Warning, Medium Risk"%string
    else if le_b 2 station_value
    then Some "Red warning, High Risk"%string
    else None
  else None.

(** [risk == '...'] is false for a float, whatever the string. *)
Definition warning (risk : pyvalue) (station_value : R) : option string :=
  match risk with
  | PyStr s => warning_for s station_value
  | PyFloat _ => None
  end.

(** * The quadrants of [step4_api.py]

    The four selections of [historic_API] around the centre
    ([easting_lim], [northing_lim]), both numbers ([latlong] is False).
    A row of [historic_rain] holds what the loop stored for one reading:
    a northing and an easting, each [None] where the station record it
    was read from gave none (NaN in the frame), and a value, [None] when
    it is not a number. *)

Record reading : Type := mk_reading {
  station : string;
  northing : option R;
  easting : option R;
  values : option R;
  time : string
}.

(** [column > lim] and [column < lim]: False on a missing entry. *)
Definition above (v : option R) (lim : R) : bool :=
  match v with
  | Some x => lt_b lim x
  | None => false
  end.

Definition below (v : option R) (lim : R) : bool :=
  match v with
  | Some x => lt_b x lim
  | None => false
  end.

Definition northeast (historic_rain : list reading)
  (easting_lim northing_lim : R) : list reading :=
  filter (fun r => above (northing r) northing_lim
                   && above (easting r) easting_lim) historic_rain.

Definition southeast (historic_rain : list reading)
  (easting_lim northing_lim : R) : list reading :=
  filter (fun r => below (northing r) northing_lim
                   && above (easting r) easting_lim) historic_rain.

Definition northwest (historic_rain : list reading)
  (easting_lim northing_lim : R) : list reading :=
  filter (fun r => above (northing r) northing_lim
                   && below (easting r) easting_lim) historic_rain.

Definition southwest (historic_rain : list reading)
  (easting_lim northing_lim : R) : list reading :=
  filter (fun r => below (northing r) northing_lim
                   && below (easting r) easting_lim) historic_rain.

(** * Properties *)

(** ** Lists, broadcasting and rows *)

Lemma map2_length (f : R -> R -> R) (xs ys : arr) :
  length (map2 f xs ys) = Nat.min (length xs) (length ys).
Proof.
  revert ys; induction xs as [|x xs IH]; intros [|y ys]; simpl; auto.
Qed.

Lemma map2_ext (f g : R -> R -> R) (xs ys : arr) :
  (forall x y, f x y = g x y) -> map2 f xs ys = map2 g xs ys.
Proof.
  intros Hfg; revert ys; induction xs as [|x xs IH]; intros [|y ys];
    simpl; auto.
  now rewrite Hfg, IH.
Qed.

Lemma map2_nth (f : R -> R -> R) (xs ys : arr) (i : nat) :
  (i < length xs)%nat -> (i < length ys)%nat ->
  nth i (map2 f xs ys) 0 = f (nth i xs 0) (nth i ys 0).
Proof.
  revert ys i; induction xs as [|x xs IH]; intros [|y ys] [|i]; simpl;
    intros; try lia; auto.
  apply IH; lia.
Qed.

Lemma map_nth0 (f : R -> R) (xs : arr) (i : nat) :
  (i < length xs)%nat -> nth i (map f xs) 0 = f (nth i xs 0).
Proof.
  intros Hi. rewrite (nth_indep _ 0 (f 0)) by (now rewrite length_map).
  apply map_nth.
Qed.

Lemma map2_map_l (f : R -> R -> R) (g : R -> R) (xs ys : arr) :
  map2 f (map g xs) ys = map2 (fun x y => f (g x) y) xs ys.
Proof.
  revert ys; induction xs as [|x xs IH]; intros [|y ys]; simpl; auto.
  now rewrite IH.
Qed.

Lemma map2_map_r (f : R -> R -> R) (g : R -> R) (xs ys : arr) :
  map2 f xs (map g ys) = map2 (fun x y => f x (g y)) xs ys.
Proof.
  revert ys; induction xs as [|x xs IH]; intros [|y ys]; simpl; auto.
  now rewrite IH.
Qed.

Lemma map2_diag (f : R -> R -> R) (xs : arr) :
  map2 f xs xs = map (fun x => f x x) xs.
Proof. induction xs as [|x xs IH]; simpl; auto. now rewrite IH. Qed.

Lemma map2_repeat_r (f : R -> R -> R) (xs : arr) (v : R) :
  map2 f xs (repeat v (length xs)) = map (fun x => f x v) xs.
Proof. induction xs as [|x xs IH]; simpl; auto. now rewrite IH. Qed.

Lemma broadcast_to_same (len : nat) (x : arr) :
  length x = len -> broadcast_to len x = Ok x.
Proof.
  intros Hl. unfold broadcast_to. now rewrite (proj2 (Nat.eqb_eq _ _) Hl).
Qed.

Lemma broadcast_to_singleton (len : nat) (v : R) :
  broadcast_to len [v] = Ok (repeat v len).
Proof.
  unfold broadcast_to. simpl length.
  destruct (Nat.eqb_spec 1 len) as [<-|]; reflexivity.
Qed.

Lemma broadcast_to_length (len : nat) (x x' : arr) :
  broadcast_to len x = Ok x' -> length x' = len.
Proof.
  unfold broadcast_to. destruct (Nat.eqb_spec (length x) len).
  - intros [= <-]; assumption.
  - destruct x as [|v [|w x]]; try discriminate.
    intros [= <-]. apply repeat_length.
Qed.

Lemma bop_same_length (f : R -> R -> R) (x y : arr) :
  length x = length y -> bop f x y = Ok (map2 f x y).
Proof.
  intros Hl. unfold bop, bshape.
  destruct (Nat.eqb_spec (length x) 1).
  - rewrite !broadcast_to_same by lia. reflexivity.
  - rewrite !broadcast_to_same by lia. reflexivity.
Qed.

Lemma bop_singleton_r (f : R -> R -> R) (x : arr) (v : R) :
  bop f x [v] = Ok (map (fun u => f u v) x).
Proof.
  unfold bop, bshape. simpl length.
  destruct (Nat.eqb_spec (length x) 1) as [E|E].
  - rewrite broadcast_to_same by assumption.
    rewrite broadcast_to_same by reflexivity. simpl.
    destruct x as [|u [|w x]]; try discriminate. reflexivity.
  - rewrite broadcast_to_same by reflexivity.
    rewrite broadcast_to_singleton. simpl.
    now rewrite map2_repeat_r.
Qed.

Lemma bop_mismatch (f : R -> R -> R) (x y : arr) :
  length x <> length y -> length x <> 1%nat -> length y <> 1%nat ->
  bop f x y = ValueError.
Proof.
  intros Hxy Hx Hy. unfold bop, bshape.
  destruct (Nat.eqb_spec (length x) 1); [contradiction|].
  rewrite broadcast_to_same by reflexivity. simpl.
  unfold broadcast_to. destruct (Nat.eqb_spec (length y) (length x)).
  - congruence.
  - destruct y as [|v [|w y]]; simpl in *; try reflexivity. lia.
Qed.

Lemma isub_same_length (x y : arr) :
  length y = length x -> isub x y = Ok (map2 Rminus x y).
Proof.
  intros Hl. unfold isub. now rewrite broadcast_to_same.
Qed.

Lemma to_radians_length (radians : bool) (x : arr) :
  length (to_radians radians x) = length x.
Proof. destruct radians; simpl; [reflexivity | apply length_map]. Qed.

Lemma from_radians_length (radians : bool) (x : arr) :
  length (from_radians radians x) = length x.
Proof. destruct radians; simpl; [reflexivity | apply length_map]. Qed.

Lemma map2_length_same (f : R -> R -> R) (xs ys : arr) :
  length xs = length ys -> length (map2 f xs ys) = length xs.
Proof. intros Hl. rewrite map2_length. lia. Qed.

Lemma array3_same_length (r0 r1 r2 : arr) :
  length r1 = length r0 -> length r2 = length r0 ->
  array3 r0 r1 r2 = Ok (mk_ndarray [3%nat; length r0] (r0 ++ r1 ++ r2)).
Proof.
  intros H1 H2. unfold array3.
  now rewrite (proj2 (Nat.eqb_eq _ _) H1), (proj2 (Nat.eqb_eq _ _) H2).
Qed.

Lemma closed_form_nu_eq (datum : Ellipsoid) (lat : R) :
  nu_of datum lat = closed_form_nu datum lat.
Proof. unfold nu_of, closed_form_nu. now rewrite Rsqr_pow2. Qed.

(** ** Geographic to Cartesian on arrays of one length *)

Lemma lat_long_to_xyz_rows (latitude longitude : arr) (radians : bool)
  (datum : Ellipsoid) :
  length latitude = length longitude ->
  lat_long_to_xyz latitude longitude radians datum =
  Ok (mk_ndarray [3%nat; length latitude]
        (map2 (closed_form_x datum) (to_radians radians latitude)
                                    (to_radians radians longitude)
         ++ map2 (closed_form_y datum) (to_radians radians latitude)
                                       (to_radians radians longitude)
         ++ map (closed_form_z datum) (to_radians radians latitude))).
Proof.
  intros Hl. unfold lat_long_to_xyz.
  set (lat := to_radians radians latitude).
  set (lon := to_radians radians longitude).
  assert (Hlat : length lat = length latitude)
    by apply to_radians_length.
  assert (Hlon : length lon = length latitude)
    by (unfold lon; rewrite to_radians_length; lia).
  rewrite !map2_map_l, !map2_diag.
  rewrite !bop_same_length by (rewrite !length_map; lia).
  cbn [bind].
  rewrite !map2_map_l, !map2_map_r.
  rewrite array3_same_length
    by (rewrite ?length_map, !map2_length_same; lia).
  rewrite map2_length_same by lia. rewrite Hlat.
  do 2 f_equal. f_equal; [|f_equal].
  - apply map2_ext. intros x y. unfold closed_form_x.
    now rewrite closed_form_nu_eq.
  - apply map2_ext. intros x y. unfold closed_form_y.
    now rewrite closed_form_nu_eq.
  - apply map_ext. intros x. unfold closed_form_z.
    now rewrite closed_form_nu_eq.
Qed.

(** ** The Newton-Raphson loop on arrays of one length *)

Ltac len :=
  repeat (rewrite ?length_map, ?to_radians_length, ?from_radians_length,
            ?repeat_length);
  repeat (rewrite map2_length_same;
          repeat rewrite ?length_map, ?to_radians_length,
            ?from_radians_length);
  try lia; try congruence.

Lemma nr_f0_pointwise (datum : Ellipsoid) (z p latitude : arr) :
  length z = length latitude -> length p = length latitude ->
  exists f0, nr_f0 datum z p latitude = Ok f0
    /\ length f0 = length latitude
    /\ forall i, (i < length latitude)%nat ->
         nth i f0 0 = f0_residual datum (nth i z 0) (nth i p 0)
                                  (nth i latitude 0).
Proof.
  intros Hz Hp. unfold nr_f0.
  rewrite map2_map_l, map2_diag.
  rewrite (bop_same_length Rplus) by len. cbn [bind].
  rewrite (bop_same_length Rdiv) by len. cbn [bind].
  rewrite (bop_same_length Rminus) by len.
  eexists; split; [reflexivity|]. split; [len|].
  intros i Hi. unfold f0_residual.
  repeat (rewrite map2_nth by len). now rewrite !map_nth0 by len.
Qed.

Lemma nr_f1_pointwise (datum : Ellipsoid) (p latitude : arr) :
  length p = length latitude ->
  exists f1, nr_f1 datum p latitude = Ok f1
    /\ length f1 = length latitude
    /\ forall i, (i < length latitude)%nat ->
         nth i f1 0 = f1_code datum (nth i p 0) (nth i latitude 0).
Proof.
  intros Hp. unfold nr_f1.
  rewrite (bop_same_length Rdiv) by len. cbn [bind].
  rewrite (bop_same_length Rminus) by len.
  eexists; split; [reflexivity|]. split; [len|].
  intros i Hi. unfold f1_code.
  repeat (rewrite map2_nth by len). now rewrite !map_nth0 by len.
Qed.

Lemma nr_step_pointwise (datum : Ellipsoid) (z p latitude : arr) :
  length z = length latitude -> length p = length latitude ->
  exists out, nr_step datum z p latitude = Ok out
    /\ length out = length latitude
    /\ forall i, (i < length latitude)%nat ->
         nth i out 0 = newton_update datum (nth i z 0) (nth i p 0)
                                     (nth i latitude 0).
Proof.
  intros Hz Hp. unfold nr_step.
  destruct (nr_f0_pointwise datum z p latitude Hz Hp)
    as (f0 & -> & Hl0 & Hf0).
  destruct (nr_f1_pointwise datum p latitude Hp) as (f1 & -> & Hl1 & Hf1).
  cbn [bind].
  rewrite (bop_same_length Rdiv) by lia. cbn [bind].
  rewrite isub_same_length by len.
  eexists; split; [reflexivity|]. split; [len|].
  intros i Hi. unfold newton_update.
  repeat (rewrite map2_nth by len). now rewrite Hf0, Hf1.
Qed.

Lemma for_range_counted_spec {S : Type} (k : nat) (body : S -> result S)
  (s : S) (passes : nat) :
  for_range_counted k body s passes =
  (s' <- for_range k body s ;; Ok (s', (passes + k)%nat)).
Proof.
  revert s passes; induction k as [|k IH]; intros s passes; simpl.
  - now rewrite Nat.add_0_r.
  - destruct (body s) as [s'|]; simpl; [|reflexivity].
    rewrite IH. now rewrite Nat.add_succ_comm.
Qed.

Lemma nr_loop_returns (datum : Ellipsoid) (z p : arr) (k : nat) :
  forall latitude,
  length z = length latitude -> length p = length latitude ->
  exists out, for_range k (nr_step datum z p) latitude = Ok out
    /\ length out = length latitude.
Proof.
  induction k as [|k IH]; intros latitude Hz Hp; simpl.
  - eauto.
  - destruct (nr_step_pointwise datum z p latitude Hz Hp)
      as (out & -> & Hl & _).
    cbn [bind].
    destruct (IH out) as (out' & -> & Hl'); try congruence.
    exists out'. split; [reflexivity | congruence].
Qed.


(** ** The angle of a point given in polar form *)

Lemma polar_ratio (r t : R) :
  0 < r -> cos t <> 0 -> r * sin t / (r * cos t) = tan t.
Proof. intros Hr Hc. unfold tan. field. split; lra. Qed.

Lemma tan_shift_PI (t : R) : tan (t + PI) = tan t.
Proof.
  unfold tan. rewrite neg_sin, neg_cos.
  destruct (Req_dec (cos t) 0) as [E|E].
  - rewrite E. unfold Rdiv. rewrite Ropp_0, Rinv_0. ring.
  - field. exact E.
Qed.

Ltac decide_signs :=
  repeat match goal with
         | |- context [Rlt_dec ?u ?v] => destruct (Rlt_dec u v)
         | |- context [Rle_dec ?u ?v] => destruct (Rle_dec u v)
         end.

Lemma arctan2_polar (r t : R) :
  0 < r -> - PI < t <= PI -> arctan2 (r * sin t) (r * cos t) = t.
Proof.
  intros Hr [Hlo Hhi]. pose proof PI_RGT_0 as HPI. unfold arctan2.
  destruct (Rlt_dec t (- (PI / 2))) as [Ha|Ha].
  - assert (Hc : cos t < 0).
    { rewrite <- cos_neg. apply cos_lt_0; lra. }
    assert (Hs : sin t < 0) by (apply sin_lt_0_var; lra).
    destruct (Rlt_dec 0 (r * cos t)); [nra|].
    destruct (Rlt_dec (r * cos t) 0); [|nra].
    destruct (Rle_dec 0 (r * sin t)); [nra|].
    rewrite polar_ratio by lra.
    rewrite <- tan_shift_PI, atan_tan by lra. lra.
  - destruct (Req_dec t (- (PI / 2))) as [Hb|Hb].
    + subst t. rewrite cos_neg, sin_neg, cos_PI2, sin_PI2.
      rewrite Rmult_0_r. decide_signs; lra.
    + destruct (Rlt_dec t (PI / 2)) as [Hd|Hd].
      * assert (Hc : 0 < cos t) by (apply cos_gt_0; lra).
        destruct (Rlt_dec 0 (r * cos t)); [|nra].
        rewrite polar_ratio by lra. apply atan_tan. lra.
      * destruct (Req_dec t (PI / 2)) as [He|He].
        -- subst t. rewrite cos_PI2, sin_PI2, Rmult_0_r, Rmult_1_r.
           decide_signs; lra.
        -- assert (Hc : cos t < 0) by (apply cos_lt_0; lra).
           assert (Hs : 0 <= sin t) by (apply sin_ge_0; lra).
           destruct (Rlt_dec 0 (r * cos t)); [nra|].
           destruct (Rlt_dec (r * cos t) 0); [|nra].
           destruct (Rle_dec 0 (r * sin t)); [|nra].
           rewrite polar_ratio by lra.
           replace (tan t) with (tan ((t - PI) + PI)) by (f_equal; ring).
           rewrite tan_shift_PI, atan_tan by lra. lra.
Qed.

Lemma deg_rad (x : R) : deg (rad x) = x.
Proof.
  unfold deg, rad, rad_dms. pose proof PI_RGT_0. field. lra.
Qed.

Lemma rad_deg (x : R) : rad (deg x) = x.
Proof.
  unfold deg, rad, rad_dms. pose proof PI_RGT_0. field. lra.
Qed.

(** ** One point on an ellipsoid without height offset *)

Section RoundTripPoint.

Variable datum : Ellipsoid.
Hypothesis He2 : e2 datum < 1.
Hypothesis HaF : 0 < a datum * F_0 datum.
Hypothesis HH : H datum = 0.

Lemma curvature_arg_pos (lat : R) : 0 < 1 - e2 datum * sin lat ^ 2.
Proof.
  assert (Hs : 0 <= sin lat ^ 2 <= 1).
  { pose proof (SIN_bound lat). nra. }
  destruct (Rle_dec (e2 datum) 0); nra.
Qed.







End RoundTripPoint.

(** ** Rows of a 3-by-N array *)






Lemma map_map2 (g : R -> R) (f : R -> R -> R) (xs ys : arr) :
  map g (map2 f xs ys) = map2 (fun x y => g (f x y)) xs ys.
Proof.
  revert ys; induction xs as [|x xs IH]; intros [|y ys]; simpl; auto.
  now rewrite IH.
Qed.

(** ** Cartesian to geographic on arrays of one length *)

Lemma xyz_to_lat_long_same_length (x y z : arr) (radians : bool)
  (datum : Ellipsoid) :
  length y = length x -> length z = length x ->
  xyz_to_lat_long x y z radians datum =
  (latitude <- for_range 6 (nr_step datum z (horizontal x y))
                         (first_guess datum x y z) ;;
   Ok (from_radians radians latitude,
       from_radians radians (map2 arctan2 y x))).
Proof.
  intros Hy Hz. unfold xyz_to_lat_long, first_guess, horizontal.
  rewrite (bop_same_length Rplus) by len. cbn [bind].
  rewrite (bop_same_length arctan2 y x) by len. cbn [bind].
  rewrite map_map2, map2_map_l, map2_map_r.
  rewrite (bop_same_length arctan2) by len. cbn [bind].
  reflexivity.
Qed.

Lemma xyz_to_lat_long_counted_same_length (x y z : arr) (radians : bool)
  (datum : Ellipsoid) :
  length y = length x -> length z = length x ->
  xyz_to_lat_long_counted x y z radians datum =
  (latitude <- for_range 6 (nr_step datum z (horizontal x y))
                         (first_guess datum x y z) ;;
   Ok (from_radians radians latitude,
       from_radians radians (map2 arctan2 y x), 6%nat)).
Proof.
  intros Hy Hz. unfold xyz_to_lat_long_counted, first_guess, horizontal.
  rewrite (bop_same_length Rplus) by len. cbn [bind].
  rewrite (bop_same_length arctan2 y x) by len. cbn [bind].
  rewrite map_map2, map2_map_l, map2_map_r.
  rewrite (bop_same_length arctan2) by len. cbn [bind].
  rewrite for_range_counted_spec.
  destruct (for_range 6 _ _); reflexivity.
Qed.

(** ** Round trip on arrays *)





Lemma entry_of_rows (r0 r1 r2 : arr) (k i : nat) :
  length r0 = k -> length r1 = k -> length r2 = k -> (i < k)%nat ->
  let X := mk_ndarray [3%nat; k] (r0 ++ r1 ++ r2) in
  entry X 0 i = nth i r0 0 /\ entry X 1 i = nth i r1 0
  /\ entry X 2 i = nth i r2 0.
Proof.
  intros H0 H1 H2 Hi X. unfold entry, ncols, X. cbn [shape data nth].
  repeat split.
  - rewrite app_nth1 by lia. f_equal.
  - rewrite app_nth2 by lia. rewrite app_nth1 by lia. f_equal. lia.
  - rewrite app_nth2 by lia. rewrite app_nth2 by lia. f_equal. lia.
Qed.

(** C5.  [lat_long_to_xyz] is the closed form: on latitude and longitude
    arrays of one length N, for every ellipsoid or datum and both settings
    of [radians], it returns the 3-by-N array whose column [i] is
    x = (nu+H) cos(lat) cos(long), y = (nu+H) cos(lat) sin(long),
    z = ((1-e2) nu + H) sin(lat) with nu = a F_0 / sqrt(1 - e2 sin(lat)^2),
    evaluated at element [i] of the inputs, multiplied by PI/180 first when
    [radians] is false.  No iteration is involved. *)
Theorem lat_long_to_xyz_closed_form (latitude longitude : arr)
  (radians : bool) (datum : Ellipsoid) :
  length latitude = length longitude ->
  exists X,
    lat_long_to_xyz latitude longitude radians datum = Ok X
    /\ shape X = [3%nat; length latitude]
    /\ forall i, (i < length latitude)%nat ->
       let conv := fun v => if radians then v else v * (PI / 180) in
       let lat := conv (nth i latitude 0) in
       let long := conv (nth i longitude 0) in
       let nu := a datum * F_0 datum / sqrt (1 - e2 datum * (sin lat)²) in
       entry X 0 i = (nu + H datum) * cos lat * cos long
       /\ entry X 1 i = (nu + H datum) * cos lat * sin long
       /\ entry X 2 i = ((1 - e2 datum) * nu + H datum) * sin lat.
Proof.
  intros Hlen. rewrite lat_long_to_xyz_rows by assumption.
  eexists; split; [reflexivity|]. split; [reflexivity|].
  intros i Hi conv lat long nu.
  destruct (entry_of_rows
              (map2 (closed_form_x datum) (to_radians radians latitude)
                    (to_radians radians longitude))
              (map2 (closed_form_y datum) (to_radians radians latitude)
                    (to_radians radians longitude))
              (map (closed_form_z datum) (to_radians radians latitude))
              (length latitude) i) as (E0 & E1 & E2); try len.
  rewrite E0, E1, E2. rewrite !map2_nth, map_nth0 by len.
  assert (Hlat : nth i (to_radians radians latitude) 0 = lat).
  { unfold lat, conv. destruct radians; cbn [to_radians]; [reflexivity|].
    rewrite map_nth0 by lia. unfold rad, rad_dms. field. }
  assert (Hlong : nth i (to_radians radians longitude) 0 = long).
  { unfold long, conv. destruct radians; cbn [to_radians]; [reflexivity|].
    rewrite map_nth0 by lia. unfold rad, rad_dms. field. }
  rewrite Hlat, Hlong. repeat split.
Qed.

Lemma lat_long_to_xyz_closed_form_witness :
  exists X, lat_long_to_xyz [0] [0] false osgb36 = Ok X
            /\ shape X = [3%nat; 1%nat].
Proof.
  destruct (lat_long_to_xyz_closed_form [0] [0] false osgb36 eq_refl)
    as (X & HX & Hs & _).
  exists X. split; assumption.
Defined.

Lemma wgs84_e2_lt_1 : e2 wgs84 < 1.
Proof. unfold wgs84, Ellipsoid_init. cbn [e2]. lra. Qed.

Lemma wgs84_scale_pos : 0 < a wgs84 * F_0 wgs84.
Proof. unfold wgs84, Ellipsoid_init. cbn [a F_0]. lra. Qed.

(** C8.  [xyz_to_lat_long] makes exactly 6 passes through its correction
    step.  Whenever it returns, the pass counter of the instrumented run
    is 6 and the result is that of the plain function; and on coordinate
    arrays of one length it always returns, whatever the values. *)
Theorem xyz_to_lat_long_six_passes (x y z : arr) (radians : bool)
  (datum : Ellipsoid) :
  (forall lat long k,
     xyz_to_lat_long_counted x y z radians datum = Ok (lat, long, k) ->
     k = 6%nat /\ xyz_to_lat_long x y z radians datum = Ok (lat, long))
  /\ (length y = length x -> length z = length x ->
      exists lat long,
        xyz_to_lat_long_counted x y z radians datum = Ok (lat, long, 6%nat)
        /\ xyz_to_lat_long x y z radians datum = Ok (lat, long)).
Proof.
  split.
  - intros lat long k. unfold xyz_to_lat_long_counted, xyz_to_lat_long.
    destruct (bop Rplus _ _) as [x2y2|]; cbn [bind]; [|discriminate].
    destruct (bop arctan2 y x) as [lon|]; cbn [bind]; [|discriminate].
    destruct (bop arctan2 z _) as [lat0|]; cbn [bind]; [|discriminate].
    rewrite for_range_counted_spec.
    destruct (for_range 6 _ lat0) as [l|]; cbn [bind]; [|discriminate].
    intros [= <- <- <-]. split; reflexivity.
  - intros Hy Hz.
    rewrite xyz_to_lat_long_counted_same_length,
      xyz_to_lat_long_same_length by assumption.
    destruct (nr_loop_returns datum z (horizontal x y) 6
                (first_guess datum x y z)) as (out & -> & _).
    + unfold first_guess, horizontal; len.
    + unfold first_guess, horizontal; len.
    + cbn [bind]. eauto.
Qed.

Lemma xyz_to_lat_long_six_passes_witness :
  exists lat long,
    xyz_to_lat_long_counted [1] [0] [0] true osgb36 = Ok (lat, long, 6%nat)
    /\ xyz_to_lat_long [1] [0] [0] true osgb36 = Ok (lat, long).
Proof.
  exact (proj2 (xyz_to_lat_long_six_passes [1] [0] [0] true osgb36)
               eq_refl eq_refl).
Defined.

(** ** Helmert transform *)

Lemma grid_length (f : nat -> nat -> R) (r c : nat) :
  length (flat_map (fun i => map (f i) (seq 0 c)) (seq 0 r)) = (r * c)%nat.
Proof.
  induction r as [|r IH]; [reflexivity|].
  rewrite seq_S, flat_map_app, length_app, IH. simpl.
  rewrite app_nil_r, length_map, length_seq. lia.
Qed.

Lemma grid_nth (f : nat -> nat -> R) (r c i k : nat) :
  (i < r)%nat -> (k < c)%nat ->
  nth (i * c + k) (flat_map (fun i => map (f i) (seq 0 c)) (seq 0 r)) 0
  = f i k.
Proof.
  induction r as [|r IH]; intros Hi Hk; [lia|].
  rewrite seq_S, flat_map_app. simpl. rewrite app_nil_r.
  destruct (Nat.eq_dec i r) as [->|Hne].
  - rewrite app_nth2; rewrite grid_length; [|lia].
    replace (r * c + k - r * c)%nat with k by lia.
    rewrite (nth_indep _ 0 (f r 0%nat)) by (rewrite length_map, length_seq; lia).
    rewrite map_nth, seq_nth by lia. reflexivity.
  - rewrite app_nth1; [apply IH; lia|].
    rewrite grid_length. nia.
Qed.

Lemma init_returns (s rx ry rz : R) (t : ndarray) :
  size t = 3%nat ->
  HelmertTransform_init s rx ry rz t =
  Ok {| T := mk_ndarray [3%nat; 1%nat] (data t);
        M := mk_ndarray [3%nat; 3%nat]
               [1 + s; - rz; ry; rz; 1 + s; - rx; - ry; rx; 1 + s] |}.
Proof.
  intros Ht. unfold HelmertTransform_init, reshape_3_1.
  now rewrite Ht.
Qed.

Lemma init_inversion (s rx ry rz : R) (t : ndarray) (h : HelmertTransform) :
  HelmertTransform_init s rx ry rz t = Ok h ->
  size t = 3%nat
  /\ h = {| T := mk_ndarray [3%nat; 1%nat] (data t);
            M := mk_ndarray [3%nat; 3%nat]
                   [1 + s; - rz; ry; rz; 1 + s; - rx; - ry; rx; 1 + s] |}.
Proof.
  intros Hh. unfold HelmertTransform_init, reshape_3_1 in Hh.
  destruct (Nat.eqb_spec (size t) 3) as [E|E]; [|discriminate].
  cbn [bind] in Hh. injection Hh as <-. auto.
Qed.

(** Entries of the transformed point set, for a transform built by the
    constructor and any input with a multiple of 3 elements. *)
Lemma call_entries (s rx ry rz : R) (t X : ndarray) (h : HelmertTransform) :
  HelmertTransform_init s rx ry rz t = Ok h ->
  (size X mod 3 = 0)%nat ->
  let c := (size X / 3)%nat in
  let X' := mk_ndarray [3%nat; c] (data X) in
  exists Y,
    HelmertTransform_call h X = Ok Y
    /\ shape Y = [3%nat; c]
    /\ length (data Y) = (3 * c)%nat
    /\ forall i k, (i < 3)%nat -> (k < c)%nat ->
         entry Y i k =
         nth i (data t) 0
         + (0 + entry (M h) i 0 * entry X' 0 k
              + entry (M h) i 1 * entry X' 1 k
              + entry (M h) i 2 * entry X' 2 k).
Proof.
  intros Hh Hmod c X'.
  destruct (init_inversion _ _ _ _ _ _ Hh) as [Ht ->].
  unfold HelmertTransform_call, reshape_3. rewrite Hmod. cbn [Nat.eqb bind].
  fold c. fold X'. unfold dot. cbn [M ncols nrows shape nth Nat.eqb bind].
  eexists. split; [reflexivity|]. cbn [T].
  unfold add_column. cbn [nrows ncols shape data nth].
  split; [reflexivity|]. split; [apply grid_length|].
  intros i k Hi Hk. unfold entry at 1. cbn [ncols shape data nth].
  rewrite (grid_nth _ 3 c i k Hi Hk).
  f_equal.
  - unfold entry. cbn [ncols shape data nth]. f_equal. lia.
  - unfold entry at 1. cbn [ncols shape data nth].
    rewrite (grid_nth _ 3 c i k Hi Hk). reflexivity.
Qed.

Lemma size_3_by (N : nat) (X : ndarray) :
  shape X = [3%nat; N] ->
  (size X mod 3 = 0)%nat /\ (size X / 3 = N)%nat.
Proof.
  intros Hs. unfold size. rewrite Hs. cbn [fold_right].
  rewrite Nat.mul_1_r, Nat.mul_comm.
  split; [apply Nat.Div0.mod_mul | apply Nat.div_mul; lia].
Qed.

Lemma ndarray_ext_3 (X Y : ndarray) (N : nat) :
  shape X = [3%nat; N] -> shape Y = [3%nat; N] ->
  length (data X) = (3 * N)%nat -> length (data Y) = (3 * N)%nat ->
  (forall i k, (i < 3)%nat -> (k < N)%nat -> entry Y i k = entry X i k) ->
  Y = X.
Proof.
  intros HsX HsY HlX HlY Hent.
  destruct X as [sx dx], Y as [sy dy]. cbn in *. subst sx sy. f_equal.
  apply (nth_ext _ _ 0 0); [lia|].
  intros idx Hidx.
  assert (HN : (0 < N)%nat) by lia.
  specialize (Hent (idx / N)%nat (idx mod N)%nat).
  unfold entry, ncols in Hent. cbn [shape data nth] in Hent.
  rewrite (Nat.mul_comm (idx / N) N), <- Nat.div_mod_eq in Hent.
  apply Hent.
  - apply Nat.Div0.div_lt_upper_bound. lia.
  - apply Nat.mod_upper_bound. lia.
Qed.

Ltac three_cases i :=
  destruct i as [|[|[|i]]]; [| | |lia].

(** C7.  A [HelmertTransform] built from [s, rx, ry, rz] and a 3-element
    translation [t] has rotation matrix I + S, with
    S = [[s,-rz,ry],[rz,s,-rx],[-ry,rx,s]]; applied to a 3-by-N point set
    it returns the 3-by-N array t + (I+S) * points; and with
    s = rx = ry = rz = 0 and t = (0,0,0) it returns the point set
    unchanged. *)
Theorem helmert_is_affine (s rx ry rz : R) (t : ndarray) :
  size t = 3%nat ->
  exists h,
    HelmertTransform_init s rx ry rz t = Ok h
    /\ (forall i j, (i < 3)%nat -> (j < 3)%nat ->
          entry (M h) i j = mat_add identity3 (skew s rx ry rz) i j)
    /\ (forall X N, shape X = [3%nat; N] -> ndarray_wf X ->
          exists Y,
            HelmertTransform_call h X = Ok Y
            /\ shape Y = [3%nat; N]
            /\ ndarray_wf Y
            /\ forall i k, (i < 3)%nat -> (k < N)%nat ->
                 entry Y i k =
                 affine_image (fun i => nth i (data t) 0)
                              (mat_add identity3 (skew s rx ry rz))
                              (entry X) i k)
    /\ (s = 0 -> rx = 0 -> ry = 0 -> rz = 0 ->
        (forall i, (i < 3)%nat -> nth i (data t) 0 = 0) ->
        forall X N, shape X = [3%nat; N] -> ndarray_wf X ->
          HelmertTransform_call h X = Ok X).
Proof.
  intros Ht. pose proof (init_returns s rx ry rz t Ht) as Hinit.
  eexists; split; [exact Hinit|].
  assert (HM : forall i j, (i < 3)%nat -> (j < 3)%nat ->
            entry {| shape := [3%nat; 3%nat];
                     data := [1 + s; - rz; ry; rz; 1 + s; - rx;
                              - ry; rx; 1 + s] |} i j
            = mat_add identity3 (skew s rx ry rz) i j).
  { intros i j Hi Hj. three_cases i; three_cases j;
      unfold entry, mat_add, identity3, skew; cbn; ring. }
  assert (Hcall : forall X N, shape X = [3%nat; N] -> ndarray_wf X ->
            exists Y,
              HelmertTransform_call
                {| T := mk_ndarray [3%nat; 1%nat] (data t);
                   M := mk_ndarray [3%nat; 3%nat]
                          [1 + s; - rz; ry; rz; 1 + s; - rx;
                           - ry; rx; 1 + s] |} X = Ok Y
              /\ shape Y = [3%nat; N]
              /\ ndarray_wf Y
              /\ forall i k, (i < 3)%nat -> (k < N)%nat ->
                   entry Y i k =
                   affine_image (fun i => nth i (data t) 0)
                                (mat_add identity3 (skew s rx ry rz))
                                (entry X) i k).
  { intros X N HsX HwX.
    destruct (size_3_by N X HsX) as [Hmod Hdiv].
    destruct (call_entries s rx ry rz t X _ Hinit Hmod)
      as (Y & HY & HsY & HlY & HeY).
    rewrite Hdiv in HsY, HlY, HeY.
    exists Y. split; [exact HY|]. split; [exact HsY|]. split.
    - unfold ndarray_wf, size. rewrite HsY, HlY. simpl. lia.
    - intros i k Hi Hk. rewrite (HeY i k Hi Hk). cbn [M].
      unfold affine_image. rewrite !HM by lia.
      replace (entry {| shape := [3%nat; N]; data := data X |})
        with (entry X).
      + ring.
      + unfold entry, ncols. now rewrite HsX. }
  split; [exact HM|]. split; [exact Hcall|].
  intros -> -> -> -> Ht0 X N HsX HwX.
  destruct (Hcall X N HsX HwX) as (Y & HY & HsY & HwY & HeY).
  rewrite HY. f_equal.
  apply (ndarray_ext_3 X Y N); auto.
  - rewrite HwX. unfold size. rewrite HsX. simpl. lia.
  - rewrite HwY. unfold size. rewrite HsY. simpl. lia.
  - intros i k Hi Hk. rewrite (HeY i k Hi Hk).
    unfold affine_image. rewrite (Ht0 i Hi).
    three_cases i; unfold mat_add, identity3, skew; cbn; ring.
Qed.

Lemma helmert_is_affine_witness :
  exists h,
    HelmertTransform_init 0 0 0 0 (mk_ndarray [3%nat] [0; 0; 0]) = Ok h
    /\ HelmertTransform_call h (mk_ndarray [3%nat; 2%nat] [1; 2; 3; 4; 5; 6])
       = Ok (mk_ndarray [3%nat; 2%nat] [1; 2; 3; 4; 5; 6]).
Proof.
  destruct (helmert_is_affine 0 0 0 0 (mk_ndarray [3%nat] [0; 0; 0])
              eq_refl) as (h & Hh & _ & _ & Hid).
  exists h. split; [exact Hh|].
  apply (Hid eq_refl eq_refl eq_refl eq_refl) with (N := 2%nat).
  - intros i Hi. three_cases i; reflexivity.
  - reflexivity.
  - reflexivity.
Defined.

(** C9.  Applying a [HelmertTransform] never raises on an input whose
    element count is a multiple of 3: the input is reshaped to 3 rows and
    the result has shape 3-by-(count/3).  A flat vector of 3 elements is
    returned as a 3-by-1 column. *)
Theorem helmert_call_reshapes (s rx ry rz : R) (t X : ndarray)
  (h : HelmertTransform) :
  HelmertTransform_init s rx ry rz t = Ok h ->
  (size X mod 3 = 0)%nat ->
  exists Y,
    HelmertTransform_call h X = Ok Y
    /\ shape Y = [3%nat; (size X / 3)%nat]
    /\ ndarray_wf Y
    /\ (shape X = [3%nat] -> shape Y = [3%nat; 1%nat] /\ shape Y <> shape X).
Proof.
  intros Hh Hmod.
  destruct (call_entries s rx ry rz t X h Hh Hmod)
    as (Y & HY & HsY & HlY & _).
  exists Y. split; [exact HY|]. split; [exact HsY|]. split.
  - unfold ndarray_wf. rewrite HlY.
    change (size Y) with (fold_right Nat.mul 1%nat (shape Y)).
    rewrite HsY. simpl. lia.
  - intros HsX. rewrite HsY. unfold size. rewrite HsX. cbn.
    split; [reflexivity | discriminate].
Qed.

Lemma helmert_call_reshapes_witness :
  exists h Y,
    WGS84toOSGB36transform = Ok h
    /\ HelmertTransform_call h (mk_ndarray [3%nat] [1; 2; 3]) = Ok Y
    /\ shape Y = [3%nat; 1%nat].
Proof.
  destruct (helmert_call_reshapes 20.4894e-6 (- rad_dms 0 0 0.1502)
              (- rad_dms 0 0 0.2470) (- rad_dms 0 0 0.8421)
              (mk_ndarray [3%nat] [-446.448; 125.157; -542.060])
              (mk_ndarray [3%nat] [1; 2; 3]) _ eq_refl eq_refl)
    as (Y & HY & _ & _ & Hflat).
  eexists. exists Y. split; [reflexivity|]. split; [exact HY|].
  apply Hflat. reflexivity.
Defined.

(** ** What the array operations accept and refuse *)

Lemma bop_singleton_l (f : R -> R -> R) (v : R) (y : arr) :
  bop f [v] y = Ok (map (f v) y).
Proof.
  unfold bop, bshape. simpl length. cbn [Nat.eqb].
  rewrite broadcast_to_singleton.
  rewrite broadcast_to_same by reflexivity. cbn [bind]. f_equal.
  induction y as [|u y IH]; simpl; [reflexivity | now rewrite IH].
Qed.

Lemma lat_long_to_xyz_broadcast_longitude (latitude : arr) (g : R)
  (radians : bool) (datum : Ellipsoid) :
  exists X,
    lat_long_to_xyz latitude [g] radians datum = Ok X
    /\ shape X = [3%nat; length latitude].
Proof.
  unfold lat_long_to_xyz.
  assert (Hg : exists g', to_radians radians [g] = [g'])
    by (destruct radians; simpl; eauto).
  destruct Hg as [g' ->]. cbn [map].
  rewrite !bop_singleton_r. cbn [bind].
  rewrite array3_same_length by len.
  eexists. split; [reflexivity|]. cbn [shape]. f_equal. len.
Qed.

Lemma lat_long_to_xyz_mismatch (latitude longitude : arr) (radians : bool)
  (datum : Ellipsoid) :
  length latitude <> length longitude ->
  length latitude <> 1%nat -> length longitude <> 1%nat ->
  lat_long_to_xyz latitude longitude radians datum = ValueError.
Proof.
  intros Hne H1 H2. unfold lat_long_to_xyz.
  rewrite bop_mismatch; [reflexivity| | |]; len.
Qed.

Lemma xyz_to_lat_long_broadcast_y (x z : arr) (v : R) (radians : bool)
  (datum : Ellipsoid) :
  length z = length x ->
  exists lat long,
    xyz_to_lat_long x [v] z radians datum = Ok (lat, long)
    /\ length lat = length x /\ length long = length x.
Proof.
  intros Hz. unfold xyz_to_lat_long. cbn [map].
  rewrite bop_singleton_r. cbn [bind].
  rewrite bop_singleton_l. cbn [bind].
  rewrite (bop_same_length arctan2) by len. cbn [bind].
  destruct (nr_loop_returns datum z
              (map sqrt (map (fun u => u + v ^ 2) (map (fun v0 => v0 ^ 2) x)))
              6
              (map2 arctan2 z
                 (map (fun v0 => v0 * (1 - e2 datum))
                    (map sqrt
                       (map (fun u => u + v ^ 2)
                          (map (fun v0 => v0 ^ 2) x))))))
    as (out & -> & Hout); [len | len |].
  cbn [bind]. eexists. eexists. split; [reflexivity|].
  split; [|len]. rewrite from_radians_length, Hout. len.
Qed.

Lemma xyz_to_lat_long_mismatch (x y z : arr) (radians : bool)
  (datum : Ellipsoid) :
  length x <> length y -> length x <> 1%nat -> length y <> 1%nat ->
  xyz_to_lat_long x y z radians datum = ValueError.
Proof.
  intros Hne H1 H2. unfold xyz_to_lat_long.
  rewrite bop_mismatch; [reflexivity| | |]; len.
Qed.

Lemma call_refuses (h : HelmertTransform) (X : ndarray) :
  (size X mod 3 <> 0)%nat -> HelmertTransform_call h X = ValueError.
Proof.
  intros Hmod. unfold HelmertTransform_call, reshape_3.
  destruct (Nat.eqb_spec (size X mod 3) 0); [contradiction | reflexivity].
Qed.

(** C3, as stated, fails: a length-1 longitude is broadcast against two
    latitudes, a length-1 [y] against two [x] and [z], and a 2-by-3 array
    (two points stored as rows) is reshaped into 3 rows; none is refused. *)
Lemma shape_mismatch_accepted :
  (length [0; 0] <> length [0]
   /\ exists X, lat_long_to_xyz [0; 0] [0] true osgb36 = Ok X
                /\ shape X = [3%nat; 2%nat])
  /\ (length [1; 1] <> length [0]
      /\ exists lat long,
           xyz_to_lat_long [1; 1] [0] [0; 0] true osgb36 = Ok (lat, long))
  /\ (exists h Y,
        WGS84toOSGB36transform = Ok h
        /\ shape (mk_ndarray [2%nat; 3%nat] [1; 2; 3; 4; 5; 6])
           <> [3%nat; 2%nat]
        /\ HelmertTransform_call h
             (mk_ndarray [2%nat; 3%nat] [1; 2; 3; 4; 5; 6]) = Ok Y
        /\ shape Y = [3%nat; 2%nat]).
Proof.
  split; [|split].
  - split; [simpl; lia|].
    exact (lat_long_to_xyz_broadcast_longitude [0; 0] 0 true osgb36).
  - split; [simpl; lia|].
    destruct (xyz_to_lat_long_broadcast_y [1; 1] [0; 0] 0 true osgb36
                eq_refl) as (lat & long & Hr & _).
    eauto.
  - destruct (call_entries 20.4894e-6 (- rad_dms 0 0 0.1502)
                (- rad_dms 0 0 0.2470) (- rad_dms 0 0 0.8421)
                (mk_ndarray [3%nat] [-446.448; 125.157; -542.060])
                (mk_ndarray [2%nat; 3%nat] [1; 2; 3; 4; 5; 6])
                _ eq_refl eq_refl) as (Y & HY & HsY & _).
    eexists. exists Y. split; [reflexivity|].
    split; [discriminate|]. split; [exact HY | exact HsY].
Qed.

(** C3, amended.  The three operations make no shape check of their own;
    what is refused is what the array operations refuse.  Applying a
    Helmert transform fails exactly when the element count of the input is
    not a multiple of 3.  The two converters return on coordinate arrays
    of one length and also when the longitude (or [y]) array has length 1,
    which is broadcast; they fail when the latitude and longitude (or [x]
    and [y]) lengths differ and neither is 1. *)
Theorem shape_checks_are_those_of_the_arrays :
  (forall s rx ry rz t h X,
     HelmertTransform_init s rx ry rz t = Ok h ->
     (HelmertTransform_call h X = ValueError <-> (size X mod 3 <> 0)%nat))
  /\ (forall latitude longitude radians datum,
        (length longitude = length latitude \/ length longitude = 1%nat ->
         exists X, lat_long_to_xyz latitude longitude radians datum = Ok X
                   /\ shape X = [3%nat; length latitude])
        /\ (length latitude <> length longitude ->
            length latitude <> 1%nat -> length longitude <> 1%nat ->
            lat_long_to_xyz latitude longitude radians datum = ValueError))
  /\ (forall x y z radians datum,
        (length z = length x ->
         length y = length x \/ length y = 1%nat ->
         exists lat long,
           xyz_to_lat_long x y z radians datum = Ok (lat, long)
           /\ length lat = length x /\ length long = length x)
        /\ (length x <> length y ->
            length x <> 1%nat -> length y <> 1%nat ->
            xyz_to_lat_long x y z radians datum = ValueError)).
Proof.
  split; [|split].
  - intros s rx ry rz t h X Hh. split.
    + intros Herr Hmod.
      destruct (call_entries s rx ry rz t X h Hh Hmod) as (Y & HY & _).
      congruence.
    + apply call_refuses.
  - intros latitude longitude radians datum. split.
    + intros [Heq|H1].
      * rewrite lat_long_to_xyz_rows by lia. eauto.
      * destruct longitude as [|g [|g' longitude]]; try discriminate.
        apply lat_long_to_xyz_broadcast_longitude.
    + apply lat_long_to_xyz_mismatch.
  - intros x y z radians datum. split.
    + intros Hz [Heq|H1].
      * rewrite xyz_to_lat_long_same_length by assumption.
        destruct (nr_loop_returns datum z (horizontal x y) 6
                    (first_guess datum x y z)) as (out & -> & Hout);
          [unfold first_guess, horizontal; len
          |unfold first_guess, horizontal; len|].
        cbn [bind]. eexists. eexists. split; [reflexivity|].
        split; [|len].
        rewrite from_radians_length, Hout.
        unfold first_guess, horizontal; len.
      * destruct y as [|v [|v' y]]; try discriminate.
        now apply xyz_to_lat_long_broadcast_y.
    + apply xyz_to_lat_long_mismatch.
Qed.

Lemma shape_checks_are_those_of_the_arrays_witness :
  exists h,
    WGS84toOSGB36transform = Ok h
    /\ HelmertTransform_call h (mk_ndarray [2%nat] [1; 2]) = ValueError
    /\ lat_long_to_xyz [0; 0] [0; 0; 0] true osgb36 = ValueError.
Proof.
  destruct shape_checks_are_those_of_the_arrays as (Hcall & Hfwd & _).
  eexists. split; [reflexivity|]. split.
  - apply (Hcall 20.4894e-6 (- rad_dms 0 0 0.1502) (- rad_dms 0 0 0.2470)
             (- rad_dms 0 0 0.8421)
             (mk_ndarray [3%nat] [-446.448; 125.157; -542.060]) _
             (mk_ndarray [2%nat] [1; 2]) eq_refl).
    simpl. lia.
  - apply (Hfwd [0; 0] [0; 0; 0] true osgb36); simpl; lia.
Defined.

(** ** The first step of the WGS84 to OSGB36 wrapper *)

Lemma rad_0 : rad 0 = 0.
Proof. unfold rad, rad_dms. field. Qed.

Lemma closed_form_x_origin (datum : Ellipsoid) :
  closed_form_x datum 0 0 = a datum * F_0 datum + H datum.
Proof.
  unfold closed_form_x, closed_form_nu.
  rewrite sin_0, cos_0, Rsqr_0, Rmult_0_r, Rminus_0_r, sqrt_1. field.
Qed.

Lemma lat_long_to_xyz_origin (datum : Ellipsoid) :
  exists X,
    lat_long_to_xyz [0] [0] false datum = Ok X
    /\ entry X 0 0 = a datum * F_0 datum + H datum.
Proof.
  rewrite lat_long_to_xyz_rows by reflexivity.
  eexists. split; [reflexivity|].
  unfold entry, ncols. cbn. rewrite rad_0. apply closed_form_x_origin.
Qed.

(** C1.  The wrapper's first step evaluates [lat_long_to_xyz] on OSGB36,
    the default datum, for every input; at latitude 0, longitude 0 its x
    coordinate is a F_0 + H of OSGB36, which is not the value the WGS84
    ellipsoid gives. *)
Theorem WGS84toOSGB36_first_step_on_osgb36 :
  (forall latitude longitude radians,
     WGS84toOSGB36_xyz latitude longitude radians
     = lat_long_to_xyz latitude longitude radians osgb36)
  /\ exists X_code X_wgs84,
       WGS84toOSGB36_xyz [0] [0] false = Ok X_code
       /\ lat_long_to_xyz [0] [0] false wgs84 = Ok X_wgs84
       /\ entry X_code 0 0 = 6377563.396 * 0.9996012717 + 24.7
       /\ entry X_wgs84 0 0 = 6378137 * 0.9996
       /\ X_code <> X_wgs84.
Proof.
  split; [reflexivity|].
  destruct (lat_long_to_xyz_origin osgb36) as (Xc & HXc & Ec).
  destruct (lat_long_to_xyz_origin wgs84) as (Xw & HXw & Ew).
  assert (Vc : a osgb36 * F_0 osgb36 + H osgb36
               = 6377563.396 * 0.9996012717 + 24.7) by reflexivity.
  assert (Vw : a wgs84 * F_0 wgs84 + H wgs84 = 6378137 * 0.9996 + 0)
    by reflexivity.
  exists Xc, Xw.
  split; [exact HXc|]. split; [exact HXw|]. split; [|split].
  - now rewrite Ec, Vc.
  - rewrite Ew, Vw. lra.
  - intros ->. rewrite Ec, Vc, Vw in Ew. lra.
Qed.

(** ** The slope used by the Newton-Raphson step *)

Lemma osgb36_e2_bounds : 0 < e2 osgb36 < 1.
Proof. cbn. lra. Qed.

Lemma osgb36_scale : a osgb36 * F_0 osgb36 = 6377563.396 * 0.9996012717.
Proof. reflexivity. Qed.

Lemma nu_of_lower_bound (datum : Ellipsoid) (lat : R) :
  0 <= e2 datum < 1 -> 0 < a datum * F_0 datum ->
  a datum * F_0 datum <= nu_of datum lat.
Proof.
  intros [He0 He1] HaF. unfold nu_of.
  pose proof (curvature_arg_pos datum He1 lat) as Hu.
  assert (Hs : 0 < sqrt (1 - e2 datum * sin lat ^ 2))
    by now apply sqrt_lt_R0.
  assert (Hs1 : sqrt (1 - e2 datum * sin lat ^ 2) <= 1).
  { rewrite <- sqrt_1 at 2. apply sqrt_le_1; try lra.
    pose proof (pow2_ge_0 (sin lat)). nra. }
  set (s := sqrt (1 - e2 datum * sin lat ^ 2)) in *.
  assert (Hq : a datum * F_0 datum / s * s = a datum * F_0 datum)
    by (field; lra).
  assert (Hpos : 0 < a datum * F_0 datum / s)
    by (apply Rdiv_lt_0_compat; lra).
  nra.
Qed.


Lemma failing_first_guess :
  horizontal [3200000] [0] = [3200000]
  /\ first_guess osgb36 [3200000] [0]
       [3200000 * sqrt 3 * (1 - e2 osgb36)] = [PI / 3].
Proof.
  assert (Hp : sqrt (3200000 ^ 2 + 0 ^ 2) = 3200000).
  { replace (3200000 ^ 2 + 0 ^ 2) with (3200000 ^ 2) by ring.
    apply sqrt_pow2. lra. }
  split.
  - unfold horizontal. cbn [map2]. now rewrite Hp.
  - unfold first_guess, horizontal. cbn [map2 map]. rewrite Hp. f_equal.
    pose proof osgb36_e2_bounds as [_ He]. pose proof PI_RGT_0.
    rewrite <- (arctan2_polar (2 * 3200000 * (1 - e2 osgb36)) (PI / 3))
      by lra.
    rewrite sin_PI3, cos_PI3. f_equal; field.
Qed.

(** The slope of the claim is the derivative of the residual. *)

Lemma derivable_pt_lim_curvature_arg (datum : Ellipsoid) (lat : R) :
  derivable_pt_lim (fun t => 1 - e2 datum * sin t ^ 2) lat
    (- (2 * e2 datum * sin lat * cos lat)).
Proof.
  apply (derivable_pt_lim_ext
           (fct_cte 1 - mult_real_fct (e2 datum) (sin * sin))%F).
  - intros t. unfold minus_fct, fct_cte, mult_real_fct, mult_fct. ring.
  - replace (- (2 * e2 datum * sin lat * cos lat))
      with (0 - e2 datum * (cos lat * sin lat + sin lat * cos lat)) by ring.
    apply derivable_pt_lim_minus; [apply derivable_pt_lim_const|].
    apply derivable_pt_lim_scal.
    apply derivable_pt_lim_mult; apply derivable_pt_lim_sin.
Qed.

Lemma derivable_pt_lim_nu (datum : Ellipsoid) (lat : R) :
  e2 datum < 1 ->
  derivable_pt_lim (nu_of datum) lat (dnu_dlat datum lat).
Proof.
  intros He.
  pose proof (curvature_arg_pos datum He lat) as Hu.
  assert (Hs : 0 < sqrt (1 - e2 datum * sin lat ^ 2))
    by now apply sqrt_lt_R0.
  apply (derivable_pt_lim_ext
           (fct_cte (a datum * F_0 datum)
            / comp sqrt (fun t => (1 - e2 datum * sin t ^ 2)%R))%F).
  - intros t. reflexivity.
  - replace (dnu_dlat datum lat)
      with ((0 * comp sqrt (fun t => 1 - e2 datum * sin t ^ 2) lat
             - (/ (2 * sqrt (1 - e2 datum * sin lat ^ 2))
                * - (2 * e2 datum * sin lat * cos lat))
               * fct_cte (a datum * F_0 datum) lat)
            / (comp sqrt (fun t => 1 - e2 datum * sin t ^ 2) lat)²).
    + apply derivable_pt_lim_div.
      * apply derivable_pt_lim_const.
      * apply derivable_pt_lim_comp.
        -- apply derivable_pt_lim_curvature_arg.
        -- now apply derivable_pt_lim_sqrt.
      * unfold comp. lra.
    + unfold dnu_dlat, comp, fct_cte, Rsqr.
      set (s := sqrt (1 - e2 datum * sin lat ^ 2)) in *.
      assert (Hss : s * s = 1 - e2 datum * sin lat ^ 2)
        by (apply sqrt_sqrt; lra).
      rewrite <- Hss. field. lra.
Qed.

Lemma derivable_pt_lim_tan (lat : R) :
  cos lat <> 0 -> derivable_pt_lim tan lat (1 / cos lat ^ 2).
Proof.
  intros Hc.
  replace (1 / cos lat ^ 2)
    with ((cos lat * cos lat - - sin lat * sin lat) / (cos lat)²).
  - apply (derivable_pt_lim_div sin cos); auto.
    + apply derivable_pt_lim_sin.
    + apply derivable_pt_lim_cos.
  - pose proof (sin2_cos2 lat) as H1. unfold Rsqr in *.
    replace (cos lat * cos lat - - sin lat * sin lat) with 1 by nra.
    field. auto.
Qed.

Lemma derivable_pt_lim_f0 (datum : Ellipsoid) (z p lat : R) :
  e2 datum < 1 -> cos lat <> 0 ->
  derivable_pt_lim (f0_residual datum z p) lat (f1_derivative datum p lat).
Proof.
  intros He Hc. unfold f1_derivative.
  apply (derivable_pt_lim_ext
           (mult_real_fct (/ p)
              (fct_cte z + mult_real_fct (e2 datum) (nu_of datum * sin))
            - tan)%F).
  - intros t. unfold f0_residual, minus_fct, mult_real_fct, plus_fct,
      fct_cte, mult_fct. unfold Rdiv. ring.
  - replace (e2 datum * (dnu_dlat datum lat * sin lat
                         + nu_of datum lat * cos lat) / p)
      with (/ p * (0 + e2 datum * (dnu_dlat datum lat * sin lat
                                   + nu_of datum lat * cos lat)))
      by (unfold Rdiv; ring).
    apply derivable_pt_lim_minus; [|now apply derivable_pt_lim_tan].
    apply derivable_pt_lim_scal.
    apply derivable_pt_lim_plus; [apply derivable_pt_lim_const|].
    apply derivable_pt_lim_scal.
    apply derivable_pt_lim_mult.
    + now apply derivable_pt_lim_nu.
    + apply derivable_pt_lim_sin.
Qed.

Lemma sin_PI3_pos : 0 < sin (PI / 3).
Proof. rewrite sin_PI3. pose proof (sqrt_lt_R0 3). lra. Qed.

Lemma dnu_of_negative : dnu_of osgb36 (PI / 3) < 0.
Proof.
  unfold dnu_of. pose proof sin_PI3_pos as Hs.
  assert (HaF : 0 < a osgb36 * F_0 osgb36) by (rewrite osgb36_scale; lra).
  assert (HP : 0 < / Rpower (1 - e2 osgb36 * sin (PI / 3) ^ 2) 1.5).
  { apply Rinv_0_lt_compat. unfold Rpower. apply exp_pos. }
  rewrite cos_PI3. unfold Rdiv.
  set (k := a osgb36 * F_0 osgb36) in *.
  replace (- a osgb36 * F_0 osgb36) with (- k) by (unfold k; ring).
  assert (- k * (1 * / 2) * sin (PI / 3) < 0) by nra.
  nra.
Qed.

Lemma dnu_dlat_positive : 0 < dnu_dlat osgb36 (PI / 3).
Proof.
  unfold dnu_dlat. pose proof sin_PI3_pos as Hs.
  pose proof osgb36_e2_bounds as [He0 He1].
  assert (HaF : 0 < a osgb36 * F_0 osgb36) by (rewrite osgb36_scale; lra).
  pose proof (curvature_arg_pos osgb36 He1 (PI / 3)) as Hu.
  assert (Hq : 0 < sqrt (1 - e2 osgb36 * sin (PI / 3) ^ 2))
    by now apply sqrt_lt_R0.
  rewrite cos_PI3.
  apply Rdiv_lt_0_compat; [|nra].
  set (k := a osgb36 * F_0 osgb36) in *.
  assert (0 < k * e2 osgb36) by nra.
  assert (0 < k * e2 osgb36 * sin (PI / 3)) by nra.
  nra.
Qed.

(** C2.  The slope of the claim,
    e2 (dnu sin(lat) + nu cos(lat)) / p - 1 / cos(lat)^2 with dnu the
    derivative of nu, is the derivative of the residual f0.  For the point
    x = 3200000, y = 0, z = 3200000 sqrt(3) (1 - e2) on OSGB36 (first
    guess PI/3) the slope [f1] the first pass computes is another number:
    it has the power nu ** cos(lat) = sqrt(nu) where the derivative has
    the product nu cos(lat) = nu / 2, and its [dnu] is negative where the
    derivative of nu is positive.  The update itself is lat - f0 / f1. *)
Theorem newton_slope_is_not_the_derivative :
  let p := 3200000 in
  let z := 3200000 * sqrt 3 * (1 - e2 osgb36) in
  derivable_pt_lim (f0_residual osgb36 z p) (PI / 3)
                   (f1_derivative osgb36 p (PI / 3))
  /\ horizontal [3200000] [0] = [p]
  /\ first_guess osgb36 [3200000] [0] [z] = [PI / 3]
  /\ nr_f1 osgb36 [p] [PI / 3]
     = Ok [e2 osgb36 * (sqrt (nu_of osgb36 (PI / 3))
                        + dnu_of osgb36 (PI / 3) * sin (PI / 3)) / p
           - 1 / (1 / 2) ^ 2]
  /\ nr_f1 osgb36 [p] [PI / 3] = Ok [f1_code osgb36 p (PI / 3)]
  /\ f1_code osgb36 p (PI / 3) < f1_derivative osgb36 p (PI / 3)
  /\ sqrt (nu_of osgb36 (PI / 3)) < nu_of osgb36 (PI / 3) * cos (PI / 3)
  /\ dnu_of osgb36 (PI / 3) < 0 < dnu_dlat osgb36 (PI / 3)
  /\ nr_step osgb36 [z] [p] [PI / 3]
     = Ok [PI / 3 - f0_residual osgb36 z p (PI / 3)
                    / f1_code osgb36 p (PI / 3)].
Proof.
  intros p z.
  destruct failing_first_guess as [Hh Hg].
  pose proof osgb36_e2_bounds as [He0 He1].
  pose proof sin_PI3_pos as Hs.
  pose proof dnu_of_negative as Hdc.
  pose proof dnu_dlat_positive as Hdt.
  assert (HaF : 0 < a osgb36 * F_0 osgb36) by (rewrite osgb36_scale; lra).
  assert (Hnu : 4 < nu_of osgb36 (PI / 3)).
  { pose proof (nu_of_lower_bound osgb36 (PI / 3)
                  (conj (Rlt_le _ _ He0) He1) HaF) as Hlb.
    rewrite osgb36_scale in Hlb. lra. }
  assert (Hsq : sqrt (nu_of osgb36 (PI / 3))
                < nu_of osgb36 (PI / 3) * (1 / 2)).
  { assert (Hss : sqrt (nu_of osgb36 (PI / 3))
                  * sqrt (nu_of osgb36 (PI / 3)) = nu_of osgb36 (PI / 3))
      by (apply sqrt_sqrt; lra).
    assert (Hs2 : 2 < sqrt (nu_of osgb36 (PI / 3))).
    { replace 2 with (sqrt 4)
        by (replace 4 with (2 * 2) by ring; apply sqrt_square; lra).
      apply sqrt_lt_1; lra. }
    nra. }
  assert (Hpow : Rpower (nu_of osgb36 (PI / 3)) (cos (PI / 3))
                 = sqrt (nu_of osgb36 (PI / 3))).
  { rewrite cos_PI3. replace (1 / 2) with (/ 2) by field.
    apply Rpower_sqrt. lra. }
  assert (Hcode : f1_code osgb36 p (PI / 3)
                  = e2 osgb36 * (sqrt (nu_of osgb36 (PI / 3))
                                 + dnu_of osgb36 (PI / 3) * sin (PI / 3)) / p
                    - 1 / (1 / 2) ^ 2).
  { unfold f1_code, f1_numerator. rewrite Hpow, cos_PI3.
    replace 1.0 with 1 by lra. reflexivity. }
  assert (Hf1 : nr_f1 osgb36 [p] [PI / 3] = Ok [f1_code osgb36 p (PI / 3)]).
  { destruct (nr_f1_pointwise osgb36 [p] [PI / 3] eq_refl)
      as (f1 & -> & Hl & Hf1).
    destruct f1 as [|v [|w f1]]; try discriminate.
    specialize (Hf1 0%nat (Nat.lt_0_1)). cbn [nth] in Hf1.
    now rewrite Hf1. }
  split; [|split; [exact Hh|split; [exact Hg|]]].
  { apply derivable_pt_lim_f0; [assumption|]. rewrite cos_PI3. lra. }
  split; [now rewrite Hf1, Hcode|]. split; [exact Hf1|].
  split; [|split; [|split]].
  - rewrite Hcode. unfold f1_derivative. rewrite cos_PI3.
    assert (Hp : p = 3200000) by reflexivity.
    set (dc := dnu_of osgb36 (PI / 3)) in *.
    set (dt := dnu_dlat osgb36 (PI / 3)) in *.
    set (v := nu_of osgb36 (PI / 3)) in *.
    set (q := sqrt v) in *.
    set (s := sin (PI / 3)) in *.
    assert (Hnum : e2 osgb36 * (q + dc * s)
                   < e2 osgb36 * (dt * s + v * (1 / 2))).
    { apply Rmult_lt_compat_l; [assumption|]. nra. }
    assert (Hinv : 0 < / p) by (apply Rinv_0_lt_compat; lra).
    unfold Rdiv at 1 3. nra.
  - rewrite cos_PI3. exact Hsq.
  - split; assumption.
  - destruct (nr_step_pointwise osgb36 [z] [p] [PI / 3] eq_refl eq_refl)
      as (out & -> & Hl & Hout).
    destruct out as [|v [|w out]]; try discriminate.
    specialize (Hout 0%nat (Nat.lt_0_1)). cbn [nth] in Hout.
    now rewrite Hout.
Qed.

(** ** Degrees, minutes and seconds *)

Lemma floor_bounds (x : R) : floor x <= x < floor x + 1.
Proof. unfold floor. pose proof (base_Int_part x). lra. Qed.

Lemma mod1_bounds (x : R) : 0 <= mod1 x < 1.
Proof. unfold mod1. pose proof (floor_bounds x). lra. Qed.

Lemma floor_nonneg (x : R) : 0 <= x -> 0 <= floor x.
Proof.
  intros Hx. unfold floor. apply IZR_le.
  pose proof (base_Int_part x) as [_ Hb].
  assert (Hlt : -1 < IZR (Int_part x)) by lra.
  apply lt_IZR in Hlt. lia.
Qed.

Lemma rint_error (v : R) : - (1 / 2) <= rint v - v <= 1 / 2.
Proof.
  unfold rint. pose proof (base_Int_part v) as [Hlo Hhi].
  destruct (Rlt_dec (v - IZR (Int_part v)) (1 / 2)); [lra|].
  destruct (Rlt_dec (1 / 2) (v - IZR (Int_part v))); [lra|].
  destruct (Z.even (Int_part v)); lra.
Qed.

Lemma rint_nonneg (v : R) : 0 <= v -> 0 <= rint v.
Proof.
  intros Hv. pose proof (floor_nonneg v Hv) as Hf. unfold floor in Hf.
  unfold rint.
  destruct (Rlt_dec (v - IZR (Int_part v)) (1 / 2)); [assumption|].
  destruct (Rlt_dec (1 / 2) (v - IZR (Int_part v))); [lra|].
  destruct (Z.even (Int_part v)); lra.
Qed.

Lemma round_4_error (v : R) : - 0.00005 <= round v 4 - v <= 0.00005.
Proof.
  unfold round. pose proof (rint_error (v * 10 ^ 4)) as He.
  assert (H10 : 10 ^ 4 = 10000) by (simpl; lra).
  rewrite H10 in *. lra.
Qed.

Lemma round_4_nonneg (v : R) : 0 <= v -> 0 <= round v 4.
Proof.
  intros Hv. unfold round.
  assert (H10 : 10 ^ 4 = 10000) by (simpl; lra).
  rewrite H10.
  assert (0 <= rint (v * 10000)) by (apply rint_nonneg; lra).
  lra.
Qed.

Lemma floor_of_negative_fraction (x : R) :
  x < 0 -> x <> trunc x -> floor x = trunc x - 1.
Proof.
  intros Hneg Hfrac. unfold trunc in *.
  destruct (Rle_dec 0 x); [lra|].
  unfold floor in *.
  pose proof (base_Int_part x) as [Hx1 Hx2].
  pose proof (base_Int_part (- x)) as [Hn1 Hn2].
  assert (Hlt : IZR (- Int_part (- x) - 1) < IZR (Int_part x) + 1).
  { rewrite minus_IZR, opp_IZR. lra. }
  assert (Hgt : IZR (Int_part x) < IZR (- Int_part (- x))).
  { rewrite opp_IZR. lra. }
  rewrite <- plus_IZR in Hlt. apply lt_IZR in Hlt, Hgt.
  rewrite <- opp_IZR, <- minus_IZR. f_equal. lia.
Qed.

(** C10.  [deg(x, dms=True)] reconstructs its input for every [x], the
    negative ones included: with (d, m, s) the result,
    d + m/60 + s/3600 is x 180/PI up to the rounding of [s] to 4 decimals
    (at most 0.00005 seconds); d is the floor of x 180/PI, one below the
    integer part when that angle is negative and not an integer; m and s
    are never negative. *)
Theorem deg_dms_reconstructs (x : R) :
  let D := x * (180 / PI) in
  let '(d, m, s) := deg_dms x in
  Rabs (d + m / 60 + s / 3600 - D) <= 0.00005 / 3600
  /\ d = floor D
  /\ 0 <= m < 60
  /\ 0 <= s
  /\ (D < 0 -> D <> trunc D -> d = trunc D - 1).
Proof.
  intros D. unfold deg_dms. fold D.
  set (m := 60 * mod1 D).
  pose proof (mod1_bounds D) as HD.
  pose proof (mod1_bounds m) as Hm.
  pose proof (floor_bounds m) as Hfm.
  assert (Hm0 : 0 <= m) by (unfold m; lra).
  pose proof (floor_nonneg m Hm0) as Hfm0.
  pose proof (round_4_error (60 * mod1 m)) as Hr.
  repeat split.
  - apply Rabs_le.
    assert (Hexact : floor D + floor m / 60 + 60 * mod1 m / 3600 = D).
    { unfold mod1 at 1. unfold m at 2. unfold mod1. field. }
    split; lra.
  - assumption.
  - assert (Hm60 : m < 60) by (unfold m; lra). lra.
  - apply round_4_nonneg. lra.
  - apply floor_of_negative_fraction.
Qed.

Lemma deg_dms_reconstructs_witness :
  fst (fst (deg_dms (- (PI / 360))))
  = trunc (- (PI / 360) * (180 / PI)) - 1.
Proof.
  pose proof (deg_dms_reconstructs (- (PI / 360))) as Hthm.
  cbv zeta in Hthm. unfold deg_dms in *.
  destruct Hthm as (_ & _ & _ & _ & Hneg). cbn [fst].
  assert (HD : - (PI / 360) * (180 / PI) = - (1 / 2))
    by (field; apply PI_neq0).
  apply Hneg; rewrite HD.
  - lra.
  - unfold trunc. destruct (Rle_dec 0 (- (1 / 2))); [lra|].
    unfold floor. replace (- - (1 / 2)) with (1 / 2) by lra.
    rewrite <- (Int_part_spec (1 / 2) 0); simpl; lra.
Defined.

(** ** National grid projection *)

Lemma Rpower_three_halves (u : R) : 0 < u -> Rpower u (3 / 2) = u * sqrt u.
Proof.
  intros Hu. replace (3 / 2) with (1 + / 2) by field.
  now rewrite Rpower_plus, Rpower_1, Rpower_sqrt.
Qed.

Lemma grid_nu_over_rho (lat : R) :
  grid_nu lat / grid_rho lat
  = (1 - e2 osgb36 * sin lat ^ 2) / (1 - e2 osgb36).
Proof.
  pose proof osgb36_e2_bounds as [He0 He1].
  pose proof (curvature_arg_pos osgb36 He1 lat) as Hu.
  assert (HaF : 0 < a osgb36 * F_0 osgb36) by (rewrite osgb36_scale; lra).
  unfold grid_nu, grid_rho.
  rewrite Rpower_three_halves by assumption.
  assert (Hs : 0 < sqrt (1 - e2 osgb36 * sin lat ^ 2))
    by now apply sqrt_lt_R0.
  set (u := 1 - e2 osgb36 * sin lat ^ 2) in *.
  set (k := a osgb36 * F_0 osgb36) in *.
  field. repeat split; lra.
Qed.

Lemma grid_heta_sq (lat : R) : grid_heta lat ^ 2 = tm_eta2 lat.
Proof.
  assert (Hrho : grid_rho lat = tm_rho lat).
  { unfold grid_rho, tm_rho. do 2 f_equal. lra. }
  unfold grid_heta, tm_eta2. rewrite <- Hrho.
  change (tm_nu lat) with (grid_nu lat).
  apply pow2_sqrt. rewrite grid_nu_over_rho.
  pose proof osgb36_e2_bounds as [He0 He1].
  assert (Hs : 0 <= sin lat ^ 2 <= 1).
  { pose proof (SIN_bound lat). nra. }
  replace ((1 - e2 osgb36 * sin lat ^ 2) / (1 - e2 osgb36) - 1)
    with (e2 osgb36 * (1 - sin lat ^ 2) * / (1 - e2 osgb36))
    by (field; lra).
  apply Rmult_le_pos; [nra|].
  left. apply Rinv_0_lt_compat. lra.
Qed.

Lemma easting_of_eq (lat long : R) : easting_of lat long = tm_easting lat long.
Proof.
  assert (Hrho : grid_rho lat = tm_rho lat).
  { unfold grid_rho, tm_rho. do 2 f_equal. lra. }
  unfold easting_of, tm_easting, grid_IV, grid_V, grid_VI,
    tm_IV, tm_V, tm_VI.
  rewrite !grid_heta_sq, Hrho.
  change (grid_nu lat) with (tm_nu lat). cbv zeta. ring.
Qed.

Lemma northing_of_eq (lat long : R) :
  northing_of lat long = tm_northing lat long.
Proof.
  unfold northing_of, tm_northing, grid_I, grid_II, grid_III, grid_IIIA,
    tm_I, tm_II, tm_III, tm_IIIA, grid_M, tm_arc.
  rewrite !grid_heta_sq.
  change (grid_nu lat) with (tm_nu lat). cbv zeta. ring.
Qed.

Lemma bop_ext (f g : R -> R -> R) (x y : arr) :
  (forall u v, f u v = g u v) -> bop f x y = bop g x y.
Proof.
  intros Hfg. unfold bop.
  destruct (broadcast_to _ x) as [x'|]; cbn [bind]; [|reflexivity].
  destruct (broadcast_to _ y) as [y'|]; cbn [bind]; [|reflexivity].
  f_equal. now apply map2_ext.
Qed.

Lemma row_length (X : ndarray) (N i : nat) :
  shape X = [3%nat; N] -> length (data X) = (3 * N)%nat -> (i < 3)%nat ->
  length (row i X) = N.
Proof.
  intros Hs Hl Hi. unfold row, ncols. rewrite Hs. cbn [nth].
  rewrite length_firstn, length_skipn, Hl. nia.
Qed.

(** The wrapper returns on arrays of one length, with latitudes and
    longitudes of that length. *)
Lemma WGS84toOSGB36_returns (latitude longitude : arr) (radians : bool) :
  length latitude = length longitude ->
  exists lat long,
    WGS84toOSGB36 latitude longitude radians = Ok (lat, long)
    /\ length lat = length latitude /\ length long = length latitude.
Proof.
  intros Hlen. unfold WGS84toOSGB36, WGS84toOSGB36_xyz.
  rewrite lat_long_to_xyz_rows by assumption. cbn [bind].
  set (X := mk_ndarray _ _).
  assert (HsX : shape X = [3%nat; length latitude]) by reflexivity.
  destruct (size_3_by _ X HsX) as [Hmod Hdiv].
  assert (Hh : exists h, WGS84toOSGB36transform = Ok h)
    by (eexists; reflexivity).
  destruct Hh as [h Hh]. rewrite Hh. cbn [bind].
  destruct (call_entries 20.4894e-6 (- rad_dms 0 0 0.1502)
              (- rad_dms 0 0 0.2470) (- rad_dms 0 0 0.8421)
              (mk_ndarray [3%nat] [-446.448; 125.157; -542.060])
              X h Hh Hmod) as (Y & -> & HsY & HlY & _).
  rewrite Hdiv in HsY, HlY. cbn [bind].
  pose proof (row_length Y _ 0 HsY HlY) as L0.
  pose proof (row_length Y _ 1 HsY HlY) as L1.
  pose proof (row_length Y _ 2 HsY HlY) as L2.
  rewrite xyz_to_lat_long_same_length by lia.
  destruct (nr_loop_returns osgb36 (row 2 Y)
              (horizontal (row 0 Y) (row 1 Y)) 6
              (first_guess osgb36 (row 0 Y) (row 1 Y) (row 2 Y)))
    as (out & -> & Hout);
    [unfold first_guess, horizontal; len
    |unfold first_guess, horizontal; len|].
  cbn [bind]. eexists. eexists. split; [reflexivity|]. split.
  - rewrite from_radians_length, Hout.
    unfold first_guess, horizontal; len.
  - len.
Qed.

(** C6.  On latitude and longitude arrays of one length,
    [get_easting_northing_from_lat_long] first runs the WGS84 to OSGB36
    composition (in radians) and then returns, elementwise on its result
    (lat, long), easting = E_0 + IV dL + V dL^3 + VI dL^5 and
    northing = I + II dL^2 + III dL^4 + IIIA dL^6 with dL = long - lam_0,
    I = N_0 + b F_0 (four-term meridional arc),
    rho = a F_0 (1-e2) / (1 - e2 sin(lat)^2)^1.5 and eta^2 = nu/rho - 1,
    all on the OSGB36 parameters. *)
Theorem grid_projection_series (latitude longitude : arr) (radians : bool) :
  length latitude = length longitude ->
  exists lat long,
    WGS84toOSGB36 (to_radians radians latitude)
                  (to_radians radians longitude) true = Ok (lat, long)
    /\ length lat = length latitude /\ length long = length latitude
    /\ get_easting_northing_from_lat_long latitude longitude radians
       = Ok (map2 tm_easting lat long, map2 tm_northing lat long).
Proof.
  intros Hlen.
  destruct (WGS84toOSGB36_returns (to_radians radians latitude)
              (to_radians radians longitude) true)
    as (lat & long & Hw & Hl1 & Hl2); [len|].
  rewrite to_radians_length in Hl1, Hl2.
  exists lat, long. split; [exact Hw|]. split; [exact Hl1|].
  split; [exact Hl2|].
  unfold get_easting_northing_from_lat_long. rewrite Hw. cbn [bind].
  rewrite (bop_ext easting_of tm_easting) by apply easting_of_eq.
  rewrite (bop_ext northing_of tm_northing) by apply northing_of_eq.
  rewrite !bop_same_length by lia. reflexivity.
Qed.

Lemma grid_projection_series_witness :
  exists lat long,
    WGS84toOSGB36 (map rad [51.5]) (map rad [-0.1]) true = Ok (lat, long)
    /\ get_easting_northing_from_lat_long [51.5] [-0.1] false
       = Ok (map2 tm_easting lat long, map2 tm_northing lat long).
Proof.
  destruct (grid_projection_series [51.5] [-0.1] false eq_refl)
    as (lat & long & Hw & _ & _ & He).
  exists lat, long. split; [exact Hw | exact He].
Defined.

(** ** Round trip on geodetic ellipsoids *)










(** *** A small ellipsoid on which the round trip fails *)






(** * Further properties of the geodetic functions *)

(** ** Angles *)

(** X1.  [deg] and [rad] are inverse to each other, and [deg] of
    [rad(d, m, s)] is d + m/60 + s/3600 degrees. *)
Theorem angle_conversions_invert :
  (forall x, deg (rad x) = x)
  /\ (forall x, rad (deg x) = x)
  /\ (forall d m s, deg (rad_dms d m s) = d + m / 60 + s / 3600).
Proof.
  repeat split.
  - apply deg_rad.
  - apply rad_deg.
  - intros d m s. unfold deg, rad_dms. pose proof PI_RGT_0. field. lra.
Qed.

Lemma dms_sum_error (D : R) :
  let m := 60 * mod1 D in
  - (0.00005 / 3600)
  <= floor D + floor m / 60 + round (60 * mod1 m) 4 / 3600 - D
  <= 0.00005 / 3600.
Proof.
  intros m.
  pose proof (round_4_error (60 * mod1 m)) as Hr.
  assert (Hexact : floor D + floor m / 60 + 60 * mod1 m / 3600 = D).
  { unfold mod1 at 1. unfold m at 2. unfold mod1. field. }
  split; lra.
Qed.

(** X2.  Feeding the degrees, minutes and seconds of [deg(x, dms=True)]
    back into [rad] returns [x] up to the rounding of the seconds:
    the difference is at most 0.00005 arc seconds, in radians. *)
Theorem rad_of_deg_dms (x : R) :
  let '(d, m, s) := deg_dms x in
  Rabs (rad_dms d m s - x) <= 0.00005 / 3600 * (PI / 180).
Proof.
  unfold deg_dms.
  pose proof (dms_sum_error (x * (180 / PI))) as He. cbv zeta in He.
  pose proof PI_RGT_0 as HPI.
  assert (Hx : x * (180 / PI) * (PI / 180) = x) by (field; lra).
  unfold rad_dms. apply Rabs_le.
  set (A := floor (x * (180 / PI))
            + floor (60 * mod1 (x * (180 / PI))) / 60
            + round (60 * mod1 (60 * mod1 (x * (180 / PI)))) 4 / 3600) in *.
  set (D := x * (180 / PI)) in *.
  assert (Hk : 0 < PI / 180) by lra.
  set (k := PI / 180) in *.
  assert (Hlo : - (0.00005 / 3600) * k <= (A - D) * k)
    by (apply Rmult_le_compat_r; lra).
  assert (Hhi : (A - D) * k <= 0.00005 / 3600 * k)
    by (apply Rmult_le_compat_r; lra).
  split; lra.
Qed.

(** ** Ellipsoid parameters *)

(** X3.  For semi-axes 0 < b <= a the constructor derives an eccentricity
    squared in [0, 1) and a flattening ratio n in [0, 1); they are tied by
    e2 = 4 n / (1 + n)^2, and 1 - e2 = (b/a)^2.  The height offset of a
    plain ellipsoid is 0. *)
Theorem ellipsoid_derived_parameters (a b F_0 : R) :
  0 < b <= a ->
  let e := Ellipsoid_init a b F_0 in
  0 <= e2 e < 1
  /\ 0 <= n e < 1
  /\ e2 e = 4 * n e / (1 + n e) ^ 2
  /\ 1 - e2 e = (b / a) ^ 2
  /\ H e = 0.
Proof.
  intros [Hb Hab] e. unfold e, Ellipsoid_init. cbn [e2 n H].
  assert (Ha : 0 < a) by lra.
  assert (Ha2 : 0 < a ^ 2) by nra.
  assert (Hs : 0 < a + b) by lra.
  repeat split.
  - apply Rmult_le_pos; [nra | left; now apply Rinv_0_lt_compat].
  - apply Rmult_lt_reg_r with (a ^ 2); [assumption|].
    unfold Rdiv. rewrite Rmult_assoc, Rinv_l by lra. nra.
  - apply Rmult_le_pos; [lra | left; now apply Rinv_0_lt_compat].
  - apply Rmult_lt_reg_r with (a + b); [assumption|].
    unfold Rdiv. rewrite Rmult_assoc, Rinv_l by lra. lra.
  - field. repeat split; lra.
  - field. lra.
Qed.

Lemma ellipsoid_derived_parameters_witness :
  0 <= e2 wgs84 < 1 /\ 0 <= n wgs84 < 1.
Proof.
  destruct (ellipsoid_derived_parameters 6378137 6356752.3142 0.9996)
    as (He & Hn & _); [lra|].
  split; assumption.
Defined.

(** ** Points produced by [lat_long_to_xyz] *)

Lemma lat_long_to_xyz_entries (latitude longitude : arr) (radians : bool)
  (datum : Ellipsoid) :
  length latitude = length longitude ->
  exists X,
    lat_long_to_xyz latitude longitude radians datum = Ok X
    /\ shape X = [3%nat; length latitude]
    /\ forall i, (i < length latitude)%nat ->
       let lat := nth i (to_radians radians latitude) 0 in
       let long := nth i (to_radians radians longitude) 0 in
       entry X 0 i = closed_form_x datum lat long
       /\ entry X 1 i = closed_form_y datum lat long
       /\ entry X 2 i = closed_form_z datum lat.
Proof.
  intros Hlen. rewrite lat_long_to_xyz_rows by assumption.
  eexists; split; [reflexivity|]. split; [reflexivity|].
  intros i Hi lat long.
  destruct (entry_of_rows
              (map2 (closed_form_x datum) (to_radians radians latitude)
                    (to_radians radians longitude))
              (map2 (closed_form_y datum) (to_radians radians latitude)
                    (to_radians radians longitude))
              (map (closed_form_z datum) (to_radians radians latitude))
              (length latitude) i) as (E0 & E1 & E2); try len.
  rewrite E0, E1, E2. rewrite !map2_nth, map_nth0 by len.
  repeat split.
Qed.

Lemma on_the_ellipsoid (ra rb rF lat long : R) :
  0 < ra -> 0 < rb -> 0 < rF ->
  let d := Ellipsoid_init ra rb rF in
  (closed_form_x d lat long ^ 2 + closed_form_y d lat long ^ 2)
  / (ra * rF) ^ 2
  + closed_form_z d lat ^ 2 / (rb * rF) ^ 2 = 1.
Proof.
  intros Ha Hb HF d.
  assert (He : e2 d < 1).
  { unfold d, Ellipsoid_init. cbn [e2].
    apply Rmult_lt_reg_r with (ra ^ 2); [nra|].
    unfold Rdiv. rewrite Rmult_assoc, Rinv_l by nra. nra. }
  pose proof (curvature_arg_pos d He lat) as Hu.
  assert (Hq : 0 < sqrt (1 - e2 d * sin lat ^ 2)) by now apply sqrt_lt_R0.
  assert (Hqq : sqrt (1 - e2 d * sin lat ^ 2)
                * sqrt (1 - e2 d * sin lat ^ 2) = 1 - e2 d * sin lat ^ 2)
    by (apply sqrt_sqrt; lra).
  assert (He2 : 1 - e2 d = rb ^ 2 / ra ^ 2).
  { unfold d, Ellipsoid_init. cbn [e2]. field. lra. }
  pose proof (sin2_cos2 lat) as Hlat. pose proof (sin2_cos2 long) as Hlong.
  unfold Rsqr in Hlat, Hlong.
  unfold closed_form_x, closed_form_y, closed_form_z, closed_form_nu.
  rewrite Rsqr_pow2.
  change (H d) with 0. change (a d) with ra. change (F_0 d) with rF.
  set (q := sqrt (1 - e2 d * sin lat ^ 2)) in *.
  replace ((1 - e2 d) * (ra * rF / q) + 0)
    with (rb ^ 2 / ra ^ 2 * (ra * rF / q)) by (rewrite <- He2; ring).
  replace (((ra * rF / q + 0) * cos lat * cos long) ^ 2
           + ((ra * rF / q + 0) * cos lat * sin long) ^ 2)
    with ((ra * rF / q) ^ 2 * (cos lat * cos lat)
          * (sin long * sin long + cos long * cos long)) by ring.
  rewrite Hlong.
  replace ((ra * rF / q) ^ 2 * (cos lat * cos lat) * 1 / (ra * rF) ^ 2
           + (rb ^ 2 / ra ^ 2 * (ra * rF / q) * sin lat) ^ 2
             / (rb * rF) ^ 2)
    with ((cos lat * cos lat + rb ^ 2 / ra ^ 2 * (sin lat * sin lat))
          / (q * q)) by (field; repeat split; lra).
  rewrite Hqq, <- He2.
  replace (cos lat * cos lat) with (1 - sin lat * sin lat) by lra.
  field. lra.
Qed.

(** X4.  On an ellipsoid built from semi-axes a, b and scale factor F_0,
    all positive, every point returned by [lat_long_to_xyz] lies on the
    ellipsoid scaled by F_0:
    (x^2 + y^2) / (a F_0)^2 + z^2 / (b F_0)^2 = 1. *)
Theorem lat_long_to_xyz_on_ellipsoid (a b F_0 : R) (latitude longitude : arr)
  (radians : bool) :
  0 < a -> 0 < b -> 0 < F_0 -> length latitude = length longitude ->
  exists X,
    lat_long_to_xyz latitude longitude radians (Ellipsoid_init a b F_0)
    = Ok X
    /\ forall i, (i < length latitude)%nat ->
       (entry X 0 i ^ 2 + entry X 1 i ^ 2) / (a * F_0) ^ 2
       + entry X 2 i ^ 2 / (b * F_0) ^ 2 = 1.
Proof.
  intros Ha Hb HF Hlen.
  destruct (lat_long_to_xyz_entries latitude longitude radians
              (Ellipsoid_init a b F_0) Hlen) as (X & HX & _ & Hent).
  exists X. split; [exact HX|].
  intros i Hi. destruct (Hent i Hi) as (-> & -> & ->).
  now apply on_the_ellipsoid.
Qed.

Lemma lat_long_to_xyz_on_ellipsoid_witness :
  exists X,
    lat_long_to_xyz [51.5] [-0.1] false wgs84 = Ok X
    /\ (entry X 0 0 ^ 2 + entry X 1 0 ^ 2) / (6378137 * 0.9996) ^ 2
       + entry X 2 0 ^ 2 / (6356752.3142 * 0.9996) ^ 2 = 1.
Proof.
  destruct (lat_long_to_xyz_on_ellipsoid 6378137 6356752.3142 0.9996
              [51.5] [-0.1] false) as (X & HX & Hon); try lra; auto.
  exists X. split; [exact HX|]. apply (Hon 0%nat). simpl. lia.
Defined.

(** ** Range of the returned longitude *)

Lemma arctan2_range (y x : R) : - PI < arctan2 y x <= PI.
Proof.
  pose proof PI_RGT_0 as HPI. pose proof (atan_bound (y / x)) as Hb.
  unfold arctan2.
  destruct (Rlt_dec 0 x); [lra|].
  destruct (Rlt_dec x 0) as [Hx|Hx].
  - assert (Hi : / x < 0) by now apply Rinv_lt_0_compat.
    destruct (Rle_dec 0 y) as [Hy|Hy].
    + assert (Hq : y / x <= 0) by (unfold Rdiv; nra).
      assert (Ha : atan (y / x) <= 0).
      { destruct Hq as [Hq|Hq].
        - left. rewrite <- atan_0. now apply atan_increasing.
        - rewrite Hq, atan_0. lra. }
      lra.
    + assert (Hq : 0 < y / x) by (unfold Rdiv; nra).
      assert (Ha : 0 < atan (y / x)).
      { rewrite <- atan_0. now apply atan_increasing. }
      lra.
  - destruct (Rlt_dec 0 y); [lra|]. destruct (Rlt_dec y 0); lra.
Qed.

Lemma map2_Forall (f : R -> R -> R) (P : R -> Prop) (xs ys : arr) :
  (forall u v, P (f u v)) -> Forall P (map2 f xs ys).
Proof.
  intros HP. revert ys. induction xs as [|x xs IH]; intros [|y ys]; simpl;
    constructor; auto.
Qed.

Lemma bop_Forall (f : R -> R -> R) (P : R -> Prop) (x y r : arr) :
  (forall u v, P (f u v)) -> bop f x y = Ok r -> Forall P r.
Proof.
  intros HP. unfold bop.
  destruct (broadcast_to _ x) as [x'|]; cbn [bind]; [|discriminate].
  destruct (broadcast_to _ y) as [y'|]; cbn [bind]; [|discriminate].
  intros [= <-]. now apply map2_Forall.
Qed.

Lemma deg_range (g : R) : - PI < g <= PI -> -180 < deg g <= 180.
Proof.
  intros [Hlo Hhi]. unfold deg. pose proof PI_RGT_0 as HPI.
  assert (Hk : 180 / PI * PI = 180) by (field; lra).
  assert (Hp : 0 < 180 / PI) by (apply Rdiv_lt_0_compat; lra).
  split; nra.
Qed.

(** X5.  Whenever [xyz_to_lat_long] returns, every longitude it returns is
    between -PI and PI in radians mode and between -180 and 180 in degrees
    mode, both ends included, whatever the coordinates and the datum. *)
Theorem xyz_to_lat_long_longitude_range (x y z : arr) (radians : bool)
  (datum : Ellipsoid) (lat long : arr) :
  xyz_to_lat_long x y z radians datum = Ok (lat, long) ->
  Forall (fun g => if radians then - PI <= g <= PI else -180 <= g <= 180)
         long.
Proof.
  unfold xyz_to_lat_long.
  destruct (bop Rplus _ _) as [x2y2|]; cbn [bind]; [|discriminate].
  destruct (bop arctan2 y x) as [lon|] eqn:Hlon; cbn [bind];
    [|discriminate].
  destruct (bop arctan2 z _) as [lat0|]; cbn [bind]; [|discriminate].
  destruct (for_range 6 _ lat0) as [l|]; cbn [bind]; [|discriminate].
  intros [= _ <-].
  pose proof (bop_Forall arctan2 (fun g => - PI < g <= PI) y x lon
                arctan2_range Hlon) as Hr.
  destruct radians; cbn [from_radians].
  - revert Hr. apply Forall_impl. intros g Hg. lra.
  - rewrite Forall_map. revert Hr. apply Forall_impl. intros g Hg.
    pose proof (deg_range g Hg). lra.
Qed.

Lemma xyz_to_lat_long_longitude_range_witness :
  exists lat long,
    xyz_to_lat_long [-1] [0] [0] false osgb36 = Ok (lat, long)
    /\ Forall (fun g => -180 <= g <= 180) long.
Proof.
  destruct (nr_loop_returns osgb36 [0] (horizontal [-1] [0]) 6
              (first_guess osgb36 [-1] [0] [0]) eq_refl eq_refl)
    as (out & Hout & _).
  exists (map deg out), (map deg (map2 arctan2 [0] [-1])).
  assert (Hr : xyz_to_lat_long [-1] [0] [0] false osgb36
               = Ok (map deg out, map deg (map2 arctan2 [0] [-1]))).
  { rewrite xyz_to_lat_long_same_length by reflexivity.
    rewrite Hout. reflexivity. }
  split; [exact Hr|].
  exact (xyz_to_lat_long_longitude_range _ _ _ false _ _ _ Hr).
Defined.

(** ** Round trip in radians *)




(** ** More on the Helmert transform *)

Lemma helmert_kernel_trivial (s rx ry rz v0 v1 v2 : R) :
  -1 < s ->
  (1 + s) * v0 + - rz * v1 + ry * v2 = 0 ->
  rz * v0 + (1 + s) * v1 + - rx * v2 = 0 ->
  - ry * v0 + rx * v1 + (1 + s) * v2 = 0 ->
  v0 = 0 /\ v1 = 0 /\ v2 = 0.
Proof.
  intros Hs E0 E1 E2.
  assert (Hsum : (1 + s) * (v0 * v0 + v1 * v1 + v2 * v2) = 0).
  { replace ((1 + s) * (v0 * v0 + v1 * v1 + v2 * v2))
      with (v0 * ((1 + s) * v0 + - rz * v1 + ry * v2)
            + v1 * (rz * v0 + (1 + s) * v1 + - rx * v2)
            + v2 * (- ry * v0 + rx * v1 + (1 + s) * v2)) by ring.
    rewrite E0, E1, E2. ring. }
  assert (Hsq : v0 * v0 + v1 * v1 + v2 * v2 = 0).
  { apply Rmult_eq_reg_l with (1 + s); [|lra]. rewrite Hsum. ring. }
  repeat split; nra.
Qed.

Lemma init_entries (s rx ry rz : R) (t : ndarray) (h : HelmertTransform) :
  HelmertTransform_init s rx ry rz t = Ok h ->
  entry (M h) 0 0 = 1 + s /\ entry (M h) 0 1 = - rz /\ entry (M h) 0 2 = ry
  /\ entry (M h) 1 0 = rz /\ entry (M h) 1 1 = 1 + s
  /\ entry (M h) 1 2 = - rx
  /\ entry (M h) 2 0 = - ry /\ entry (M h) 2 1 = rx
  /\ entry (M h) 2 2 = 1 + s.
Proof.
  intros Hh. destruct (init_inversion _ _ _ _ _ _ Hh) as [_ ->].
  repeat split.
Qed.

(** X7.  A Helmert transform with scale s > -1 is injective on 3-by-N
    point sets: two point sets with the same image are equal, whatever the
    rotation parameters and the translation. *)
Theorem helmert_injective (s rx ry rz : R) (t : ndarray)
  (h : HelmertTransform) (X X' : ndarray) (N : nat) :
  HelmertTransform_init s rx ry rz t = Ok h ->
  -1 < s ->
  shape X = [3%nat; N] -> ndarray_wf X ->
  shape X' = [3%nat; N] -> ndarray_wf X' ->
  HelmertTransform_call h X = HelmertTransform_call h X' ->
  X = X'.
Proof.
  intros Hh Hs HsX HwX HsX' HwX' Heq.
  destruct (size_3_by N X HsX) as [Hmod Hdiv].
  destruct (size_3_by N X' HsX') as [Hmod' Hdiv'].
  destruct (call_entries s rx ry rz t X h Hh Hmod) as (Y & HY & _ & _ & HeY).
  destruct (call_entries s rx ry rz t X' h Hh Hmod')
    as (Y' & HY' & _ & _ & HeY').
  rewrite Hdiv in HeY. rewrite Hdiv' in HeY'.
  assert (HYY : Y = Y') by congruence. subst Y'.
  destruct (init_entries _ _ _ _ _ _ Hh)
    as (M00 & M01 & M02 & M10 & M11 & M12 & M20 & M21 & M22).
  assert (HlX : length (data X) = (3 * N)%nat).
  { rewrite HwX. unfold size. rewrite HsX. simpl. lia. }
  assert (HlX' : length (data X') = (3 * N)%nat).
  { rewrite HwX'. unfold size. rewrite HsX'. simpl. lia. }
  symmetry. apply (ndarray_ext_3 X X' N); auto.
  assert (HeqX : forall j k, entry (mk_ndarray [3%nat; N] (data X)) j k
                             = entry X j k).
  { intros j k. unfold entry, ncols. now rewrite HsX. }
  assert (HeqX' : forall j k, entry (mk_ndarray [3%nat; N] (data X')) j k
                              = entry X' j k).
  { intros j k. unfold entry, ncols. now rewrite HsX'. }
  assert (Hcol : forall k, (k < N)%nat ->
            entry X' 0 k - entry X 0 k = 0
            /\ entry X' 1 k - entry X 1 k = 0
            /\ entry X' 2 k - entry X 2 k = 0).
  { intros k Hk.
    pose proof (HeY 0%nat k ltac:(lia) Hk) as A0.
    pose proof (HeY 1%nat k ltac:(lia) Hk) as A1.
    pose proof (HeY 2%nat k ltac:(lia) Hk) as A2.
    rewrite (HeY' 0%nat k ltac:(lia) Hk) in A0.
    rewrite (HeY' 1%nat k ltac:(lia) Hk) in A1.
    rewrite (HeY' 2%nat k ltac:(lia) Hk) in A2.
    rewrite !HeqX, !HeqX' in A0, A1, A2.
    rewrite M00, M01, M02 in A0. rewrite M10, M11, M12 in A1.
    rewrite M20, M21, M22 in A2.
    apply (helmert_kernel_trivial s rx ry rz); [assumption| | |]; lra. }
  intros i k Hi Hk. destruct (Hcol k Hk) as (C0 & C1 & C2).
  three_cases i; lra.
Qed.

Lemma helmert_injective_witness :
  mk_ndarray [3%nat; 1%nat] [1; 2; 3] = mk_ndarray [3%nat; 1%nat] [1; 2; 3].
Proof.
  apply (helmert_injective 20.4894e-6 (- rad_dms 0 0 0.1502)
           (- rad_dms 0 0 0.2470) (- rad_dms 0 0 0.8421)
           (mk_ndarray [3%nat] [-446.448; 125.157; -542.060])
           {| T := mk_ndarray [3%nat; 1%nat] [-446.448; 125.157; -542.060];
              M := mk_ndarray [3%nat; 3%nat]
                     [1 + 20.4894e-6; - - rad_dms 0 0 0.8421;
                      - rad_dms 0 0 0.2470;
                      - rad_dms 0 0 0.8421; 1 + 20.4894e-6;
                      - - rad_dms 0 0 0.1502;
                      - - rad_dms 0 0 0.2470; - rad_dms 0 0 0.1502;
                      1 + 20.4894e-6] |}
           _ _ 1%nat).
  - reflexivity.
  - lra.
  - reflexivity.
  - reflexivity.
  - reflexivity.
  - reflexivity.
  - reflexivity.
Defined.

(** X8.  A Helmert transform works column by column: column [k] of the
    image of a 3-by-N point set is the image of column [k] alone. *)
Theorem helmert_columnwise (s rx ry rz : R) (t : ndarray)
  (h : HelmertTransform) (X : ndarray) (N k : nat) :
  HelmertTransform_init s rx ry rz t = Ok h ->
  shape X = [3%nat; N] -> (k < N)%nat ->
  exists Y Yk,
    HelmertTransform_call h X = Ok Y
    /\ HelmertTransform_call h
         (mk_ndarray [3%nat; 1%nat]
                     [entry X 0 k; entry X 1 k; entry X 2 k]) = Ok Yk
    /\ shape Yk = [3%nat; 1%nat]
    /\ forall i, (i < 3)%nat -> entry Yk i 0 = entry Y i k.
Proof.
  intros Hh HsX Hk.
  destruct (size_3_by N X HsX) as [Hmod Hdiv].
  destruct (call_entries s rx ry rz t X h Hh Hmod)
    as (Y & HY & _ & _ & HeY).
  destruct (call_entries s rx ry rz t
              (mk_ndarray [3%nat; 1%nat]
                          [entry X 0 k; entry X 1 k; entry X 2 k])
              h Hh eq_refl) as (Yk & HYk & HsYk & _ & HeYk).
  rewrite Hdiv in HeY.
  exists Y, Yk. split; [exact HY|]. split; [exact HYk|].
  split; [exact HsYk|].
  intros i Hi. rewrite (HeY i k Hi Hk).
  rewrite (HeYk i 0%nat Hi ltac:(cbn; lia)).
  assert (HeqX : forall j, entry (mk_ndarray [3%nat; N] (data X)) j k
                           = entry X j k).
  { intros j. unfold entry, ncols. now rewrite HsX. }
  rewrite !HeqX. reflexivity.
Qed.

Lemma helmert_columnwise_witness :
  exists h Y Yk,
    WGS84toOSGB36transform = Ok h
    /\ HelmertTransform_call h
         (mk_ndarray [3%nat; 2%nat] [1; 2; 3; 4; 5; 6]) = Ok Y
    /\ HelmertTransform_call h (mk_ndarray [3%nat; 1%nat] [2; 4; 6]) = Ok Yk
    /\ forall i, (i < 3)%nat -> entry Yk i 0 = entry Y i 1.
Proof.
  destruct (helmert_columnwise 20.4894e-6 (- rad_dms 0 0 0.1502)
              (- rad_dms 0 0 0.2470) (- rad_dms 0 0 0.8421)
              (mk_ndarray [3%nat] [-446.448; 125.157; -542.060])
              _ (mk_ndarray [3%nat; 2%nat] [1; 2; 3; 4; 5; 6]) 2 1
              eq_refl eq_refl ltac:(lia))
    as (Y & Yk & HY & HYk & _ & Hcol).
  eexists. exists Y, Yk. split; [reflexivity|].
  split; [exact HY|]. split; [exact HYk | exact Hcol].
Defined.

(** ** Elementwise behaviour of the datum shift and of the projection *)

Lemma row_nth (X : ndarray) (N i k : nat) :
  shape X = [3%nat; N] -> (k < N)%nat ->
  nth k (row i X) 0 = entry X i k.
Proof.
  intros Hs Hk. unfold row, entry, ncols. rewrite Hs. cbn [nth].
  rewrite nth_firstn. destruct (Nat.ltb_spec k N); [|lia].
  now rewrite nth_skipn.
Qed.

Lemma nr_loop_pointwise (datum : Ellipsoid) (z p : arr) (k : nat) :
  forall latitude,
  length z = length latitude -> length p = length latitude ->
  exists out, for_range k (nr_step datum z p) latitude = Ok out
    /\ length out = length latitude
    /\ forall i, (i < length latitude)%nat ->
         nth i out 0
         = Nat.iter k (newton_update datum (nth i z 0) (nth i p 0))
                    (nth i latitude 0).
Proof.
  induction k as [|k IH]; intros latitude Hz Hp.
  - exists latitude. repeat split.
  - destruct (nr_step_pointwise datum z p latitude Hz Hp)
      as (mid & Hmid & Hl & Hpt).
    destruct (IH mid) as (out & Hout & Hl' & Hpt'); try congruence.
    exists out. split; [|split].
    + cbn [for_range]. rewrite Hmid. cbn [bind]. exact Hout.
    + congruence.
    + intros i Hi. rewrite Hpt' by lia. rewrite Hpt by assumption.
      now rewrite Nat.iter_succ_r.
Qed.

Lemma xyz_to_lat_long_pointwise (x y z : arr) (radians : bool)
  (datum : Ellipsoid) :
  length y = length x -> length z = length x ->
  exists lat long,
    xyz_to_lat_long x y z radians datum = Ok (lat, long)
    /\ length lat = length x /\ length long = length x
    /\ forall i, (i < length x)%nat ->
         let r := xyz_to_lat_long_point datum (nth i x 0) (nth i y 0)
                                        (nth i z 0) in
         nth i lat 0 = (if radians then fst r else deg (fst r))
         /\ nth i long 0 = (if radians then snd r else deg (snd r)).
Proof.
  intros Hy Hz. rewrite xyz_to_lat_long_same_length by assumption.
  destruct (nr_loop_pointwise datum z (horizontal x y) 6
              (first_guess datum x y z))
    as (out & -> & Hl & Hpt);
    [unfold first_guess, horizontal; len
    |unfold first_guess, horizontal; len|].
  assert (Hlg : length (first_guess datum x y z) = length x)
    by (unfold first_guess, horizontal; len).
  cbn [bind]. eexists. eexists. split; [reflexivity|].
  split; [rewrite from_radians_length; congruence|].
  split; [rewrite from_radians_length; len|].
  intros i Hi.
  set (r := xyz_to_lat_long_point datum (nth i x 0) (nth i y 0) (nth i z 0)).
  assert (Hout : nth i out 0 = fst r).
  { rewrite Hpt by lia. unfold r, xyz_to_lat_long_point. cbn [fst].
    unfold first_guess, horizontal.
    rewrite !map2_nth, !map_nth0, !map2_nth by len. reflexivity. }
  assert (Hlon : nth i (map2 arctan2 y x) 0 = snd r).
  { rewrite map2_nth by len. reflexivity. }
  destruct radians; cbn [from_radians].
  - split; assumption.
  - rewrite !map_nth0 by len. now rewrite Hout, Hlon.
Qed.

Lemma to_radians_nth (radians : bool) (x : arr) (i : nat) :
  (i < length x)%nat ->
  nth i (to_radians radians x) 0
  = (if radians then nth i x 0 else rad (nth i x 0)).
Proof.
  intros Hi. destruct radians; cbn [to_radians]; [reflexivity|].
  now apply map_nth0.
Qed.

(** The wrapper is the elementwise image of its reading on one point. *)
Lemma WGS84toOSGB36_pointwise (latitude longitude : arr) (radians : bool)
  (h : HelmertTransform) :
  WGS84toOSGB36transform = Ok h ->
  length latitude = length longitude ->
  exists lat long,
    WGS84toOSGB36 latitude longitude radians = Ok (lat, long)
    /\ length lat = length latitude /\ length long = length latitude
    /\ forall i, (i < length latitude)%nat ->
         (nth i lat 0, nth i long 0)
         = WGS84toOSGB36_point h radians (nth i latitude 0)
                               (nth i longitude 0).
Proof.
  intros Hh Hlen.
  set (t := mk_ndarray [3%nat] [-446.448; 125.157; -542.060]).
  unfold WGS84toOSGB36, WGS84toOSGB36_xyz.
  destruct (lat_long_to_xyz_entries latitude longitude radians osgb36 Hlen)
    as (X & -> & HsX & HeX).
  cbn [bind]. rewrite Hh. cbn [bind].
  destruct (size_3_by _ X HsX) as [Hmod Hdiv].
  destruct (call_entries 20.4894e-6 (- rad_dms 0 0 0.1502)
              (- rad_dms 0 0 0.2470) (- rad_dms 0 0 0.8421) t
              X h Hh Hmod) as (Y & -> & HsY & HlY & HeY).
  rewrite Hdiv in HsY, HlY, HeY. cbn [bind].
  pose proof (row_length Y _ 0 HsY HlY ltac:(lia)) as L0.
  pose proof (row_length Y _ 1 HsY HlY ltac:(lia)) as L1.
  pose proof (row_length Y _ 2 HsY HlY ltac:(lia)) as L2.
  destruct (xyz_to_lat_long_pointwise (row 0 Y) (row 1 Y) (row 2 Y)
              radians osgb36) as (lat & long & -> & Hla & Hlo & Hpt);
    try lia.
  exists lat, long. split; [reflexivity|]. split; [lia|]. split; [lia|].
  intros i Hi.
  destruct (Hpt i ltac:(lia)) as [E1 E2]. rewrite E1, E2.
  rewrite !(row_nth Y (length latitude)) by assumption.
  assert (HeqX : forall j, entry (mk_ndarray [3%nat; length latitude]
                                             (data X)) j i
                           = entry X j i).
  { intros j. unfold entry, ncols. now rewrite HsX. }
  assert (HT : forall j, (j < 3)%nat -> nth j (data t) 0 = entry (T h) j 0).
  { intros j Hj.
    assert (Hh' : Ok h = WGS84toOSGB36transform) by (symmetry; exact Hh).
    injection Hh' as ->. three_cases j; reflexivity. }
  rewrite (HeY 0%nat i ltac:(lia) Hi), (HeY 1%nat i ltac:(lia) Hi),
    (HeY 2%nat i ltac:(lia) Hi).
  rewrite !HeqX, !HT by lia.
  destruct (HeX i Hi) as (-> & -> & ->).
  rewrite !to_radians_nth by lia.
  unfold WGS84toOSGB36_point, helmert_point.
  destruct radians; reflexivity.
Qed.

Lemma singleton_of_nth (l : arr) (v : R) :
  length l = 1%nat -> nth 0 l 0 = v -> l = [v].
Proof.
  destruct l as [|u [|w l]]; try discriminate. simpl. now intros _ ->.
Qed.

(** X9.  The datum shift treats every point on its own: on latitude and
    longitude arrays of one length it returns arrays of that length, and
    element [i] of the result is what the call on the single pair
    (latitude[i], longitude[i]) returns. *)
Theorem WGS84toOSGB36_elementwise (latitude longitude : arr)
  (radians : bool) (i : nat) :
  length latitude = length longitude -> (i < length latitude)%nat ->
  exists lat long,
    WGS84toOSGB36 latitude longitude radians = Ok (lat, long)
    /\ length lat = length latitude /\ length long = length latitude
    /\ WGS84toOSGB36 [nth i latitude 0] [nth i longitude 0] radians
       = Ok ([nth i lat 0], [nth i long 0]).
Proof.
  intros Hlen Hi.
  assert (Hh : exists h, WGS84toOSGB36transform = Ok h)
    by (eexists; reflexivity).
  destruct Hh as [h Hh].
  destruct (WGS84toOSGB36_pointwise latitude longitude radians h Hh Hlen)
    as (lat & long & Hb & Hl1 & Hl2 & Hpt).
  destruct (WGS84toOSGB36_pointwise [nth i latitude 0] [nth i longitude 0]
              radians h Hh eq_refl)
    as (lat1 & long1 & Hs & Hs1 & Hs2 & Hpt1).
  exists lat, long. split; [exact Hb|]. split; [exact Hl1|].
  split; [exact Hl2|].
  rewrite Hs.
  specialize (Hpt i Hi). specialize (Hpt1 0%nat Nat.lt_0_1).
  cbn [nth] in Hpt1. rewrite <- Hpt in Hpt1. injection Hpt1 as E1 E2.
  now rewrite (singleton_of_nth lat1 _ Hs1 E1),
    (singleton_of_nth long1 _ Hs2 E2).
Qed.

Lemma WGS84toOSGB36_elementwise_witness :
  exists lat long,
    WGS84toOSGB36 [51.5; 53.4] [-0.1; -2.2] false = Ok (lat, long)
    /\ WGS84toOSGB36 [53.4] [-2.2] false
       = Ok ([nth 1 lat 0], [nth 1 long 0]).
Proof.
  destruct (WGS84toOSGB36_elementwise [51.5; 53.4] [-0.1; -2.2] false 1
              eq_refl ltac:(simpl; lia))
    as (lat & long & Hb & _ & _ & Hs).
  exists lat, long. split; [exact Hb | exact Hs].
Defined.

Lemma grid_projection_eval (latitude longitude : arr) (radians : bool)
  (lat long : arr) :
  WGS84toOSGB36 (to_radians radians latitude)
                (to_radians radians longitude) true = Ok (lat, long) ->
  length lat = length long ->
  get_easting_northing_from_lat_long latitude longitude radians
  = Ok (map2 tm_easting lat long, map2 tm_northing lat long).
Proof.
  intros Hw Hl. unfold get_easting_northing_from_lat_long.
  rewrite Hw. cbn [bind].
  rewrite (bop_ext easting_of tm_easting) by apply easting_of_eq.
  rewrite (bop_ext northing_of tm_northing) by apply northing_of_eq.
  rewrite !bop_same_length by lia. reflexivity.
Qed.

(** X10.  The projection treats every point on its own: on latitude and
    longitude arrays of one length it returns eastings and northings of
    that length, and element [i] of each is what the call on the single
    pair (latitude[i], longitude[i]) returns. *)
Theorem get_easting_northing_elementwise (latitude longitude : arr)
  (radians : bool) (i : nat) :
  length latitude = length longitude -> (i < length latitude)%nat ->
  exists easting northing,
    get_easting_northing_from_lat_long latitude longitude radians
    = Ok (easting, northing)
    /\ length easting = length latitude
    /\ length northing = length latitude
    /\ get_easting_northing_from_lat_long [nth i latitude 0]
         [nth i longitude 0] radians
       = Ok ([nth i easting 0], [nth i northing 0]).
Proof.
  intros Hlen Hi.
  assert (Hh : exists h, WGS84toOSGB36transform = Ok h)
    by (eexists; reflexivity).
  destruct Hh as [h Hh].
  destruct (WGS84toOSGB36_pointwise (to_radians radians latitude)
              (to_radians radians longitude) true h Hh)
    as (lat & long & Hb & Hl1 & Hl2 & Hpt); [len|].
  rewrite to_radians_length in Hl1, Hl2.
  destruct (WGS84toOSGB36_pointwise (to_radians radians [nth i latitude 0])
              (to_radians radians [nth i longitude 0]) true h Hh)
    as (lat1 & long1 & Hs & Hs1 & Hs2 & Hpt1);
    [rewrite !to_radians_length; reflexivity|].
  rewrite to_radians_length in Hs1, Hs2. cbn [length] in Hs1, Hs2.
  rewrite (grid_projection_eval _ _ _ lat long Hb) by lia.
  rewrite (grid_projection_eval _ _ _ lat1 long1 Hs) by lia.
  eexists. eexists. split; [reflexivity|].
  split; [len|]. split; [len|].
  rewrite !map2_nth by lia.
  specialize (Hpt i). rewrite to_radians_length in Hpt.
  specialize (Hpt Hi). rewrite !to_radians_nth in Hpt by lia.
  specialize (Hpt1 0%nat). rewrite to_radians_length in Hpt1.
  specialize (Hpt1 Nat.lt_0_1).
  rewrite !to_radians_nth in Hpt1 by (simpl; lia). cbn [nth] in Hpt1.
  rewrite <- Hpt in Hpt1. injection Hpt1 as E1 E2.
  rewrite (singleton_of_nth lat1 _ Hs1 E1),
    (singleton_of_nth long1 _ Hs2 E2).
  reflexivity.
Qed.

Lemma get_easting_northing_elementwise_witness :
  exists easting northing,
    get_easting_northing_from_lat_long [51.5; 53.4] [-0.1; -2.2] false
    = Ok (easting, northing)
    /\ get_easting_northing_from_lat_long [53.4] [-2.2] false
       = Ok ([nth 1 easting 0], [nth 1 northing 0]).
Proof.
  destruct (get_easting_northing_elementwise [51.5; 53.4] [-0.1; -2.2]
              false 1 eq_refl ltac:(simpl; lia))
    as (E & N & Hb & _ & _ & Hs).
  exists E, N. split; [exact Hb | exact Hs].
Defined.

(** ** The series about the central meridian *)

Lemma grid_M_at_origin : grid_M (phi_0 osgb36) = 0.
Proof.
  unfold grid_M. rewrite Rminus_diag.
  replace (2 * 0) with 0 by ring. replace (3 * 0) with 0 by ring.
  rewrite sin_0. ring.
Qed.

(** X11.  The easting and northing expressions of the projection are
    symmetric about the central meridian lam_0 of OSGB36: at equal
    distances east and west of it the eastings are mirror images about
    the false easting E_0 and the northings are equal.  On the central
    meridian the easting is E_0 = 400000, and the true origin
    (phi_0, lam_0) has northing N_0 = -100000. *)
Theorem grid_series_about_central_meridian (latitude d : R) :
  easting_of latitude (lam_0 osgb36 + d) - E_0 osgb36
  = - (easting_of latitude (lam_0 osgb36 - d) - E_0 osgb36)
  /\ northing_of latitude (lam_0 osgb36 + d)
     = northing_of latitude (lam_0 osgb36 - d)
  /\ easting_of latitude (lam_0 osgb36) = 400000
  /\ northing_of (phi_0 osgb36) (lam_0 osgb36) = -100000.
Proof.
  repeat split.
  - unfold easting_of. ring.
  - unfold northing_of. ring.
  - unfold easting_of. rewrite Rminus_diag.
    change (E_0 osgb36) with 400000. ring.
  - unfold northing_of, grid_I. rewrite grid_M_at_origin, Rminus_diag.
    change (N_0 osgb36) with (-100000). ring.
Qed.

(** ** Points of the equatorial plane *)

Lemma nu_of_at_zero (datum : Ellipsoid) :
  nu_of datum 0 = a datum * F_0 datum.
Proof.
  unfold nu_of. rewrite sin_0.
  replace (1 - e2 datum * 0 ^ 2) with 1 by ring.
  rewrite sqrt_1. field.
Qed.

Lemma newton_update_at_zero (datum : Ellipsoid) (p : R) :
  newton_update datum 0 p 0 = 0.
Proof.
  unfold newton_update, f0_residual. rewrite sin_0, tan_0.
  unfold Rdiv. ring.
Qed.

Lemma slope_at_zero (datum : Ellipsoid) (p : R) :
  0 < a datum * F_0 datum ->
  e2 datum * (a datum * F_0 datum) < p -> 0 < p ->
  f1_code datum p 0 < 0.
Proof.
  intros HaF Hp Hp0. unfold f1_code, f1_numerator.
  rewrite cos_0, sin_0, nu_of_at_zero, Rpower_1 by assumption.
  replace 1.0 with 1 by lra.
  replace (e2 datum * (a datum * F_0 datum + dnu_of datum 0 * 0) / p
           - 1 / 1 ^ 2)
    with ((e2 datum * (a datum * F_0 datum) - p) * / p) by (field; lra).
  assert (Hi : 0 < / p) by now apply Rinv_0_lt_compat.
  nra.
Qed.

(** X12.  A point of the equatorial plane (z = 0) farther from the polar
    axis than e2 a F_0 gets latitude exactly 0 on every datum with
    0 <= e2 < 1 and a F_0 > 0: the first guess is 0, the residual
    vanishes there and the six passes leave it in place, the slope they
    divide by being negative. *)
Theorem equatorial_plane_has_latitude_zero (datum : Ellipsoid) (x y : arr)
  (radians : bool) :
  0 <= e2 datum < 1 -> 0 < a datum * F_0 datum ->
  length y = length x ->
  (forall i, (i < length x)%nat ->
     e2 datum * (a datum * F_0 datum)
     < sqrt (nth i x 0 ^ 2 + nth i y 0 ^ 2)) ->
  exists long,
    xyz_to_lat_long x y (map (fun _ => 0) x) radians datum
    = Ok (map (fun _ => 0) x, long)
    /\ forall i, (i < length x)%nat ->
         f1_code datum (sqrt (nth i x 0 ^ 2 + nth i y 0 ^ 2)) 0 < 0.
Proof.
  intros [He0 He1] HaF Hy Hp.
  assert (Hp0 : forall i, (i < length x)%nat ->
            0 < sqrt (nth i x 0 ^ 2 + nth i y 0 ^ 2)).
  { intros i Hi. specialize (Hp i Hi). nra. }
  destruct (xyz_to_lat_long_pointwise x y (map (fun _ => 0) x) radians datum)
    as (lat & long & Hr & Hl1 & Hl2 & Hpt); [assumption | len |].
  exists long. split.
  - rewrite Hr. do 2 f_equal.
    apply (nth_ext _ _ 0 0); [len|].
    intros i Hi. rewrite Hl1 in Hi.
    destruct (Hpt i Hi) as [E _]. rewrite E.
    rewrite !(map_nth0 (fun _ => 0)) by assumption.
    unfold xyz_to_lat_long_point. cbn [fst].
    set (p := sqrt (nth i x 0 ^ 2 + nth i y 0 ^ 2)).
    assert (Hg : arctan2 0 (p * (1 - e2 datum)) = 0).
    { unfold arctan2. specialize (Hp0 i Hi). fold p in Hp0.
      destruct (Rlt_dec 0 (p * (1 - e2 datum))); [|nra].
      unfold Rdiv. rewrite Rmult_0_l. apply atan_0. }
    rewrite Hg.
    assert (Hit : Nat.iter 6 (newton_update datum 0 p) 0 = 0).
    { cbn [Nat.iter nat_rect]. now rewrite !newton_update_at_zero. }
    rewrite Hit. destruct radians; [reflexivity|].
    unfold deg. ring.
  - intros i Hi. apply slope_at_zero; auto.
Qed.

Lemma equatorial_plane_has_latitude_zero_witness :
  exists long,
    xyz_to_lat_long [6378137] [0] [0] false wgs84 = Ok ([0], long).
Proof.
  destruct (equatorial_plane_has_latitude_zero wgs84 [6378137] [0] false)
    as (long & Hr & _).
  - unfold wgs84, Ellipsoid_init. cbn [e2]. split; lra.
  - exact wgs84_scale_pos.
  - reflexivity.
  - intros i Hi. destruct i as [|i]; [|simpl in Hi; lia]. cbn [nth].
    replace (6378137 ^ 2 + 0 ^ 2) with (6378137 ^ 2) by ring.
    rewrite sqrt_pow2 by lra.
    unfold wgs84, Ellipsoid_init. cbn [e2 a F_0]. lra.
  - exists long. exact Hr.
Defined.

(** * Properties of the postcode and flood-risk tables *)

(** ** Flood probability bands *)

Lemma fold_max_ge (l : list nat) (k : nat) :
  (k <= fold_left Nat.max l k)%nat
  /\ forall x, In x l -> (x <= fold_left Nat.max l k)%nat.
Proof.
  revert k. induction l as [|y l IH]; intros k; simpl.
  - split; [lia | contradiction].
  - destruct (IH (Nat.max k y)) as [H1 H2]. split; [lia|].
    intros x [<-|Hx]; [lia | auto].
Qed.

Lemma fold_max_in (l : list nat) (k : nat) :
  fold_left Nat.max l k = k \/ In (fold_left Nat.max l k) l.
Proof.
  revert k. induction l as [|y l IH]; intros k; simpl; [now left|].
  destruct (IH (Nat.max k y)) as [E|E].
  - rewrite E. destruct (Nat.max_spec k y) as [[_ ->]|[_ ->]]; auto.
  - right. now right.
Qed.

Lemma np_max_spec (l : list nat) :
  l <> [] ->
  exists m, Tool.np_max l = Tool.Returns m
            /\ In m l /\ forall x, In x l -> (x <= m)%nat.
Proof.
  destruct l as [|k l]; [contradiction|]. intros _.
  exists (fold_left Nat.max l k). split; [reflexivity|].
  destruct (fold_max_ge l k) as [H1 H2]. split.
  - destruct (fold_max_in l k) as [->|E]; [now left | now right].
  - intros x [<-|Hx]; auto.
Qed.

Lemma Numerical_Risk_range (c : Tool.circle) :
  (1 <= Tool.Numerical_Risk c <= 4)%nat.
Proof. unfold Tool.Numerical_Risk. destruct (Tool.prob_4band c); lia. Qed.

Lemma probs_total (k : nat) :
  (k <= 4)%nat ->
  exists name, Tool.probs k = Some name
               /\ In name ["High"; "Medium"; "Low"; "Very Low"; "Zero"]%string
               /\ Tool.band_number name = k
               /\ (name = "Zero"%string <-> k = 0%nat).
Proof.
  intros Hk.
  destruct k as [|[|[|[|[|k]]]]]; try lia; eexists;
    (split; [reflexivity|]); (split; [simpl; auto 6|]);
    (split; [reflexivity|]); split; (discriminate || reflexivity || lia).
Qed.

(** The band of one point, for a table that is not empty. *)
Lemma get_probs_spec (dff : list Tool.circle) (e n : R) :
  dff <> [] ->
  exists name,
    Tool.get_probs dff (e, n) = Tool.Returns name
    /\ In name ["High"; "Medium"; "Low"; "Very Low"; "Zero"]%string
    /\ (forall c, In c dff -> Tool.dist e n c <= Tool.radius c ->
          (Tool.Numerical_Risk c <= Tool.band_number name)%nat)
    /\ (name = "Zero"%string <->
        forall c, In c dff -> Tool.radius c < Tool.dist e n c)
    /\ (name <> "Zero"%string ->
        exists c, In c dff /\ Tool.dist e n c <= Tool.radius c
                  /\ Tool.probs (Tool.Numerical_Risk c) = Some name).
Proof.
  intros Hne.
  assert (Hcne : Tool.circles dff e n <> []).
  { unfold Tool.circles. destruct dff; [contradiction | discriminate]. }
  destruct (np_max_spec _ Hcne) as (m & Hm & Hin & Hub).
  assert (Hm4 : (m <= 4)%nat).
  { unfold Tool.circles in Hin. apply in_map_iff in Hin.
    destruct Hin as (c & <- & _).
    pose proof (Numerical_Risk_range c).
    destruct (Rle_dec _ _); lia. }
  destruct (probs_total m Hm4) as (name & Hp & Hname & Hnum & Hzero).
  exists name. unfold Tool.get_probs. cbn [fst snd]. rewrite Hm.
  cbn [Tool.obind]. rewrite Hp. split; [reflexivity|].
  split; [exact Hname|]. split; [|split].
  - intros c Hc Hin_c. rewrite Hnum. apply Hub.
    unfold Tool.circles. apply in_map_iff. exists c. split; [|assumption].
    destruct (Rle_dec _ _); [reflexivity | contradiction].
  - rewrite Hzero. split.
    + intros -> c Hc.
      destruct (Rle_dec (Tool.dist e n c) (Tool.radius c)) as [Hle|Hgt];
        [|lra].
      assert (Hx : (Tool.Numerical_Risk c <= 0)%nat).
      { apply Hub. unfold Tool.circles. apply in_map_iff. exists c.
        split; [|assumption].
        destruct (Rle_dec _ _); [reflexivity | contradiction]. }
      pose proof (Numerical_Risk_range c). lia.
    + intros Hout. unfold Tool.circles in Hin. apply in_map_iff in Hin.
      destruct Hin as (c & Hc & Hcin).
      destruct (Rle_dec _ _) as [Hle|_]; [|lia].
      specialize (Hout c Hcin). lra.
  - intros Hnz. unfold Tool.circles in Hin. apply in_map_iff in Hin.
    destruct Hin as (c & Hc & Hcin).
    destruct (Rle_dec _ _) as [Hle|_].
    + exists c. split; [assumption|]. split; [assumption|]. now rewrite Hc.
    + exfalso. apply Hnz. apply Hzero. lia.
Qed.

Lemma apply_rows_spec {A B : Type} (f : A -> Tool.outcome B)
  (rows : list A) (da : A) (db : B) :
  (forall r, In r rows -> exists b, f r = Tool.Returns b) ->
  exists bs, Tool.apply_rows f rows = Tool.Returns bs
    /\ length bs = length rows
    /\ forall i, (i < length rows)%nat ->
         f (nth i rows da) = Tool.Returns (nth i bs db).
Proof.
  induction rows as [|r rows IH]; intros Hall.
  - exists []. repeat split. intros i Hi. simpl in Hi. lia.
  - destruct (Hall r (or_introl eq_refl)) as [b Hb].
    destruct IH as (bs & Hbs & Hl & Hnth).
    { intros r' Hr'. apply Hall. now right. }
    exists (b :: bs). cbn [Tool.apply_rows]. rewrite Hb. cbn [Tool.obind].
    rewrite Hbs. cbn [Tool.obind]. split; [reflexivity|].
    split; [simpl; lia|].
    intros [|i] Hi; simpl; [assumption|]. apply Hnth. simpl in Hi. lia.
Qed.

Lemma flood_probability_rows (dff : list Tool.circle) (easting northing : arr) :
  dff <> [] -> length easting = length northing ->
  exists bands,
    Tool.get_easting_northing_flood_probability dff easting northing
    = Tool.Returns bands
    /\ length bands = length easting
    /\ forall i, (i < length easting)%nat ->
         Tool.get_probs dff (nth i easting 0, nth i northing 0)
         = Tool.Returns (nth i bands ""%string).
Proof.
  intros Hne Hlen. unfold Tool.get_easting_northing_flood_probability.
  rewrite (proj2 (Nat.eqb_eq _ _) Hlen).
  destruct (apply_rows_spec (Tool.get_probs dff) (combine easting northing)
              (0, 0) ""%string) as (bands & Hb & Hl & Hnth).
  { intros [e n] _. destruct (get_probs_spec dff e n Hne) as (name & Hn & _).
    eauto. }
  rewrite length_combine in Hl, Hnth.
  exists bands. split; [exact Hb|]. split; [lia|].
  intros i Hi. rewrite <- Hnth by lia. now rewrite combine_nth.
Qed.

(** X13.  On a flood-risk table that is not empty and easting and northing
    arrays of one length, [get_easting_northing_flood_probability]
    returns one band name per location, each one of 'High', 'Medium',
    'Low', 'Very Low', 'Zero'; the name is 'Zero' exactly when the
    location lies outside every circle of the table (a location on the
    rim of a circle is inside it). *)
Theorem flood_probability_zero_iff_outside (dff : list Tool.circle)
  (easting northing : arr) :
  dff <> [] -> length easting = length northing ->
  exists bands,
    Tool.get_easting_northing_flood_probability dff easting northing
    = Tool.Returns bands
    /\ length bands = length easting
    /\ forall i, (i < length easting)%nat ->
         In (nth i bands ""%string)
            ["High"; "Medium"; "Low"; "Very Low"; "Zero"]%string
         /\ (nth i bands ""%string = "Zero"%string <->
             forall c, In c dff ->
               Tool.radius c
               < Tool.dist (nth i easting 0) (nth i northing 0) c).
Proof.
  intros Hne Hlen.
  destruct (flood_probability_rows dff easting northing Hne Hlen)
    as (bands & Hb & Hl & Hrow).
  exists bands. split; [exact Hb|]. split; [exact Hl|].
  intros i Hi. specialize (Hrow i Hi).
  destruct (get_probs_spec dff (nth i easting 0) (nth i northing 0) Hne)
    as (name & Hn & Hin & _ & Hz & _).
  rewrite Hn in Hrow. injection Hrow as <-. split; assumption.
Qed.

Lemma flood_probability_zero_iff_outside_witness :
  exists bands,
    Tool.get_easting_northing_flood_probability
      [Tool.mk_circle 0 0 1 Tool.High] [0; 5] [0; 5] = Tool.Returns bands
    /\ length bands = 2%nat.
Proof.
  destruct (flood_probability_zero_iff_outside
              [Tool.mk_circle 0 0 1 Tool.High] [0; 5] [0; 5])
    as (bands & Hb & Hl & _); [discriminate | reflexivity |].
  exists bands. split; assumption.
Defined.

(** X14.  The band returned for a location is the highest band among the
    circles that contain it: no containing circle has a higher band, and
    a band other than 'Zero' is the band of some containing circle. *)
Theorem flood_probability_is_highest_band (dff : list Tool.circle)
  (easting northing : arr) :
  dff <> [] -> length easting = length northing ->
  exists bands,
    Tool.get_easting_northing_flood_probability dff easting northing
    = Tool.Returns bands
    /\ forall i, (i < length easting)%nat ->
         let e := nth i easting 0 in
         let n := nth i northing 0 in
         let name := nth i bands ""%string in
         (forall c, In c dff -> Tool.dist e n c <= Tool.radius c ->
            (Tool.Numerical_Risk c <= Tool.band_number name)%nat)
         /\ (name <> "Zero"%string ->
             exists c, In c dff /\ Tool.dist e n c <= Tool.radius c
                       /\ Tool.probs (Tool.Numerical_Risk c) = Some name).
Proof.
  intros Hne Hlen.
  destruct (flood_probability_rows dff easting northing Hne Hlen)
    as (bands & Hb & Hl & Hrow).
  exists bands. split; [exact Hb|].
  intros i Hi e n name. specialize (Hrow i Hi).
  destruct (get_probs_spec dff e n Hne) as (nm & Hn & _ & Hub & _ & Hat).
  fold e n in Hrow. rewrite Hn in Hrow. injection Hrow as Hnm.
  fold name in Hnm. subst nm. split; assumption.
Qed.

Lemma flood_probability_is_highest_band_witness :
  exists bands,
    Tool.get_easting_northing_flood_probability
      [Tool.mk_circle 0 0 1 Tool.Low; Tool.mk_circle 0 0 2 Tool.High]
      [0] [0] = Tool.Returns bands
    /\ (Tool.Numerical_Risk (Tool.mk_circle 0 0 2 Tool.High)
        <= Tool.band_number (nth 0 bands ""%string))%nat.
Proof.
  destruct (flood_probability_is_highest_band
              [Tool.mk_circle 0 0 1 Tool.Low; Tool.mk_circle 0 0 2 Tool.High]
              [0] [0]) as (bands & Hb & Hi);
    [discriminate | reflexivity |].
  exists bands. split; [exact Hb|].
  destruct (Hi 0%nat Nat.lt_0_1) as [Hub _]. apply Hub.
  - simpl. auto.
  - unfold Tool.dist. cbn [Tool.X Tool.Y Tool.radius nth].
    replace ((0 - 0) ^ 2 + (0 - 0) ^ 2) with 0 by ring.
    rewrite sqrt_0. lra.
Defined.

(** X15.  The failures of [get_easting_northing_flood_probability]: with
    easting and northing arrays of different lengths it raises
    ValueError; with an empty risk table and at least one location it
    raises ValueError (the maximum of no circle). *)
Theorem flood_probability_failures (dff : list Tool.circle)
  (easting northing : arr) :
  (length easting <> length northing ->
   Tool.get_easting_northing_flood_probability dff easting northing
   = Tool.Raises Tool.Value_Error)
  /\ (length easting = length northing -> easting <> [] ->
      Tool.get_easting_northing_flood_probability [] easting northing
      = Tool.Raises Tool.Value_Error).
Proof.
  split.
  - intros Hne. unfold Tool.get_easting_northing_flood_probability.
    destruct (Nat.eqb_spec (length easting) (length northing));
      [contradiction | reflexivity].
  - intros Hlen Hne. unfold Tool.get_easting_northing_flood_probability.
    rewrite (proj2 (Nat.eqb_eq _ _) Hlen).
    destruct easting as [|e easting]; [contradiction|].
    destruct northing as [|n northing]; [discriminate|]. reflexivity.
Qed.

Lemma flood_probability_failures_witness :
  Tool.get_easting_northing_flood_probability [] [1; 2] [3]
  = Tool.Raises Tool.Value_Error
  /\ Tool.get_easting_northing_flood_probability [] [1] [3]
     = Tool.Raises Tool.Value_Error.
Proof.
  destruct (flood_probability_failures [] [1; 2] [3]) as (H1 & _).
  destruct (flood_probability_failures [] [1] [3]) as (_ & H2).
  split; [apply H1; simpl; lia | apply H2; [reflexivity | discriminate]].
Defined.

(** X16.  Adding circles to the flood-risk table never lowers a band: if
    every circle of [dff] is also in [dff'], the band returned for each
    location from [dff'] is at least the band returned from [dff]. *)
Theorem flood_probability_monotone (dff dff' : list Tool.circle)
  (easting northing : arr) :
  dff <> [] -> incl dff dff' -> length easting = length northing ->
  exists bands bands',
    Tool.get_easting_northing_flood_probability dff easting northing
    = Tool.Returns bands
    /\ Tool.get_easting_northing_flood_probability dff' easting northing
       = Tool.Returns bands'
    /\ forall i, (i < length easting)%nat ->
         (Tool.band_number (nth i bands ""%string)
          <= Tool.band_number (nth i bands' ""%string))%nat.
Proof.
  intros Hne Hincl Hlen.
  assert (Hne' : dff' <> []).
  { destruct dff as [|c dff]; [contradiction|].
    intros ->. apply (Hincl c). now left. }
  destruct (flood_probability_rows dff easting northing Hne Hlen)
    as (bands & Hb & _ & Hrow).
  destruct (flood_probability_rows dff' easting northing Hne' Hlen)
    as (bands' & Hb' & _ & Hrow').
  exists bands, bands'. split; [exact Hb|]. split; [exact Hb'|].
  intros i Hi. specialize (Hrow i Hi). specialize (Hrow' i Hi).
  destruct (get_probs_spec dff (nth i easting 0) (nth i northing 0) Hne)
    as (nm & Hn & _ & _ & Hz & Hat).
  destruct (get_probs_spec dff' (nth i easting 0) (nth i northing 0) Hne')
    as (nm' & Hn' & _ & Hub' & _ & _).
  rewrite Hn in Hrow. injection Hrow as <-.
  rewrite Hn' in Hrow'. injection Hrow' as <-.
  destruct (string_dec nm "Zero") as [->|Hnz].
  - change (Tool.band_number "Zero") with 0%nat. lia.
  - destruct (Hat Hnz) as (c & Hc & Hin & Hp).
    assert (Hk : Tool.band_number nm = Tool.Numerical_Risk c).
    { pose proof (Numerical_Risk_range c) as Hr.
      destruct (probs_total (Tool.Numerical_Risk c) ltac:(lia))
        as (nm2 & Hp2 & _ & Hnum & _).
      congruence. }
    rewrite Hk. apply Hub'; [now apply Hincl | assumption].
Qed.

Lemma flood_probability_monotone_witness :
  exists bands bands',
    Tool.get_easting_northing_flood_probability
      [Tool.mk_circle 0 0 1 Tool.Low] [0] [0] = Tool.Returns bands
    /\ Tool.get_easting_northing_flood_probability
         [Tool.mk_circle 0 0 2 Tool.High; Tool.mk_circle 0 0 1 Tool.Low]
         [0] [0] = Tool.Returns bands'
    /\ (Tool.band_number (nth 0 bands ""%string)
        <= Tool.band_number (nth 0 bands' ""%string))%nat.
Proof.
  destruct (flood_probability_monotone
              [Tool.mk_circle 0 0 1 Tool.Low]
              [Tool.mk_circle 0 0 2 Tool.High; Tool.mk_circle 0 0 1 Tool.Low]
              [0] [0]) as (bands & bands' & Hb & Hb' & Hi).
  - discriminate.
  - intros c [<-|[]]. right. now left.
  - reflexivity.
  - exists bands, bands'. split; [exact Hb|]. split; [exact Hb'|].
    apply (Hi 0%nat). simpl. lia.
Defined.

(** ** Lookups in the postcode table *)

Lemma find_unique {A : Type} (key : A -> string) (rows : list A) (d : A)
  (i : nat) :
  NoDup (map key rows) -> (i < length rows)%nat ->
  find (fun r => String.eqb (key r) (key (nth i rows d))) rows
  = Some (nth i rows d).
Proof.
  revert i. induction rows as [|r rows IH]; intros i Hnd Hi;
    [simpl in Hi; lia|].
  inversion Hnd as [|k ks Hnotin Hnd']; subst.
  destruct i as [|i]; simpl.
  - now rewrite String.eqb_refl.
  - destruct (String.eqb_spec (key r) (key (nth i rows d))) as [E|E].
    + exfalso. apply Hnotin. rewrite E. apply in_map. apply nth_In.
      simpl in Hi. lia.
    + apply IH; [assumption | simpl in Hi; lia].
Qed.

Lemma find_filter_implies {A : Type} (P Q : A -> bool) (l : list A) :
  (forall r, P r = true -> Q r = true) -> find P (filter Q l) = find P l.
Proof.
  intros HPQ. induction l as [|r l IH]; simpl; [reflexivity|].
  destruct (Q r) eqn:HQ; simpl.
  - now rewrite IH.
  - destruct (P r) eqn:HP; [|assumption].
    rewrite (HPQ r HP) in HQ. discriminate.
Qed.

Lemma NoDup_map_filter {A : Type} (key : A -> string) (Q : A -> bool)
  (l : list A) :
  NoDup (map key l) -> NoDup (map key (filter Q l)).
Proof.
  induction l as [|r l IH]; simpl; intros Hnd; [constructor|].
  inversion Hnd as [|k ks Hnotin Hnd']; subst.
  destruct (Q r); simpl; [|auto].
  constructor; [|auto].
  intros Hin. apply Hnotin. apply in_map_iff in Hin.
  destruct Hin as (x & Hx & Hxin). apply in_map_iff. exists x.
  split; [assumption|]. apply filter_In in Hxin. tauto.
Qed.

Lemma NoDup_map_unique {A : Type} (key : A -> string) (l : list A)
  (x y : A) :
  NoDup (map key l) -> In x l -> In y l -> key x = key y -> x = y.
Proof.
  induction l as [|r l IH]; simpl; intros Hnd Hx Hy Hk; [contradiction|].
  inversion Hnd as [|k ks Hnotin Hnd']; subst.
  destruct Hx as [->|Hx], Hy as [->|Hy]; auto.
  - exfalso. apply Hnotin. rewrite Hk. now apply in_map.
  - exfalso. apply Hnotin. rewrite <- Hk. now apply in_map.
Qed.

Lemma isin_true (label : string) (a : list string) :
  Tool.isin label a = true <-> In label a.
Proof.
  unfold Tool.isin. rewrite existsb_exists. split.
  - intros (x & Hx & E). apply String.eqb_eq in E. now subst.
  - intros Hin. exists label. split; [assumption | apply String.eqb_refl].
Qed.

(** With unique postcodes in the table, the reindexed selection holds,
    for every requested label, the row of the table with that postcode. *)
Lemma reindex_loc_isin (dfp : list Tool.postcode_row) (a : list string) :
  NoDup (map Tool.Postcode dfp) ->
  exists l,
    Tool.reindex (Tool.loc_isin dfp a) a = Tool.Returns l
    /\ length l = length a
    /\ forall i, (i < length a)%nat ->
         nth i l None
         = find (fun r => String.eqb (Tool.Postcode r) (nth i a ""%string))
                dfp.
Proof.
  intros Hnd.
  assert (Hnd' : NoDup (map Tool.Postcode (Tool.loc_isin dfp a)))
    by now apply NoDup_map_filter.
  assert (Hfind : forall i, (i < length a)%nat ->
            find (fun r => String.eqb (Tool.Postcode r) (nth i a ""%string))
                 (Tool.loc_isin dfp a)
            = find (fun r => String.eqb (Tool.Postcode r)
                                        (nth i a ""%string)) dfp).
  { intros i Hi. apply find_filter_implies. intros r Hr.
    apply String.eqb_eq in Hr. apply isin_true. rewrite Hr.
    now apply nth_In. }
  unfold Tool.reindex.
  destruct (list_eq_dec string_dec _ a) as [E|E].
  - set (rows := Tool.loc_isin dfp a) in *.
    assert (Hl : length rows = length a)
      by (rewrite <- E; now rewrite length_map).
    eexists. split; [reflexivity|]. split; [now rewrite length_map|].
    intros i Hi. rewrite <- Hfind by assumption.
    set (d := Tool.mk_postcode_row ""%string 0 0 0 0 0).
    rewrite (nth_indep _ None (Some d)) by (rewrite length_map; lia).
    rewrite map_nth.
    assert (Hk : nth i a ""%string = Tool.Postcode (nth i rows d)).
    { rewrite <- E.
      rewrite (nth_indep _ ""%string (Tool.Postcode d))
        by (rewrite length_map; lia).
      apply map_nth. }
    rewrite Hk. symmetry. apply find_unique; [assumption | lia].
  - destruct (NoDup_dec string_dec _) as [_|Hdup]; [|contradiction].
    eexists. split; [reflexivity|]. split; [now rewrite length_map|].
    intros i Hi. rewrite <- Hfind by assumption.
    rewrite (nth_indep _ None
               (find (fun r => String.eqb (Tool.Postcode r) ""%string)
                     (Tool.loc_isin dfp a)))
      by (rewrite length_map; lia).
    now rewrite (map_nth
                   (fun label =>
                      find (fun r => String.eqb (Tool.Postcode r) label)
                           (Tool.loc_isin dfp a))).
Qed.

Lemma find_postcode_spec (dfp : list Tool.postcode_row) (label : string) :
  NoDup (map Tool.Postcode dfp) ->
  match find (fun r => String.eqb (Tool.Postcode r) label) dfp with
  | Some r => In r dfp /\ Tool.Postcode r = label
              /\ forall r', In r' dfp -> Tool.Postcode r' = label -> r' = r
  | None => forall r', In r' dfp -> Tool.Postcode r' <> label
  end.
Proof.
  intros Hnd.
  destruct (find _ dfp) as [r|] eqn:Hf.
  - apply find_some in Hf. destruct Hf as [Hin Hk].
    apply String.eqb_eq in Hk. repeat split; auto.
    intros r' Hin' Hk'.
    apply (NoDup_map_unique Tool.Postcode dfp); auto. congruence.
  - intros r' Hin' Hk'.
    pose proof (find_none _ _ Hf r' Hin') as Hn. cbv beta in Hn.
    rewrite Hk', String.eqb_refl in Hn. discriminate.
Qed.

(** The cost array of [get_flood_cost] for a table with unique postcodes. *)
Lemma get_flood_cost_lookup_aux (dfp : list Tool.postcode_row)
  (postcodes : list string) :
  NoDup (map Tool.Postcode dfp) ->
  exists cost,
    Tool.get_flood_cost dfp postcodes = Tool.Returns cost
    /\ length cost = length postcodes
    /\ forall i, (i < length postcodes)%nat ->
         (forall r, In r dfp ->
            Tool.Postcode r = nth i postcodes ""%string ->
            nth i cost 0 = Tool.Total_Value r)
         /\ ((forall r, In r dfp ->
                Tool.Postcode r <> nth i postcodes ""%string) ->
             nth i cost 0 = 0).
Proof.
  intros Hnd.
  destruct (reindex_loc_isin dfp postcodes Hnd) as (l & Hl & Hlen & Hnth).
  unfold Tool.get_flood_cost. rewrite Hl. cbn [Tool.obind].
  eexists. split; [reflexivity|]. split; [now rewrite length_map|].
  intros i Hi.
  set (g := fun row : option Tool.postcode_row =>
              match row with Some r => Tool.Total_Value r | None => 0 end).
  assert (Hv : nth i (map g l) 0 = g (nth i l None))
    by (change 0 with (g None) at 1; apply map_nth).
  rewrite Hv, Hnth by assumption.
  pose proof (find_postcode_spec dfp (nth i postcodes ""%string) Hnd) as Hs.
  destruct (find _ dfp) as [r|]; cbn [g].
  - destruct Hs as (Hin & Hk & Huniq). split.
    + intros r' Hin' Hk'. now rewrite (Huniq r' Hin' Hk').
    + intros Hno. exfalso. exact (Hno r Hin Hk).
  - split; [|reflexivity].
    intros r' Hin' Hk'. exfalso. exact (Hs r' Hin' Hk').
Qed.

(** X17.  For a postcode table with unique postcodes, [get_flood_cost]
    returns one cost per requested postcode, in the order requested: the
    total value of the table row with that postcode, and 0 (not NaN) for
    a postcode the table does not have. *)
Theorem get_flood_cost_lookup (dfp : list Tool.postcode_row)
  (postcodes : list string) :
  NoDup (map Tool.Postcode dfp) ->
  exists cost,
    Tool.get_flood_cost dfp postcodes = Tool.Returns cost
    /\ length cost = length postcodes
    /\ forall i, (i < length postcodes)%nat ->
         (forall r, In r dfp ->
            Tool.Postcode r = nth i postcodes ""%string ->
            nth i cost 0 = Tool.Total_Value r)
         /\ ((forall r, In r dfp ->
                Tool.Postcode r <> nth i postcodes ""%string) ->
             nth i cost 0 = 0).
Proof. exact (get_flood_cost_lookup_aux dfp postcodes). Qed.

Lemma get_flood_cost_lookup_witness :
  exists cost,
    Tool.get_flood_cost
      [Tool.mk_postcode_row "YO62 4LS" 54 (-1) 460000 480000 250000]
      ["AB1 2CD"; "YO62 4LS"]%string = Tool.Returns cost
    /\ nth 0 cost 0 = 0 /\ nth 1 cost 0 = 250000.
Proof.
  destruct (get_flood_cost_lookup
              [Tool.mk_postcode_row "YO62 4LS" 54 (-1) 460000 480000 250000]
              ["AB1 2CD"; "YO62 4LS"]%string)
    as (cost & Hc & _ & Hi).
  - repeat constructor. simpl. tauto.
  - exists cost. split; [exact Hc|]. split.
    + apply (Hi 0%nat); [simpl; lia|].
      intros r [<-|[]]. discriminate.
    + apply (proj1 (Hi 1%nat ltac:(simpl; lia))
               (Tool.mk_postcode_row "YO62 4LS" 54 (-1) 460000 480000
                                     250000)).
      * now left.
      * reflexivity.
Defined.

(** X18.  For a postcode table with unique postcodes, [get_lat_long]
    returns one pair per requested postcode, in the order requested: the
    latitude and longitude of the table row with that postcode, and the
    pair (NaN, NaN) for a postcode the table does not have. *)
Theorem get_lat_long_lookup (dfp : list Tool.postcode_row)
  (postcodes : list string) :
  NoDup (map Tool.Postcode dfp) ->
  exists pairs,
    Tool.get_lat_long dfp postcodes = Tool.Returns pairs
    /\ length pairs = length postcodes
    /\ forall i, (i < length postcodes)%nat ->
         (forall r, In r dfp ->
            Tool.Postcode r = nth i postcodes ""%string ->
            nth i pairs (None, None)
            = (Some (Tool.Latitude r), Some (Tool.Longitude r)))
         /\ ((forall r, In r dfp ->
                Tool.Postcode r <> nth i postcodes ""%string) ->
             nth i pairs (None, None) = (None, None)).
Proof.
  intros Hnd.
  destruct (reindex_loc_isin dfp postcodes Hnd) as (l & Hl & Hlen & Hnth).
  unfold Tool.get_lat_long. rewrite Hl. cbn [Tool.obind].
  eexists. split; [reflexivity|]. split; [now rewrite length_map|].
  intros i Hi.
  set (g := fun row : option Tool.postcode_row =>
              match row with
              | Some r => (Some (Tool.Latitude r), Some (Tool.Longitude r))
              | None => (None, None)
              end).
  assert (Hv : nth i (map g l) (None, None) = g (nth i l None))
    by (change (None, None) with (g None) at 1; apply map_nth).
  rewrite Hv, Hnth by assumption.
  pose proof (find_postcode_spec dfp (nth i postcodes ""%string) Hnd) as Hs.
  destruct (find _ dfp) as [r|]; cbn [g].
  - destruct Hs as (Hin & Hk & Huniq). split.
    + intros r' Hin' Hk'. now rewrite (Huniq r' Hin' Hk').
    + intros Hno. exfalso. exact (Hno r Hin Hk).
  - split; [|reflexivity].
    intros r' Hin' Hk'. exfalso. exact (Hs r' Hin' Hk').
Qed.

Lemma get_lat_long_lookup_witness :
  exists pairs,
    Tool.get_lat_long
      [Tool.mk_postcode_row "YO62 4LS" 54 (-1) 460000 480000 250000]
      ["AB1 2CD"; "YO62 4LS"]%string = Tool.Returns pairs
    /\ nth 0 pairs (None, None) = (None, None)
    /\ nth 1 pairs (None, None) = (Some 54, Some (-1)).
Proof.
  destruct (get_lat_long_lookup
              [Tool.mk_postcode_row "YO62 4LS" 54 (-1) 460000 480000 250000]
              ["AB1 2CD"; "YO62 4LS"]%string)
    as (pairs & Hc & _ & Hi).
  - repeat constructor. simpl. tauto.
  - exists pairs. split; [exact Hc|]. split.
    + apply (Hi 0%nat); [simpl; lia|].
      intros r [<-|[]]. discriminate.
    + apply (proj1 (Hi 1%nat ltac:(simpl; lia))
               (Tool.mk_postcode_row "YO62 4LS" 54 (-1) 460000 480000
                                     250000)).
      * now left.
      * reflexivity.
Defined.

(** ** Annual flood risk *)

Lemma risk_column_length (values : list (option R)) (cost : arr) :
  length values = length cost ->
  length (Tool.risk_column values cost) = length cost.
Proof.
  revert cost. induction values as [|v values IH]; intros [|c cost] Hl;
    simpl in *; try lia.
  rewrite IH; lia.
Qed.

Lemma risk_column_nth (values : list (option R)) (cost : arr) (i : nat) :
  length values = length cost -> (i < length cost)%nat ->
  nth i (Tool.risk_column values cost) None
  = option_map (fun p => p * nth i cost 0 * 0.05) (nth i values None).
Proof.
  revert cost i. induction values as [|v values IH]; intros [|c cost] i Hl Hi;
    simpl in *; try lia.
  destruct i as [|i]; [reflexivity|]. apply IH; lia.
Qed.

Lemma probs_values_cases (name : string) :
  (name = "Very Low"%string /\ Tool.probs_values name = Some (1 / 1000))
  \/ (name = "Low"%string /\ Tool.probs_values name = Some (1 / 100))
  \/ (name = "Medium"%string /\ Tool.probs_values name = Some (1 / 50))
  \/ (name = "High"%string /\ Tool.probs_values name = Some (1 / 10))
  \/ (name = "Zero"%string /\ Tool.probs_values name = Some 0)
  \/ (~ In name ["High"; "Medium"; "Low"; "Very Low"; "Zero"]%string
      /\ Tool.probs_values name = None).
Proof.
  unfold Tool.probs_values.
  destruct (String.eqb_spec name "Very Low") as [->|H1]; [now left|].
  destruct (String.eqb_spec name "Low") as [->|H2];
    [right; now left|].
  destruct (String.eqb_spec name "Medium") as [->|H3];
    [right; right; now left|].
  destruct (String.eqb_spec name "High") as [->|H4];
    [right; right; right; now left|].
  destruct (String.eqb_spec name "Zero") as [->|H5];
    [right; right; right; right; now left|].
  do 5 right. split; [|reflexivity].
  simpl. intros [E|[E|[E|[E|[E|[]]]]]]; congruence.
Qed.

(** The share of the total value that each band contributes per year:
    the probability of the band times 0.05. *)
Lemma annual_share (name : string) (value : R) :
  option_map (fun p => p * value * 0.05) (Tool.probs_values name)
  = if String.eqb name "High" then Some (value / 200)
    else if String.eqb name "Medium" then Some (value / 1000)
    else if String.eqb name "Low" then Some (value / 2000)
    else if String.eqb name "Very Low" then Some (value / 20000)
    else if String.eqb name "Zero" then Some 0
    else None.
Proof.
  destruct (probs_values_cases name)
    as [[-> ->]|[[-> ->]|[[-> ->]|[[-> ->]|[[-> ->]|[Hn ->]]]]]];
    cbn [option_map]; try (simpl; f_equal; lra).
  destruct (String.eqb_spec name "High") as [->|_];
    [exfalso; apply Hn; simpl; auto|].
  destruct (String.eqb_spec name "Medium") as [->|_];
    [exfalso; apply Hn; simpl; auto|].
  destruct (String.eqb_spec name "Low") as [->|_];
    [exfalso; apply Hn; simpl; auto|].
  destruct (String.eqb_spec name "Very Low") as [->|_];
    [exfalso; apply Hn; simpl; auto|].
  destruct (String.eqb_spec name "Zero") as [->|_];
    [exfalso; apply Hn; simpl; auto 6|].
  reflexivity.
Qed.

(** What [get_annual_flood_risk] returns on arrays of one length, entry by
    entry, in terms of the cost array of [get_flood_cost]. *)
Lemma annual_flood_risk_entries (dfp : list Tool.postcode_row)
  (postcodes bands : list string) (cost : arr) :
  length postcodes = length bands ->
  Tool.get_flood_cost dfp postcodes = Tool.Returns cost ->
  length cost = length postcodes ->
  exists risk,
    Tool.get_annual_flood_risk dfp postcodes bands = Tool.Returns risk
    /\ length risk = length postcodes
    /\ forall i, (i < length postcodes)%nat ->
         nth i risk None
         = option_map (fun p => p * nth i cost 0 * 0.05)
                      (Tool.probs_values (nth i bands ""%string)).
Proof.
  intros Hlen Hcost Hcl. unfold Tool.get_annual_flood_risk.
  rewrite (proj2 (Nat.eqb_eq _ _) Hlen), Hcost. cbn [Tool.obind].
  eexists. split; [reflexivity|].
  assert (Hvl : length (map Tool.probs_values bands) = length cost)
    by (rewrite length_map; lia).
  split; [rewrite risk_column_length; lia|].
  intros i Hi. rewrite risk_column_nth by lia. f_equal.
  rewrite (nth_indep _ None (Tool.probs_values ""%string))
    by (rewrite length_map; lia).
  apply map_nth.
Qed.

(** X19.  For a postcode table with unique postcodes and arrays of one
    length, [get_annual_flood_risk] returns one value per postcode.  The
    value is NaN exactly when the band is none of the five band names;
    for a postcode of the table it is the total value of the row divided
    by 200, 1000, 2000 and 20000 for High, Medium, Low and Very Low, and 0
    for Zero; for a postcode the table does not have it is 0 for every
    band name (not NaN). *)
Theorem annual_flood_risk_values (dfp : list Tool.postcode_row)
  (postcodes bands : list string) :
  NoDup (map Tool.Postcode dfp) ->
  length postcodes = length bands ->
  exists risk,
    Tool.get_annual_flood_risk dfp postcodes bands = Tool.Returns risk
    /\ length risk = length postcodes
    /\ forall i, (i < length postcodes)%nat ->
         (nth i risk None = None <->
          ~ In (nth i bands ""%string)
               ["High"; "Medium"; "Low"; "Very Low"; "Zero"]%string)
         /\ (forall r, In r dfp ->
               Tool.Postcode r = nth i postcodes ""%string ->
               (nth i bands ""%string = "High"%string ->
                nth i risk None = Some (Tool.Total_Value r / 200))
               /\ (nth i bands ""%string = "Medium"%string ->
                   nth i risk None = Some (Tool.Total_Value r / 1000))
               /\ (nth i bands ""%string = "Low"%string ->
                   nth i risk None = Some (Tool.Total_Value r / 2000))
               /\ (nth i bands ""%string = "Very Low"%string ->
                   nth i risk None = Some (Tool.Total_Value r / 20000))
               /\ (nth i bands ""%string = "Zero"%string ->
                   nth i risk None = Some 0))
         /\ ((forall r, In r dfp ->
                Tool.Postcode r <> nth i postcodes ""%string) ->
             In (nth i bands ""%string)
                ["High"; "Medium"; "Low"; "Very Low"; "Zero"]%string ->
             nth i risk None = Some 0).
Proof.
  intros Hnd Hlen.
  destruct (get_flood_cost_lookup_aux dfp postcodes Hnd)
    as (cost & Hcost & Hcl & Hc).
  destruct (annual_flood_risk_entries dfp postcodes bands cost Hlen Hcost Hcl)
    as (risk & Hrisk & Hrl & Hr).
  exists risk. split; [exact Hrisk|]. split; [exact Hrl|].
  intros i Hi. rewrite (Hr i Hi), annual_share.
  destruct (Hc i Hi) as [Hhave Hmiss].
  set (band := nth i bands ""%string).
  split; [|split].
  - destruct (probs_values_cases band)
      as [[E _]|[[E _]|[[E _]|[[E _]|[[E _]|[Hn _]]]]]];
      try (rewrite E; simpl; split; [discriminate|];
           intros Hno; exfalso; apply Hno; auto 6).
    split; [intros _; exact Hn|]. intros _.
    destruct (String.eqb_spec band "High") as [E|_];
      [exfalso; apply Hn; rewrite E; simpl; auto|].
    destruct (String.eqb_spec band "Medium") as [E|_];
      [exfalso; apply Hn; rewrite E; simpl; auto|].
    destruct (String.eqb_spec band "Low") as [E|_];
      [exfalso; apply Hn; rewrite E; simpl; auto|].
    destruct (String.eqb_spec band "Very Low") as [E|_];
      [exfalso; apply Hn; rewrite E; simpl; auto|].
    destruct (String.eqb_spec band "Zero") as [E|_];
      [exfalso; apply Hn; rewrite E; simpl; auto 6|].
    reflexivity.
  - intros r Hin Hk. rewrite (Hhave r Hin Hk).
    repeat split; intros E; rewrite E; reflexivity.
  - intros Hno Hband. rewrite (Hmiss Hno).
    simpl in Hband.
    destruct Hband as [E|[E|[E|[E|[E|[]]]]]]; rewrite <- E; simpl;
      f_equal; lra.
Qed.

Lemma annual_flood_risk_values_witness :
  exists risk,
    Tool.get_annual_flood_risk
      [Tool.mk_postcode_row "YO62 4LS" 54 (-1) 460000 480000 250000]
      ["YO62 4LS"; "AB1 2CD"]%string ["High"; "Medium"]%string
    = Tool.Returns risk
    /\ nth 0 risk None = Some (250000 / 200)
    /\ nth 1 risk None = Some 0.
Proof.
  destruct (annual_flood_risk_values
              [Tool.mk_postcode_row "YO62 4LS" 54 (-1) 460000 480000 250000]
              ["YO62 4LS"; "AB1 2CD"]%string ["High"; "Medium"]%string)
    as (risk & Hr & _ & Hi).
  - repeat constructor. simpl. tauto.
  - reflexivity.
  - exists risk. split; [exact Hr|]. split.
    + destruct (Hi 0%nat ltac:(simpl; lia)) as (_ & Hhave & _).
      apply (Hhave (Tool.mk_postcode_row "YO62 4LS" 54 (-1) 460000 480000
                                         250000));
        [now left | reflexivity | reflexivity].
    + destruct (Hi 1%nat ltac:(simpl; lia)) as (_ & _ & Hmiss).
      apply Hmiss.
      * intros r [<-|[]]. discriminate.
      * simpl. auto.
Defined.

Lemma apply_rows_inv {A B : Type} (f : A -> Tool.outcome B)
  (rows : list A) (bs : list B) (da : A) (db : B) :
  Tool.apply_rows f rows = Tool.Returns bs ->
  length bs = length rows
  /\ forall i, (i < length rows)%nat ->
       f (nth i rows da) = Tool.Returns (nth i bs db).
Proof.
  revert bs. induction rows as [|r rows IH]; intros bs H.
  - injection H as <-. split; [reflexivity|]. intros i Hi. simpl in Hi. lia.
  - cbn [Tool.apply_rows] in H.
    destruct (f r) as [b|e] eqn:Hb; cbn [Tool.obind] in H; [|discriminate].
    destruct (Tool.apply_rows f rows) as [bs'|e] eqn:Hbs;
      cbn [Tool.obind] in H; [|discriminate].
    injection H as <-. destruct (IH bs' eq_refl) as [Hl Hnth].
    split; [simpl; lia|].
    intros [|i] Hi; simpl; [assumption|]. apply Hnth. simpl in Hi. lia.
Qed.

Lemma get_probs_band (dff : list Tool.circle) (row : R * R) (name : string) :
  Tool.get_probs dff row = Tool.Returns name ->
  In name ["High"; "Medium"; "Low"; "Very Low"; "Zero"]%string.
Proof.
  unfold Tool.get_probs.
  destruct (Tool.np_max _) as [k|e]; cbn [Tool.obind]; [|discriminate].
  destruct k as [|[|[|[|[|k]]]]]; simpl; intros H;
    try discriminate; injection H as <-; auto 6.
Qed.

(** Whatever [get_easting_northing_flood_probability] returns is one band
    name per location. *)
Lemma flood_probability_bands (dff : list Tool.circle)
  (easting northing : arr) (bands : list string) :
  Tool.get_easting_northing_flood_probability dff easting northing
  = Tool.Returns bands ->
  length bands = length easting
  /\ forall i, (i < length easting)%nat ->
       In (nth i bands ""%string)
          ["High"; "Medium"; "Low"; "Very Low"; "Zero"]%string.
Proof.
  unfold Tool.get_easting_northing_flood_probability.
  destruct (Nat.eqb_spec (length easting) (length northing)) as [Hl|];
    [|discriminate].
  intros H.
  destruct (apply_rows_inv _ _ _ (0, 0) ""%string H) as [Hlen Hnth].
  rewrite length_combine in Hlen, Hnth.
  split; [lia|]. intros i Hi.
  apply (get_probs_band dff (nth i (combine easting northing) (0, 0))).
  apply Hnth. lia.
Qed.

(** X20.  The bands that [get_easting_northing_flood_probability] returns
    are always accepted by [get_annual_flood_risk]: for a postcode table
    with unique postcodes and total values that are not negative, and as
    many postcodes as locations, the annual risk has no NaN entry; every
    entry lies between 0 and one two-hundredth of the total value of the
    postcode's row, and is 0 for a postcode the table does not have. *)
Theorem annual_flood_risk_of_flood_probability (dff : list Tool.circle)
  (dfp : list Tool.postcode_row) (postcodes : list string)
  (easting northing : arr) (bands : list string) :
  NoDup (map Tool.Postcode dfp) ->
  (forall r, In r dfp -> 0 <= Tool.Total_Value r) ->
  length postcodes = length easting ->
  Tool.get_easting_northing_flood_probability dff easting northing
  = Tool.Returns bands ->
  exists risk,
    Tool.get_annual_flood_risk dfp postcodes bands = Tool.Returns risk
    /\ length risk = length postcodes
    /\ forall i, (i < length postcodes)%nat ->
         exists x, nth i risk None = Some x
           /\ 0 <= x
           /\ (forall r, In r dfp ->
                 Tool.Postcode r = nth i postcodes ""%string ->
                 x <= Tool.Total_Value r / 200)
           /\ ((forall r, In r dfp ->
                  Tool.Postcode r <> nth i postcodes ""%string) -> x = 0).
Proof.
  intros Hnd Hpos Hlen Hbands.
  destruct (flood_probability_bands dff easting northing bands Hbands)
    as [Hbl Hin].
  destruct (get_flood_cost_lookup_aux dfp postcodes Hnd)
    as (cost & Hcost & Hcl & Hc).
  destruct (annual_flood_risk_entries dfp postcodes bands cost
              ltac:(lia) Hcost Hcl) as (risk & Hrisk & Hrl & Hr).
  exists risk. split; [exact Hrisk|]. split; [exact Hrl|].
  intros i Hi. rewrite (Hr i Hi), annual_share.
  destruct (Hc i Hi) as [Hhave Hmiss].
  specialize (Hin i ltac:(lia)).
  set (band := nth i bands ""%string) in *.
  set (c := nth i cost 0) in *.
  assert (Hc0 : 0 <= c).
  { pose proof (find_postcode_spec dfp (nth i postcodes ""%string) Hnd) as Hs.
    destruct (find _ dfp) as [r|].
    - destruct Hs as (Hrin & Hk & _). rewrite (Hhave r Hrin Hk). auto.
    - rewrite (Hmiss Hs). lra. }
  assert (Hx : exists x,
             (if String.eqb band "High" then Some (c / 200)
              else if String.eqb band "Medium" then Some (c / 1000)
              else if String.eqb band "Low" then Some (c / 2000)
              else if String.eqb band "Very Low" then Some (c / 20000)
              else if String.eqb band "Zero" then Some 0
              else None) = Some x /\ 0 <= x <= c / 200).
  { simpl in Hin.
    destruct Hin as [E|[E|[E|[E|[E|[]]]]]]; rewrite <- E; simpl;
      eexists; (split; [reflexivity|]); lra. }
  destruct Hx as (x & -> & Hx0 & Hxc).
  exists x. split; [reflexivity|]. split; [exact Hx0|]. split.
  - intros r Hrin Hk. rewrite <- (Hhave r Hrin Hk). exact Hxc.
  - intros Hno. rewrite (Hmiss Hno) in Hxc. lra.
Qed.

Lemma annual_flood_risk_of_flood_probability_witness :
  exists risk,
    Tool.get_annual_flood_risk
      [Tool.mk_postcode_row "YO62 4LS" 54 (-1) 460000 480000 250000]
      ["YO62 4LS"]%string ["High"]%string = Tool.Returns risk
    /\ exists x, nth 0 risk None = Some x /\ 0 <= x.
Proof.
  destruct (annual_flood_risk_of_flood_probability
              [Tool.mk_circle 460000 480000 100 Tool.High]
              [Tool.mk_postcode_row "YO62 4LS" 54 (-1) 460000 480000 250000]
              ["YO62 4LS"]%string [460000] [480000] ["High"]%string)
    as (risk & Hr & _ & Hi).
  - repeat constructor. simpl. tauto.
  - intros r [<-|[]]. simpl. lra.
  - reflexivity.
  - unfold Tool.get_easting_northing_flood_probability. simpl.
    unfold Tool.get_probs, Tool.circles, Tool.dist. simpl.
    destruct (Rle_dec _ _) as [_|Hn]; [reflexivity|].
    exfalso. apply Hn.
    replace ((460000 - 460000) * ((460000 - 460000) * 1)
             + (480000 - 480000) * ((480000 - 480000) * 1)) with 0 by ring.
    rewrite sqrt_0. lra.
  - exists risk. split; [exact Hr|].
    destruct (Hi 0%nat ltac:(simpl; lia)) as (x & Hx & Hx0 & _).
    exists x. split; assumption.
Defined.

(** ** The stored form of a postcode *)

Lemma remove_spaces_cons_inv (x : string) (c : ascii) (s : string) :
  Tool.remove_spaces x = String c s ->
  Ascii.eqb c " " = false /\ exists x', Tool.remove_spaces x' = s.
Proof.
  induction x as [|a x IH]; simpl; [discriminate|].
  destruct (Ascii.eqb a " ") eqn:Ha; [exact IH|].
  intros H. injection H as <- <-. split; [exact Ha | now exists x].
Qed.

Lemma remove_spaces_fixed (s : string) :
  (exists x, Tool.remove_spaces x = s) -> Tool.remove_spaces s = s.
Proof.
  induction s as [|c s IH]; intros [x Hx]; [reflexivity|].
  destruct (remove_spaces_cons_inv x c s Hx) as [Hc Hs].
  simpl. rewrite Hc. now rewrite (IH Hs).
Qed.

(** X21.  [Tool.__init__] keeps the characters of every postcode that does
    not have exactly five characters other than spaces: removing the
    spaces from the stored postcode gives the postcode of the file without
    its spaces.  A postcode with six such characters is stored in seven
    characters, with one space after the third. *)
Theorem init_postcode_keeps_characters (x : string) :
  String.length (Tool.remove_spaces x) <> 5%nat ->
  Tool.remove_spaces (Tool.init_postcode x) = Tool.remove_spaces x
  /\ (String.length (Tool.remove_spaces x) = 6%nat ->
      String.length (Tool.init_postcode x) = 7%nat
      /\ String.get 3 (Tool.init_postcode x) = Some " "%char)
  /\ (String.length (Tool.remove_spaces x) <> 6%nat ->
      Tool.init_postcode x = Tool.remove_spaces x).
Proof.
  intros H5. unfold Tool.init_postcode.
  assert (Hfix : exists x', Tool.remove_spaces x' = Tool.remove_spaces x)
    by now exists x.
  set (s := Tool.remove_spaces x) in *.
  destruct (Nat.eq_dec (String.length s) 6) as [H6|H6].
  - destruct s as [|c0 [|c1 [|c2 [|c3 [|c4 [|c5 [|c6 s]]]]]]];
      try discriminate.
    destruct Hfix as [x0 Hx0].
    destruct (remove_spaces_cons_inv _ _ _ Hx0) as [E0 [x1 Hx1]].
    destruct (remove_spaces_cons_inv _ _ _ Hx1) as [E1 [x2 Hx2]].
    destruct (remove_spaces_cons_inv _ _ _ Hx2) as [E2 [x3 Hx3]].
    destruct (remove_spaces_cons_inv _ _ _ Hx3) as [E3 [x4 Hx4]].
    destruct (remove_spaces_cons_inv _ _ _ Hx4) as [E4 [x5 Hx5]].
    destruct (remove_spaces_cons_inv _ _ _ Hx5) as [E5 _].
    cbn. rewrite E0, E1, E2, E3, E4, E5.
    split; [reflexivity|]. split; [auto | intros Hn; now elim Hn].
  - assert (E6 : Tool.format_6 s = s).
    { unfold Tool.format_6.
      now rewrite (proj2 (Nat.eqb_neq _ _) H6). }
    assert (E5 : Tool.format_5 s = s).
    { unfold Tool.format_5.
      now rewrite (proj2 (Nat.eqb_neq _ _) H5). }
    rewrite E6, E5. split; [now apply remove_spaces_fixed|].
    split; [intros Hn; contradiction | reflexivity].
Qed.

Lemma init_postcode_keeps_characters_witness :
  Tool.remove_spaces (Tool.init_postcode "DE2  3DA")
  = Tool.remove_spaces "DE2  3DA"
  /\ Tool.init_postcode "DE2  3DA" = "DE2 3DA"%string.
Proof.
  destruct (init_postcode_keeps_characters "DE2  3DA") as (H1 & H2 & _).
  - simpl. discriminate.
  - split; [exact H1 | reflexivity].
Defined.

(** X22.  A postcode with exactly five characters other than spaces is
    damaged by [Tool.__init__]: the stored postcode still has five
    characters, the first, second and fifth of the postcode without its
    spaces with two spaces between them, so the third and the fourth
    character are lost and removing the spaces from the stored postcode
    leaves three characters only. *)
Theorem init_postcode_five_characters (x : string) :
  String.length (Tool.remove_spaces x) = 5%nat ->
  String.length (Tool.init_postcode x) = 5%nat
  /\ String.get 0 (Tool.init_postcode x)
     = String.get 0 (Tool.remove_spaces x)
  /\ String.get 1 (Tool.init_postcode x)
     = String.get 1 (Tool.remove_spaces x)
  /\ String.get 2 (Tool.init_postcode x) = Some " "%char
  /\ String.get 3 (Tool.init_postcode x) = Some " "%char
  /\ String.get 4 (Tool.init_postcode x)
     = String.get 4 (Tool.remove_spaces x)
  /\ String.length (Tool.remove_spaces (Tool.init_postcode x)) = 3%nat.
Proof.
  intros H5. unfold Tool.init_postcode.
  assert (Hfix : exists x', Tool.remove_spaces x' = Tool.remove_spaces x)
    by now exists x.
  set (s := Tool.remove_spaces x) in *.
  destruct s as [|c0 [|c1 [|c2 [|c3 [|c4 [|c5 s]]]]]]; try discriminate.
  destruct Hfix as [x0 Hx0].
  destruct (remove_spaces_cons_inv _ _ _ Hx0) as [E0 [x1 Hx1]].
  destruct (remove_spaces_cons_inv _ _ _ Hx1) as [E1 [x2 Hx2]].
  destruct (remove_spaces_cons_inv _ _ _ Hx2) as [E2 [x3 Hx3]].
  destruct (remove_spaces_cons_inv _ _ _ Hx3) as [E3 [x4 Hx4]].
  destruct (remove_spaces_cons_inv _ _ _ Hx4) as [E4 _].
  cbn. rewrite E0, E1, E4. cbn. repeat split; reflexivity.
Qed.

Lemma init_postcode_five_characters_witness :
  Tool.init_postcode "M1 1AE" = "M1  E"%string
  /\ String.length (Tool.remove_spaces (Tool.init_postcode "M1 1AE")) = 3%nat.
Proof.
  destruct (init_postcode_five_characters "M1 1AE")
    as (_ & _ & _ & _ & _ & _ & H).
  - reflexivity.
  - split; [reflexivity | exact H].
Defined.

(** * Properties of the warning chain and of the quadrants *)

Lemma lt_b_true (u v : R) : lt_b u v = true <-> u < v.
Proof.
  unfold lt_b. destruct (Rlt_dec u v); split; auto; discriminate.
Qed.

Lemma lt_b_false (u v : R) : lt_b u v = false <-> v <= u.
Proof.
  unfold lt_b. destruct (Rlt_dec u v); split; auto; try discriminate; lra.
Qed.

Lemma le_b_true (u v : R) : le_b u v = true <-> u <= v.
Proof.
  unfold le_b. destruct (Rle_dec u v); split; auto; discriminate.
Qed.

Lemma le_b_false (u v : R) : le_b u v = false <-> v < u.
Proof.
  unfold le_b. destruct (Rle_dec u v); split; auto; try discriminate; lra.
Qed.

Ltac split_tests :=
  repeat match goal with
         | |- context [lt_b ?u ?v] =>
             let H := fresh "T" in
             destruct (lt_b u v) eqn:H;
             [apply lt_b_true in H | apply lt_b_false in H]
         | |- context [le_b ?u ?v] =>
             let H := fresh "T" in
             destruct (le_b u v) eqn:H;
             [apply le_b_true in H | apply le_b_false in H]
         end.

(** The chain on each of the five band names, and on any other string. *)
Lemma warning_for_cases (s : string) (v : R) :
  (s = "Zero"%string /\ warning_for s v = Some "No Risk"%string)
  \/ (s = "Very Low"%string
      /\ warning_for s v
         = if lt_b v 3 then Some "No Risk"%string
           else if lt_b 3 v then Some "Yellow Warning, Medium Risk"%string
           else None)
  \/ (s = "Low"%string
      /\ warning_for s v
         = if le_b v 2 then Some "No Risk"%string
           else if lt_b 2 v && lt_b v 3
           then Some "Yellow Warning, Medium Risk"%string
           else if le_b 3 v then Some "Yellow Waring, Medium Risk"%string
           else None)
  \/ (s = "Medium"%string
      /\ warning_for s v
         = if lt_b v 2 then Some "No Risk"%string
           else if lt_b 2 v && lt_b v 3
           then Some "Yellow Warning, Medium Risk"%string
           else if le_b 3 v then Some "Red Warning, High Risk"%string
           else None)
  \/ (s = "High"%string
      /\ warning_for s v
         = if lt_b v 2 then Some "Yellow Warning, Medium Risk"%string
           else if le_b 2 v then Some "Red warning, High Risk"%string
           else None)
  \/ (~ In s ["High"; "Medium"; "Low"; "Very Low"; "Zero"]%string
      /\ warning_for s v = None).
Proof.
  unfold warning_for.
  destruct (String.eqb_spec s "Zero") as [->|H1]; [now left|].
  destruct (String.eqb_spec s "Very Low") as [->|H2]; [right; now left|].
  destruct (String.eqb_spec s "Low") as [->|H3];
    [right; right; now left|].
  destruct (String.eqb_spec s "Medium") as [->|H4];
    [right; right; right; now left|].
  destruct (String.eqb_spec s "High") as [->|H5];
    [right; right; right; right; now left|].
  do 5 right. split; [|reflexivity].
  simpl. intros [E|[E|[E|[E|[E|[]]]]]]; congruence.
Qed.

(** X23.  When the chain of [step3_api.py] prints nothing: for a risk that
    is a float (as the result of [get_annual_flood_risk] is), for a string
    that is none of the five band names, for Very Low with a reading of
    exactly 3, and for Medium with a reading of exactly 2; in every other
    case one message is printed. *)
Theorem warning_silent (risk : pyvalue) (station_value : R) :
  warning risk station_value = None <->
  (exists x, risk = PyFloat x)
  \/ exists s, risk = PyStr s
       /\ (~ In s ["High"; "Medium"; "Low"; "Very Low"; "Zero"]%string
           \/ (s = "Very Low"%string /\ station_value = 3)
           \/ (s = "Medium"%string /\ station_value = 2)).
Proof.
  destruct risk as [s|x]; cbn [warning].
  2:{ split; [intros _; left; now exists x | reflexivity]. }
  assert (Hin : forall t, In t ["High"; "Medium"; "Low"; "Very Low";
                                "Zero"]%string ->
                          ~ ~ In t ["High"; "Medium"; "Low"; "Very Low";
                                    "Zero"]%string) by tauto.
  split.
  - intros Hw. right. exists s. split; [reflexivity|].
    destruct (warning_for_cases s station_value)
      as [[E W]|[[E W]|[[E W]|[[E W]|[[E W]|[Hn W]]]]]];
      rewrite W in Hw; clear W.
    + discriminate.
    + right; left. split; [assumption|]. revert Hw. split_tests;
        (discriminate || (intros _; lra)).
    + exfalso. revert Hw. split_tests; cbn [andb];
        (discriminate || (intros _; lra)).
    + right; right. split; [assumption|]. revert Hw. split_tests; cbn [andb];
        (discriminate || (intros _; lra)).
    + exfalso. revert Hw. split_tests; (discriminate || (intros _; lra)).
    + now left.
  - intros [[x Hx]|(t & Ht & Hc)]; [discriminate|].
    injection Ht as <-.
    destruct (warning_for_cases s station_value)
      as [[E W]|[[E W]|[[E W]|[[E W]|[[E W]|[Hn W]]]]]];
      rewrite W; clear W; try reflexivity;
      (destruct Hc as [Hc|[[Hs Hv]|[Hs Hv]]];
       [exfalso; apply Hc; rewrite E; simpl; auto 6
       |try (rewrite E in Hs; discriminate)
       |try (rewrite E in Hs; discriminate)]).
    + split_tests; (reflexivity || lra).
    + split_tests; cbn [andb]; (reflexivity || lra).
Qed.

(** X24.  A red warning, in either of its two spellings, is printed only
    for the band Medium with a reading of at least 3 and for the band High
    with a reading of at least 2, and in each of these cases it is
    printed. *)
Theorem red_warning_cases (risk : pyvalue) (station_value : R) :
  (warning risk station_value = Some "Red Warning, High Risk"%string
   \/ warning risk station_value = Some "Red warning, High Risk"%string)
  <-> (risk = PyStr "Medium" /\ 3 <= station_value)
      \/ (risk = PyStr "High" /\ 2 <= station_value).
Proof.
  destruct risk as [s|x]; cbn [warning].
  2:{ split; [intros [H|H]; discriminate | intros [[H _]|[H _]];
                                            discriminate]. }
  destruct (warning_for_cases s station_value)
    as [[E W]|[[E W]|[[E W]|[[E W]|[[E W]|[Hn W]]]]]];
    rewrite W; clear W; try subst s.
  - split; [intros [H|H]; discriminate
           |intros [[H _]|[H _]]; discriminate].
  - split; [split_tests; intros [H|H]; discriminate
           |intros [[H _]|[H _]]; discriminate].
  - split; [split_tests; cbn [andb]; intros [H|H]; discriminate
           |intros [[H _]|[H _]]; discriminate].
  - split.
    + split_tests; cbn [andb]; intros [H|H]; try discriminate;
        left; (split; [reflexivity | lra]).
    + intros [[_ Hv]|[H _]]; [|discriminate].
      left. split_tests; cbn [andb]; (reflexivity || lra).
  - split.
    + split_tests; intros [H|H]; try discriminate;
        right; (split; [reflexivity | lra]).
    + intros [[H _]|[_ Hv]]; [discriminate|].
      right. split_tests; (reflexivity || lra).
  - split; [intros [H|H]; discriminate|].
    intros [[H _]|[H _]]; injection H as ->; exfalso; apply Hn; simpl; auto.
Qed.

(** ** Quadrants *)

Ltac coordinates :=
  repeat match goal with
         | H : exists _, _ |- _ => destruct H
         | H : _ /\ _ |- _ => destruct H
         | H : _ \/ _ |- _ => destruct H
         | H : Some _ = Some _ |- _ => injection H as H; subst
         | H : None = Some _ |- _ => discriminate H
         | H : Some _ = None |- _ => discriminate H
         end.

(** A reading either has both coordinates, off both limit lines, or it
    lacks a coordinate or lies on a limit line. *)
Lemma reading_placed_or_not (r : reading) (easting_lim northing_lim : R) :
  (exists nn ee, northing r = Some nn /\ easting r = Some ee
                 /\ nn <> northing_lim /\ ee <> easting_lim)
  \/ (northing r = None \/ easting r = None
      \/ northing r = Some northing_lim \/ easting r = Some easting_lim).
Proof.
  destruct (northing r) as [nn|]; [|right; now left].
  destruct (easting r) as [ee|]; [|right; right; now left].
  destruct (Req_dec nn northing_lim) as [->|Hn];
    [right; right; right; now left|].
  destruct (Req_dec ee easting_lim) as [->|He];
    [right; right; right; now right|].
  left. now exists nn, ee.
Qed.

Lemma quadrant_count (r : reading) (easting_lim northing_lim : R) :
  let ne := above (northing r) northing_lim
            && above (easting r) easting_lim in
  let se := below (northing r) northing_lim
            && above (easting r) easting_lim in
  let nw := above (northing r) northing_lim
            && below (easting r) easting_lim in
  let sw := below (northing r) northing_lim
            && below (easting r) easting_lim in
  ((exists nn ee, northing r = Some nn /\ easting r = Some ee
                  /\ nn <> northing_lim /\ ee <> easting_lim) ->
   (Nat.b2n ne + Nat.b2n se + Nat.b2n nw + Nat.b2n sw = 1)%nat)
  /\ ((northing r = None \/ easting r = None
       \/ northing r = Some northing_lim \/ easting r = Some easting_lim) ->
      ne = false /\ se = false /\ nw = false /\ sw = false)
  /\ (ne = true -> se = false /\ nw = false /\ sw = false)
  /\ (se = true -> nw = false /\ sw = false)
  /\ (nw = true -> sw = false).
Proof.
  cbv zeta.
  destruct (northing r) as [nn|], (easting r) as [ee|];
    cbn [above below]; split_tests; cbn [andb Nat.b2n Nat.add];
    repeat split; intros; coordinates;
    try reflexivity; try discriminate; lra.
Qed.

Lemma not_in_filter {A : Type} (f : A -> bool) (l : list A) (x : A) :
  f x = false -> ~ In x (filter f l).
Proof. intros Hf Hin. apply filter_In in Hin. destruct Hin. congruence. Qed.

Lemma length_filter_cons {A : Type} (f : A -> bool) (x : A) (l : list A) :
  length (filter f (x :: l)) = (Nat.b2n (f x) + length (filter f l))%nat.
Proof. simpl. now destruct (f x). Qed.

(** X25.  The four quadrants of [historic_API] never share a reading.  A
    reading that lacks its northing or its easting (the station record
    gave none), or whose northing equals [northing_lim] or whose easting
    equals [easting_lim], is in none of them; every other reading of the
    table is in one.  So the four quadrants together hold at most as many
    readings as the table, and all of them exactly when every reading has
    both coordinates and none lies on a limit line. *)
Theorem quadrants_partition (historic_rain : list reading)
  (easting_lim northing_lim : R) :
  let NE := northeast historic_rain easting_lim northing_lim in
  let SE := southeast historic_rain easting_lim northing_lim in
  let NW := northwest historic_rain easting_lim northing_lim in
  let SW := southwest historic_rain easting_lim northing_lim in
  (forall r, (In r NE -> ~ In r SE /\ ~ In r NW /\ ~ In r SW)
             /\ (In r SE -> ~ In r NW /\ ~ In r SW)
             /\ (In r NW -> ~ In r SW))
  /\ (forall r, northing r = None \/ easting r = None
                \/ northing r = Some northing_lim
                \/ easting r = Some easting_lim ->
                ~ In r NE /\ ~ In r SE /\ ~ In r NW /\ ~ In r SW)
  /\ (forall r nn ee, In r historic_rain ->
                northing r = Some nn -> easting r = Some ee ->
                nn <> northing_lim -> ee <> easting_lim ->
                In r NE \/ In r SE \/ In r NW \/ In r SW)
  /\ (length NE + length SE + length NW + length SW
      <= length historic_rain)%nat
  /\ ((length NE + length SE + length NW + length SW
       = length historic_rain)%nat
      <-> forall r, In r historic_rain ->
            exists nn ee, northing r = Some nn /\ easting r = Some ee
                          /\ nn <> northing_lim /\ ee <> easting_lim).
Proof.
  cbv zeta. unfold northeast, southeast, northwest, southwest.
  split; [|split; [|split]].
  - intros r.
    destruct (quadrant_count r easting_lim northing_lim)
      as (_ & _ & Hne & Hse & Hnw). cbv zeta in *.
    split; [|split]; intros Hin; apply filter_In in Hin;
      destruct Hin as [_ Hin].
    + destruct (Hne Hin) as (H1 & H2 & H3).
      repeat split; now apply not_in_filter.
    + destruct (Hse Hin) as (H1 & H2).
      repeat split; now apply not_in_filter.
    + now apply not_in_filter, Hnw.
  - intros r Hline.
    destruct (quadrant_count r easting_lim northing_lim)
      as (_ & Hon & _). cbv zeta in *.
    destruct (Hon Hline) as (H1 & H2 & H3 & H4).
    repeat split; now apply not_in_filter.
  - intros r nn ee Hin Hnn Hee Hn He.
    destruct (quadrant_count r easting_lim northing_lim)
      as (Hoff & _). cbv zeta in *.
    assert (Hone := Hoff (ex_intro _ nn (ex_intro _ ee
                            (conj Hnn (conj Hee (conj Hn He)))))).
    rewrite !filter_In.
    destruct (above (northing r) northing_lim
              && above (easting r) easting_lim); [tauto|].
    destruct (below (northing r) northing_lim
              && above (easting r) easting_lim); [tauto|].
    destruct (above (northing r) northing_lim
              && below (easting r) easting_lim); [tauto|].
    destruct (below (northing r) northing_lim
              && below (easting r) easting_lim); [tauto|].
    simpl in Hone. lia.
  - induction historic_rain as [|r l IH].
    + simpl. split; [lia|]. split; [intros _ r []| reflexivity].
    + destruct IH as [IHle IHeq].
      rewrite !length_filter_cons. cbn [length].
      destruct (quadrant_count r easting_lim northing_lim)
        as (Hoff & Hon & _). cbv zeta in *.
      destruct (reading_placed_or_not r easting_lim northing_lim)
        as [Hplaced|Hnot].
      * specialize (Hoff Hplaced). split; [lia|]. split.
        -- intros Hsum r' [<-|Hr']; [assumption|].
           apply IHeq; [lia | assumption].
        -- intros Hall.
           assert (Hl : forall r', In r' l ->
                          exists nn ee,
                            northing r' = Some nn /\ easting r' = Some ee
                            /\ nn <> northing_lim /\ ee <> easting_lim)
             by (intros r' Hr'; apply Hall; now right).
           apply IHeq in Hl. lia.
      * destruct (Hon Hnot) as (-> & -> & -> & ->).
        cbn [Nat.b2n]. split; [lia|]. split; [lia|].
        intros Hall. exfalso.
        destruct (Hall r (or_introl eq_refl))
          as (nn & ee & Hnn & Hee & Hn & He).
        destruct Hnot as [E|[E|[E|E]]]; congruence.
Qed.

(** * Properties of the sorted flood probabilities *)

(** ** The stable sort *)

Lemma insert_sorted_perm {A : Type} (before : A -> A -> bool) (x : A)
  (l : list A) :
  Permutation (Tool.insert_sorted before x l) (x :: l).
Proof.
  induction l as [|y l IH]; simpl; [reflexivity|].
  destruct (before x y); [reflexivity|].
  rewrite IH. apply perm_swap.
Qed.

Lemma stable_sort_perm {A : Type} (before : A -> A -> bool) (l : list A) :
  Permutation (Tool.stable_sort before l) l.
Proof.
  induction l as [|x l IH]; simpl; [reflexivity|].
  rewrite insert_sorted_perm. now constructor.
Qed.

Lemma insert_sorted_sorted {A : Type} (before : A -> A -> bool) (x : A)
  (l : list A) :
  (forall u v, before u v = true \/ before v u = true) ->
  Sorted (fun u v => before u v = true) l ->
  Sorted (fun u v => before u v = true) (Tool.insert_sorted before x l).
Proof.
  intros Htot. induction l as [|y l IH]; intros Hs; simpl.
  - repeat constructor.
  - destruct (before x y) eqn:Hxy.
    + constructor; [assumption|]. now constructor.
    + inversion Hs as [|? ? Hs' Hhd]; subst.
      constructor; [now apply IH|].
      destruct l as [|z l]; simpl.
      * constructor. destruct (Htot x y); congruence.
      * destruct (before x z).
        -- constructor. destruct (Htot x y); congruence.
        -- constructor. now inversion Hhd.
Qed.

Lemma stable_sort_sorted {A : Type} (before : A -> A -> bool) (l : list A) :
  (forall u v, before u v = true \/ before v u = true) ->
  Sorted (fun u v => before u v = true) (Tool.stable_sort before l).
Proof.
  intros Htot. induction l as [|x l IH]; simpl; [constructor|].
  now apply insert_sorted_sorted.
Qed.

Lemma Sorted_adjacent {A : Type} (R : A -> A -> Prop) (l : list A) (d : A) :
  Sorted R l ->
  forall i, (S i < length l)%nat -> R (nth i l d) (nth (S i) l d).
Proof.
  induction 1 as [|x l Hs IH Hhd]; intros i Hi; [simpl in Hi; lia|].
  destruct i as [|i].
  - destruct l as [|y l]; [simpl in Hi; lia|]. now inversion Hhd.
  - apply IH. simpl in Hi. lia.
Qed.

Lemma band_then_postcode_total (u v : string * Tool.cell) :
  Tool.band_then_postcode u v = true \/ Tool.band_then_postcode v u = true.
Proof.
  unfold Tool.band_then_postcode.
  destruct (Tool.cell_leb (snd u) (snd v)) eqn:E1;
    destruct (Tool.cell_leb (snd v) (snd u)) eqn:E2; simpl; auto.
  apply String.leb_total.
Qed.

(** ** Requests and band names *)

Lemma np_unique_In (l : list string) (x : string) :
  In x (Tool.np_unique l) <-> In x l.
Proof.
  unfold Tool.np_unique. rewrite nodup_In. split; intros H.
  - eapply Permutation_in; [apply stable_sort_perm | exact H].
  - eapply Permutation_in; [apply Permutation_sym, stable_sort_perm | exact H].
Qed.

Lemma requested_spec (dfp : list Tool.postcode_row) (postcodes : list string)
  (r : Tool.postcode_row) :
  In r (Tool.requested dfp postcodes) <->
  In r dfp
  /\ exists q, In q postcodes
       /\ Tool.upper (Tool.remove_spaces q)
          = Tool.remove_spaces (Tool.Postcode r).
Proof.
  unfold Tool.requested. cbv zeta. rewrite filter_In, isin_true.
  rewrite np_unique_In, in_map_iff. split.
  - intros [Hin (q & Hq & Hqin)]. split; [assumption|]. now exists q.
  - intros [Hin (q & Hqin & Hq)]. split; [assumption|]. now exists q.
Qed.

Lemma band_name_replaced (name : string) :
  In name ["High"; "Medium"; "Low"; "Very Low"; "Zero"]%string ->
  Tool.names_to_numbers (Tool.Str name) = Tool.Num (Tool.band_number name)
  /\ Tool.numbers_to_names (Tool.Num (Tool.band_number name))
     = Tool.Str name.
Proof.
  simpl. intros [E|[E|[E|[E|[E|[]]]]]]; subst; split; reflexivity.
Qed.

Lemma band_number_inj (n1 n2 : string) :
  In n1 ["High"; "Medium"; "Low"; "Very Low"; "Zero"]%string ->
  In n2 ["High"; "Medium"; "Low"; "Very Low"; "Zero"]%string ->
  Tool.band_number n1 = Tool.band_number n2 -> n1 = n2.
Proof.
  simpl. intros [E|[E|[E|[E|[E|[]]]]]] [F|[F|[F|[F|[F|[]]]]]]; subst;
    intros H; (reflexivity || discriminate H).
Qed.

Lemma combine_map {A B C D : Type} (f : A -> C) (g : B -> D) (l : list A)
  (l' : list B) :
  combine (map f l) (map g l')
  = map (fun x => (f (fst x), g (snd x))) (combine l l').
Proof.
  revert l'. induction l as [|x l IH]; intros [|y l']; simpl;
    try reflexivity.
  now rewrite IH.
Qed.

Lemma In_combine_nth {A B : Type} (l : list A) (l' : list B) (da : A)
  (db : B) (x : A * B) :
  length l = length l' ->
  In x (combine l l') <->
  exists i, (i < length l)%nat /\ x = (nth i l da, nth i l' db).
Proof.
  intros Hl. split.
  - intros Hin. destruct (In_nth _ _ (da, db) Hin) as (i & Hi & Hx).
    rewrite length_combine in Hi. exists i. split; [lia|].
    rewrite <- Hx. now apply combine_nth.
  - intros (i & Hi & ->). rewrite <- combine_nth by assumption.
    apply nth_In. rewrite length_combine. lia.
Qed.

Lemma flood_probability_inv (dff : list Tool.circle)
  (easting northing : arr) (bands : list string) :
  Tool.get_easting_northing_flood_probability dff easting northing
  = Tool.Returns bands ->
  length bands = length easting
  /\ length easting = length northing
  /\ forall i, (i < length easting)%nat ->
       Tool.get_probs dff (nth i easting 0, nth i northing 0)
       = Tool.Returns (nth i bands ""%string).
Proof.
  unfold Tool.get_easting_northing_flood_probability.
  destruct (Nat.eqb_spec (length easting) (length northing)) as [Hl|];
    [|discriminate].
  intros H.
  destruct (apply_rows_inv _ _ _ (0, 0) ""%string H) as [Hlen Hnth].
  rewrite length_combine in Hlen, Hnth.
  split; [lia|]. split; [assumption|]. intros i Hi.
  rewrite <- Hnth by lia. now rewrite combine_nth.
Qed.

Lemma map_fst_combine {A B : Type} (l : list A) (l' : list B) :
  length l = length l' -> map fst (combine l l') = l.
Proof.
  revert l'. induction l as [|x l IH]; intros [|y l'] Hl; simpl in *;
    try reflexivity; try lia.
  rewrite IH; [reflexivity | lia].
Qed.

(** The frame that [get_sorted_flood_probability] builds from the selected
    rows [fp_data] and their bands. *)
Lemma sorted_frame (dff : list Tool.circle) (fp_data : list Tool.postcode_row)
  (bands : list string) (d : string * Tool.cell) :
  Tool.get_easting_northing_flood_probability dff
    (map Tool.Easting fp_data) (map Tool.Northing fp_data)
  = Tool.Returns bands ->
  forall out,
  out = map (fun r => (fst r, Tool.numbers_to_names (snd r)))
          (Tool.stable_sort Tool.band_then_postcode
             (map (fun r => (fst r, Tool.names_to_numbers (snd r)))
                (combine (map Tool.Postcode fp_data)
                         (map Tool.Str bands)))) ->
  Permutation (map fst out) (map Tool.Postcode fp_data)
  /\ (forall p c,
        In (p, c) out <->
        exists r name,
          In r fp_data /\ Tool.Postcode r = p
          /\ Tool.get_probs dff (Tool.Easting r, Tool.Northing r)
             = Tool.Returns name
          /\ c = Tool.Str name)
  /\ (forall i, (S i < length out)%nat ->
        exists n1 n2,
          snd (nth i out d) = Tool.Str n1
          /\ snd (nth (S i) out d) = Tool.Str n2
          /\ ((Tool.band_number n2 < Tool.band_number n1)%nat
              \/ (n1 = n2
                  /\ String.leb (fst (nth i out d)) (fst (nth (S i) out d))
                     = true))).
Proof.
  intros Hb out ->.
  destruct (flood_probability_inv _ _ _ _ Hb) as (Hbl & _ & Hnth).
  rewrite length_map in Hbl, Hnth.
  set (d0 := Tool.mk_postcode_row ""%string 0 0 0 0 0).
  set (K := fun x : Tool.postcode_row * string =>
              (Tool.Postcode (fst x), Tool.Str (snd x))).
  set (Hf := fun r : string * Tool.cell =>
               (fst r, Tool.names_to_numbers (snd r))).
  set (G := fun r : string * Tool.cell =>
              (fst r, Tool.numbers_to_names (snd r))).
  set (rows := combine fp_data bands).
  assert (Hrows : forall x, In x rows <->
            In (fst x) fp_data
            /\ Tool.get_probs dff (Tool.Easting (fst x), Tool.Northing (fst x))
               = Tool.Returns (snd x)).
  { intros x. unfold rows.
    rewrite (In_combine_nth fp_data bands d0 ""%string) by lia. split.
    - intros (i & Hi & ->). cbn [fst snd]. split; [now apply nth_In|].
      rewrite <- (Hnth i Hi). f_equal. f_equal.
      + change 0 with (Tool.Easting d0) at 1. symmetry. apply map_nth.
      + change 0 with (Tool.Northing d0) at 1. symmetry. apply map_nth.
    - intros [Hin Hp]. destruct (In_nth _ _ d0 Hin) as (i & Hi & Hx).
      exists i. split; [assumption|]. destruct x as [r name].
      cbn [fst snd] in *. f_equal; [now symmetry|].
      pose proof (Hnth i Hi) as Hn.
      change 0 with (Tool.Easting d0) in Hn at 1.
      change 0 with (Tool.Northing d0) in Hn at 1.
      rewrite !map_nth, Hx in Hn. congruence. }
  assert (Hfive : forall x, In x rows ->
            In (snd x) ["High"; "Medium"; "Low"; "Very Low"; "Zero"]%string).
  { intros x Hx. apply Hrows in Hx. destruct Hx as [_ Hp].
    exact (get_probs_band _ _ _ Hp). }
  assert (HK : combine (map Tool.Postcode fp_data) (map Tool.Str bands)
               = map K rows) by apply combine_map.
  rewrite HK.
  set (sorted := Tool.stable_sort Tool.band_then_postcode
                   (map Hf (map K rows))).
  assert (Hperm : Permutation sorted (map Hf (map K rows)))
    by apply stable_sort_perm.
  assert (Hsorted_in : forall y, In y sorted <->
            exists x, In x rows
              /\ y = (Tool.Postcode (fst x),
                      Tool.Num (Tool.band_number (snd x)))).
  { intros y. split.
    - intros Hy. apply (Permutation_in _ Hperm) in Hy.
      apply in_map_iff in Hy. destruct Hy as (k & <- & Hk).
      apply in_map_iff in Hk. destruct Hk as (x & <- & Hx).
      exists x. split; [assumption|]. unfold Hf, K. cbn [fst snd].
      now rewrite (proj1 (band_name_replaced _ (Hfive x Hx))).
    - intros (x & Hx & ->).
      apply (Permutation_in _ (Permutation_sym Hperm)).
      apply in_map_iff. exists (K x). split; [|now apply in_map].
      unfold Hf, K. cbn [fst snd].
      now rewrite (proj1 (band_name_replaced _ (Hfive x Hx))). }
  split; [|split].
  - rewrite map_map.
    rewrite (map_ext (fun x => fst (G x)) fst) by reflexivity.
    rewrite Hperm, !map_map.
    rewrite (map_ext (fun x => fst (Hf (K x)))
                     (fun x => Tool.Postcode (fst x))) by reflexivity.
    rewrite <- (map_map fst Tool.Postcode).
    unfold rows. rewrite map_fst_combine by lia. reflexivity.
  - intros p c. rewrite in_map_iff. split.
    + intros (y & Hy & Hin). apply Hsorted_in in Hin.
      destruct Hin as (x & Hx & ->). unfold G in Hy. cbn [fst snd] in Hy.
      rewrite (proj2 (band_name_replaced _ (Hfive x Hx))) in Hy.
      injection Hy as <- <-. apply Hrows in Hx. destruct Hx as [Hin Hp].
      exists (fst x), (snd x). auto.
    + intros (r & name & Hin & <- & Hp & ->).
      assert (Hx : In (r, name) rows) by (apply Hrows; auto).
      exists (Tool.Postcode r, Tool.Num (Tool.band_number name)). split.
      * unfold G. cbn [fst snd].
        now rewrite (proj2 (band_name_replaced name (Hfive _ Hx))).
      * apply Hsorted_in. now exists (r, name).
  - intros i Hi. rewrite length_map in Hi.
    assert (Hadj := Sorted_adjacent _ sorted (G d)
                      (stable_sort_sorted Tool.band_then_postcode _
                         band_then_postcode_total) i Hi).
    cbv beta in Hadj.
    assert (H1 : In (nth i sorted (G d)) sorted) by (apply nth_In; lia).
    assert (H2 : In (nth (S i) sorted (G d)) sorted) by (apply nth_In; lia).
    apply Hsorted_in in H1, H2.
    destruct H1 as (x1 & Hx1 & E1), H2 as (x2 & Hx2 & E2).
    assert (Hn1 : nth i (map G sorted) d = G (nth i sorted (G d))).
    { rewrite (nth_indep _ d (G (G d))) by (rewrite length_map; lia).
      apply map_nth. }
    assert (Hn2 : nth (S i) (map G sorted) d = G (nth (S i) sorted (G d))).
    { rewrite (nth_indep _ d (G (G d))) by (rewrite length_map; lia).
      apply map_nth. }
    rewrite Hn1, Hn2, E1, E2. rewrite E1, E2 in Hadj.
    unfold G. cbn [fst snd].
    rewrite (proj2 (band_name_replaced _ (Hfive _ Hx1))).
    rewrite (proj2 (band_name_replaced _ (Hfive _ Hx2))).
    exists (snd x1), (snd x2). split; [reflexivity|]. split; [reflexivity|].
    unfold Tool.band_then_postcode, Tool.cell_leb in Hadj.
    cbn [fst snd] in Hadj.
    apply orb_true_iff in Hadj. destruct Hadj as [Hlt|Heq].
    + left. apply negb_true_iff, Nat.leb_gt in Hlt. exact Hlt.
    + apply andb_true_iff in Heq. destruct Heq as [Hle Hp].
      apply Nat.leb_le in Hle.
      destruct (Nat.eq_dec (Tool.band_number (snd x1))
                           (Tool.band_number (snd x2))) as [E|E].
      * right. split; [|exact Hp].
        apply band_number_inj; auto.
      * left. lia.
Qed.

(** ** The frame returned by [get_sorted_flood_probability] *)

Lemma sorted_flood_probability_unfold (dff : list Tool.circle)
  (dfp : list Tool.postcode_row) (postcodes : list string)
  (bands : list string) :
  Tool.get_easting_northing_flood_probability dff
    (map Tool.Easting (Tool.requested dfp postcodes))
    (map Tool.Northing (Tool.requested dfp postcodes))
  = Tool.Returns bands ->
  Tool.get_sorted_flood_probability dff dfp postcodes
  = Tool.Returns
      (map (fun r => (fst r, Tool.numbers_to_names (snd r)))
         (Tool.stable_sort Tool.band_then_postcode
            (map (fun r => (fst r, Tool.names_to_numbers (snd r)))
               (combine (map Tool.Postcode (Tool.requested dfp postcodes))
                        (map Tool.Str bands))))).
Proof.
  intros Hb. unfold Tool.get_sorted_flood_probability. cbv zeta.
  rewrite Hb. cbn [Tool.obind].
  destruct (flood_probability_inv _ _ _ _ Hb) as (Hbl & _).
  rewrite length_map in Hbl.
  now rewrite (proj2 (Nat.eqb_eq _ _) Hbl).
Qed.

Lemma sorted_flood_probability_inv (dff : list Tool.circle)
  (dfp : list Tool.postcode_row) (postcodes : list string)
  (out : list (string * Tool.cell)) :
  Tool.get_sorted_flood_probability dff dfp postcodes = Tool.Returns out ->
  exists bands,
    Tool.get_easting_northing_flood_probability dff
      (map Tool.Easting (Tool.requested dfp postcodes))
      (map Tool.Northing (Tool.requested dfp postcodes))
    = Tool.Returns bands
    /\ out = map (fun r => (fst r, Tool.numbers_to_names (snd r)))
               (Tool.stable_sort Tool.band_then_postcode
                  (map (fun r => (fst r, Tool.names_to_numbers (snd r)))
                     (combine
                        (map Tool.Postcode (Tool.requested dfp postcodes))
                        (map Tool.Str bands)))).
Proof.
  intros H.
  destruct (Tool.get_easting_northing_flood_probability dff
              (map Tool.Easting (Tool.requested dfp postcodes))
              (map Tool.Northing (Tool.requested dfp postcodes)))
    as [bands|e] eqn:Hb.
  - exists bands. split; [reflexivity|].
    rewrite (sorted_flood_probability_unfold _ _ _ _ Hb) in H.
    now injection H.
  - unfold Tool.get_sorted_flood_probability in H. cbv zeta in H.
    rewrite Hb in H. discriminate.
Qed.

(** X26.  With a flood-risk table that is not empty,
    [get_sorted_flood_probability] returns a frame whose index is a
    rearrangement of the postcodes of the selected table rows: the rows
    whose stored postcode, without its spaces, is a request without its
    spaces and in upper case.  Each row carries the band of
    [get_easting_northing_flood_probability] at its easting and northing,
    and the rows are ordered from High to Zero and, within one band, by
    postcode. *)
Theorem sorted_flood_probability_rows (dff : list Tool.circle)
  (dfp : list Tool.postcode_row) (postcodes : list string) :
  dff <> [] ->
  exists out,
    Tool.get_sorted_flood_probability dff dfp postcodes = Tool.Returns out
    /\ Permutation (map fst out)
                   (map Tool.Postcode (Tool.requested dfp postcodes))
    /\ (forall p c,
          In (p, c) out <->
          exists r name,
            (In r dfp
             /\ exists q, In q postcodes
                  /\ Tool.upper (Tool.remove_spaces q)
                     = Tool.remove_spaces (Tool.Postcode r))
            /\ Tool.Postcode r = p
            /\ Tool.get_probs dff (Tool.Easting r, Tool.Northing r)
               = Tool.Returns name
            /\ c = Tool.Str name)
    /\ (forall i, (S i < length out)%nat ->
          exists n1 n2,
            snd (nth i out (""%string, Tool.Str "")) = Tool.Str n1
            /\ snd (nth (S i) out (""%string, Tool.Str "")) = Tool.Str n2
            /\ ((Tool.band_number n2 < Tool.band_number n1)%nat
                \/ (n1 = n2
                    /\ String.leb (fst (nth i out (""%string, Tool.Str "")))
                                  (fst (nth (S i) out
                                            (""%string, Tool.Str "")))
                       = true))).
Proof.
  intros Hne.
  destruct (flood_probability_rows dff
              (map Tool.Easting (Tool.requested dfp postcodes))
              (map Tool.Northing (Tool.requested dfp postcodes)) Hne)
    as (bands & Hb & _); [now rewrite !length_map|].
  eexists. split; [exact (sorted_flood_probability_unfold _ _ _ _ Hb)|].
  destruct (sorted_frame dff _ bands (""%string, Tool.Str "") Hb _ eq_refl)
    as (Hperm & Hin & Hsorted).
  split; [exact Hperm|]. split; [|exact Hsorted].
  intros p c. rewrite Hin. split.
  - intros (r & name & Hr & H). exists r, name.
    apply requested_spec in Hr. tauto.
  - intros (r & name & Hr & H). exists r, name.
    apply requested_spec in Hr. tauto.
Qed.

Lemma sorted_flood_probability_rows_witness :
  exists out,
    Tool.get_sorted_flood_probability
      [Tool.mk_circle 460000 480000 100 Tool.High]
      [Tool.mk_postcode_row "YO62 4LS" 54 (-1) 460000 480000 250000;
       Tool.mk_postcode_row "DE2 3DA" 53 (-2) 430000 330000 100000]
      ["yo62 4ls"]%string = Tool.Returns out
    /\ Permutation (map fst out) ["YO62 4LS"%string].
Proof.
  destruct (sorted_flood_probability_rows
              [Tool.mk_circle 460000 480000 100 Tool.High]
              [Tool.mk_postcode_row "YO62 4LS" 54 (-1) 460000 480000 250000;
               Tool.mk_postcode_row "DE2 3DA" 53 (-2) 430000 330000 100000]
              ["yo62 4ls"]%string) as (out & Hout & Hperm & _).
  - discriminate.
  - exists out. split; [exact Hout | exact Hperm].
Defined.

Lemma upper_length (s : string) :
  String.length (Tool.upper s) = String.length s.
Proof. induction s as [|c s IH]; simpl; congruence. Qed.

Lemma stored_five_characters (x : string) :
  String.length (Tool.remove_spaces x) = 5%nat ->
  String.length (Tool.remove_spaces (Tool.init_postcode x)) = 3%nat.
Proof.
  intros H5. unfold Tool.init_postcode.
  assert (Hfix : exists x', Tool.remove_spaces x' = Tool.remove_spaces x)
    by now exists x.
  set (s := Tool.remove_spaces x) in *.
  destruct s as [|c0 [|c1 [|c2 [|c3 [|c4 [|c5 s]]]]]]; try discriminate.
  destruct Hfix as [x0 Hx0].
  destruct (remove_spaces_cons_inv _ _ _ Hx0) as [E0 [x1 Hx1]].
  destruct (remove_spaces_cons_inv _ _ _ Hx1) as [E1 [x2 Hx2]].
  destruct (remove_spaces_cons_inv _ _ _ Hx2) as [E2 [x3 Hx3]].
  destruct (remove_spaces_cons_inv _ _ _ Hx3) as [E3 [x4 Hx4]].
  destruct (remove_spaces_cons_inv _ _ _ Hx4) as [E4 _].
  cbn. rewrite E0, E1, E4. reflexivity.
Qed.

(** X27.  A postcode that [Tool.__init__] stored from five characters other
    than spaces cannot be found by [get_sorted_flood_probability]: unless
    some request has exactly three characters other than spaces, no row
    of the returned frame has that stored postcode as index, whatever the
    tables hold. *)
Theorem five_character_postcode_not_found (dff : list Tool.circle)
  (dfp : list Tool.postcode_row) (postcodes : list string) (x : string)
  (out : list (string * Tool.cell)) :
  String.length (Tool.remove_spaces x) = 5%nat ->
  (forall q, In q postcodes ->
             String.length (Tool.remove_spaces q) <> 3%nat) ->
  Tool.get_sorted_flood_probability dff dfp postcodes = Tool.Returns out ->
  forall c, ~ In (Tool.init_postcode x, c) out.
Proof.
  intros H5 Hq Hout c Hin.
  destruct (sorted_flood_probability_inv _ _ _ _ Hout) as (bands & Hb & E).
  destruct (sorted_frame dff _ bands (""%string, Tool.Str "") Hb out E)
    as (_ & Hiff & _).
  apply Hiff in Hin. destruct Hin as (r & name & Hr & Hp & _).
  apply requested_spec in Hr. destruct Hr as (_ & q & Hqin & Hqr).
  apply (Hq q Hqin).
  rewrite <- (upper_length (Tool.remove_spaces q)), Hqr, Hp.
  now apply stored_five_characters.
Qed.

Lemma five_character_postcode_not_found_witness :
  Tool.init_postcode "M1 1AE" = "M1  E"%string
  /\ ~ In (Tool.init_postcode "M1 1AE", Tool.Str "High")
          [("DE2 3DA"%string, Tool.Str "High")].
Proof.
  split; [reflexivity|].
  apply (five_character_postcode_not_found
           [Tool.mk_circle 0 0 1 Tool.High]
           [Tool.mk_postcode_row (Tool.init_postcode "M1 1AE") 53 (-2) 7 7 1;
            Tool.mk_postcode_row (Tool.init_postcode "DE23DA") 53 (-2) 0 0 1]
           ["M1 1AE"; "DE2 3DA"]%string "M1 1AE").
  - reflexivity.
  - intros q [<-|[<-|[]]]; simpl; discriminate.
  - rewrite (sorted_flood_probability_unfold _ _ _ ["High"%string]).
    + reflexivity.
    + unfold Tool.get_easting_northing_flood_probability. simpl.
      unfold Tool.get_probs, Tool.circles, Tool.dist. simpl.
      destruct (Rle_dec _ _) as [_|Hn]; [reflexivity|].
      exfalso. apply Hn.
      replace ((0 - 0) * ((0 - 0) * 1) + (0 - 0) * ((0 - 0) * 1)) with 0
        by ring.
      rewrite sqrt_0. lra.
Defined.

(** X28.  Only the set of requested postcodes, without spaces and in upper
    case, matters to [get_sorted_flood_probability]: two requests that
    agree on it, whatever their order, repetitions, spaces and lower-case
    letters, give the same frame or the same error. *)
Theorem sorted_flood_probability_request_form (dff : list Tool.circle)
  (dfp : list Tool.postcode_row) (postcodes1 postcodes2 : list string) :
  (forall s,
     In s (map (fun q => Tool.upper (Tool.remove_spaces q)) postcodes1)
     <-> In s (map (fun q => Tool.upper (Tool.remove_spaces q)) postcodes2)) ->
  Tool.get_sorted_flood_probability dff dfp postcodes1
  = Tool.get_sorted_flood_probability dff dfp postcodes2.
Proof.
  intros Hsame.
  assert (Hreq : Tool.requested dfp postcodes1 = Tool.requested dfp postcodes2).
  { unfold Tool.requested. cbv zeta. apply filter_ext. intros r.
    set (a1 := Tool.np_unique
                 (map (fun q => Tool.upper (Tool.remove_spaces q))
                      postcodes1)).
    set (a2 := Tool.np_unique
                 (map (fun q => Tool.upper (Tool.remove_spaces q))
                      postcodes2)).
    set (k := Tool.remove_spaces (Tool.Postcode r)).
    assert (Hk : Tool.isin k a1 = true <-> Tool.isin k a2 = true).
    { unfold a1, a2. rewrite !isin_true, !np_unique_In. apply Hsame. }
    destruct (Tool.isin k a1), (Tool.isin k a2); try reflexivity.
    - symmetry. now apply Hk.
    - now apply Hk. }
  unfold Tool.get_sorted_flood_probability. cbv zeta. now rewrite Hreq.
Qed.

Lemma sorted_flood_probability_request_form_witness :
  Tool.get_sorted_flood_probability
    [Tool.mk_circle 460000 480000 100 Tool.High]
    [Tool.mk_postcode_row "YO62 4LS" 54 (-1) 460000 480000 250000]
    ["yo62 4ls"; "YO624LS"; "Yo6 24lS"]%string
  = Tool.get_sorted_flood_probability
      [Tool.mk_circle 460000 480000 100 Tool.High]
      [Tool.mk_postcode_row "YO62 4LS" 54 (-1) 460000 480000 250000]
      ["YO62 4LS"]%string.
Proof.
  apply sorted_flood_probability_request_form.
  intros s. simpl. tauto.
Defined.

(** X29.  With an empty flood-risk table, [get_sorted_flood_probability]
    raises ValueError as soon as one request selects a row of the
    postcode table. *)
Theorem sorted_flood_probability_without_circles
  (dfp : list Tool.postcode_row) (postcodes : list string)
  (r : Tool.postcode_row) (q : string) :
  In r dfp -> In q postcodes ->
  Tool.upper (Tool.remove_spaces q) = Tool.remove_spaces (Tool.Postcode r) ->
  Tool.get_sorted_flood_probability [] dfp postcodes
  = Tool.Raises Tool.Value_Error.
Proof.
  intros Hr Hq E.
  assert (Hin : In r (Tool.requested dfp postcodes))
    by (apply requested_spec; split; [assumption | now exists q]).
  unfold Tool.get_sorted_flood_probability. cbv zeta.
  destruct (Tool.requested dfp postcodes) as [|r0 rest]; [contradiction|].
  unfold Tool.get_easting_northing_flood_probability. simpl.
  rewrite !length_map, Nat.eqb_refl. reflexivity.
Qed.

Lemma sorted_flood_probability_without_circles_witness :
  Tool.get_sorted_flood_probability []
    [Tool.mk_postcode_row "YO62 4LS" 54 (-1) 460000 480000 250000]
    ["yo62 4ls"]%string
  = Tool.Raises Tool.Value_Error.
Proof.
  apply (sorted_flood_probability_without_circles _ _
           (Tool.mk_postcode_row "YO62 4LS" 54 (-1) 460000 480000 250000)
           "yo62 4ls"%string).
  - now left.
  - now left.
  - reflexivity.
Defined.

(** * Properties of the sorted annual flood risk *)

Lemma risk_then_postcode_total (u v : string * option R) :
  Tool.risk_then_postcode u v = true \/ Tool.risk_then_postcode v u = true.
Proof.
  unfold Tool.risk_then_postcode.
  destruct (snd u) as [x|], (snd v) as [y|]; auto;
    [|apply String.leb_total].
  destruct (String.leb_total (fst u) (fst v)) as [->| ->];
    split_tests; cbn [andb orb]; auto; lra.
Qed.

Lemma requested_twice (dfp : list Tool.postcode_row)
  (postcodes : list string) :
  filter (fun r => Tool.isin (Tool.remove_spaces (Tool.Postcode r))
                     (Tool.np_unique
                        (map (fun s => Tool.upper
                                         (Tool.remove_spaces
                                            (Tool.remove_spaces s)))
                             postcodes))) dfp
  = Tool.requested dfp postcodes.
Proof.
  unfold Tool.requested. cbv zeta.
  rewrite (map_ext (fun s => Tool.upper
                               (Tool.remove_spaces (Tool.remove_spaces s)))
                   (fun s => Tool.upper (Tool.remove_spaces s)));
    [reflexivity|].
  intros s. f_equal. apply remove_spaces_fixed. now exists s.
Qed.

(** Looking up the postcodes of the selected rows selects these rows again,
    in the order of the table. *)
Lemma loc_isin_requested (dfp : list Tool.postcode_row)
  (postcodes : list string) :
  Tool.loc_isin dfp (map Tool.Postcode (Tool.requested dfp postcodes))
  = Tool.requested dfp postcodes.
Proof.
  unfold Tool.loc_isin.
  transitivity
    (filter (fun r => Tool.isin (Tool.remove_spaces (Tool.Postcode r))
                        (Tool.np_unique
                           (map (fun s => Tool.upper (Tool.remove_spaces s))
                                postcodes))) dfp); [|reflexivity].
  apply filter_ext_in. intros r Hr.
  set (sel := Tool.isin (Tool.remove_spaces (Tool.Postcode r)) _).
  assert (Hsel : sel = true <-> In r (Tool.requested dfp postcodes)).
  { unfold Tool.requested. cbv zeta. rewrite filter_In. tauto. }
  destruct sel.
  - apply isin_true. apply in_map. now apply Hsel.
  - destruct (Tool.isin _ _) eqn:E; [|reflexivity].
    apply isin_true, in_map_iff in E. destruct E as (r' & Hk & Hr').
    apply requested_spec in Hr'. destruct Hr' as (_ & q & Hq & Hqr).
    symmetry. apply Hsel. apply requested_spec.
    split; [assumption|]. exists q. split; [assumption|]. congruence.
Qed.

Lemma flood_cost_of_requested (dfp : list Tool.postcode_row)
  (postcodes : list string) :
  Tool.get_flood_cost dfp (map Tool.Postcode (Tool.requested dfp postcodes))
  = Tool.Returns (map Tool.Total_Value (Tool.requested dfp postcodes)).
Proof.
  unfold Tool.get_flood_cost, Tool.reindex.
  rewrite loc_isin_requested.
  destruct (list_eq_dec string_dec _ _) as [_|Hn]; [|now elim Hn].
  cbn [Tool.obind]. now rewrite map_map.
Qed.

Lemma probs_values_of_band (name : string) :
  In name ["High"; "Medium"; "Low"; "Very Low"; "Zero"]%string ->
  exists pr, Tool.probs_values name = Some pr.
Proof.
  simpl. intros [E|[E|[E|[E|[E|[]]]]]]; subst; eexists; reflexivity.
Qed.

(** X30.  With a flood-risk table that is not empty,
    [get_sorted_annual_flood_risk] returns a frame whose index is a
    rearrangement of the postcodes of the selected table rows (selected as
    by [get_sorted_flood_probability]).  Each row carries the annual risk
    of its own table row: the probability of the band at its easting and
    northing, times its total value, times 0.05; no risk is NaN.  The rows
    are ordered by decreasing risk and, for equal risks, by postcode. *)
Theorem sorted_annual_flood_risk_rows (dff : list Tool.circle)
  (dfp : list Tool.postcode_row) (postcodes : list string) :
  dff <> [] ->
  exists out,
    Tool.get_sorted_annual_flood_risk dff dfp postcodes = Tool.Returns out
    /\ Permutation (map fst out)
                   (map Tool.Postcode (Tool.requested dfp postcodes))
    /\ (forall p v,
          In (p, v) out <->
          exists r name pr,
            (In r dfp
             /\ exists q, In q postcodes
                  /\ Tool.upper (Tool.remove_spaces q)
                     = Tool.remove_spaces (Tool.Postcode r))
            /\ Tool.Postcode r = p
            /\ Tool.get_probs dff (Tool.Easting r, Tool.Northing r)
               = Tool.Returns name
            /\ Tool.probs_values name = Some pr
            /\ v = Some (pr * Tool.Total_Value r * 0.05))
    /\ (forall i, (S i < length out)%nat ->
          exists x1 x2,
            snd (nth i out (""%string, None)) = Some x1
            /\ snd (nth (S i) out (""%string, None)) = Some x2
            /\ (x2 < x1
                \/ (x1 = x2
                    /\ String.leb (fst (nth i out (""%string, None)))
                                  (fst (nth (S i) out (""%string, None)))
                       = true))).
Proof.
  intros Hne.
  set (fp := Tool.requested dfp postcodes).
  destruct (flood_probability_rows dff (map Tool.Easting fp)
              (map Tool.Northing fp) Hne)
    as (bands & Hb & Hbl & Hnth); [now rewrite !length_map|].
  rewrite length_map in Hbl, Hnth.
  destruct (flood_probability_bands _ _ _ _ Hb) as [_ Hfive].
  rewrite length_map in Hfive.
  destruct (annual_flood_risk_entries dfp (map Tool.Postcode fp) bands
              (map Tool.Total_Value fp))
    as (risk & Hrisk & Hrl & Hr).
  { rewrite length_map. lia. }
  { apply flood_cost_of_requested. }
  { now rewrite !length_map. }
  rewrite length_map in Hrl, Hr.
  set (d0 := Tool.mk_postcode_row ""%string 0 0 0 0 0).
  set (K := fun x : Tool.postcode_row * option R =>
              (Tool.Postcode (fst x), snd x)).
  set (rows := combine fp risk).
  assert (HK : combine (map Tool.Postcode fp) risk = map K rows).
  { rewrite <- (map_id risk) at 1.
    exact (combine_map Tool.Postcode (fun v => v) fp risk). }
  assert (Hrows : forall x, In x rows <->
            In (fst x) fp
            /\ exists name pr,
                 Tool.get_probs dff (Tool.Easting (fst x),
                                     Tool.Northing (fst x))
                 = Tool.Returns name
                 /\ Tool.probs_values name = Some pr
                 /\ snd x = Some (pr * Tool.Total_Value (fst x) * 0.05)).
  { assert (Hrow : forall i, (i < length fp)%nat ->
              Tool.get_probs dff (Tool.Easting (nth i fp d0),
                                  Tool.Northing (nth i fp d0))
              = Tool.Returns (nth i bands ""%string)
              /\ nth i risk None
                 = option_map
                     (fun pr => pr * Tool.Total_Value (nth i fp d0) * 0.05)
                     (Tool.probs_values (nth i bands ""%string))).
    { intros i Hi. split.
      - rewrite <- (Hnth i Hi). f_equal. f_equal.
        + change 0 with (Tool.Easting d0) at 1. symmetry. apply map_nth.
        + change 0 with (Tool.Northing d0) at 1. symmetry. apply map_nth.
      - rewrite (Hr i Hi). f_equal.
        change 0 with (Tool.Total_Value d0) at 1. now rewrite map_nth. }
    intros x. unfold rows.
    rewrite (In_combine_nth fp risk d0 None) by lia. split.
    - intros (i & Hi & ->). cbn [fst snd].
      destruct (Hrow i Hi) as [Hp Hv].
      split; [now apply nth_In|].
      destruct (probs_values_of_band _ (Hfive i Hi)) as [pr Hpr].
      exists (nth i bands ""%string), pr.
      split; [assumption|]. split; [assumption|].
      now rewrite Hv, Hpr.
    - intros [Hin (name & pr & Hp & Hpr & Hv)].
      destruct (In_nth _ _ d0 Hin) as (i & Hi & Hx).
      exists i. split; [assumption|]. destruct x as [r v].
      cbn [fst snd] in *. f_equal; [now symmetry|].
      destruct (Hrow i Hi) as [Hp' Hv']. rewrite Hx in Hp', Hv'.
      assert (Hname : nth i bands ""%string = name) by congruence.
      rewrite Hv', Hname, Hpr, Hv. reflexivity. }
  set (out := Tool.stable_sort Tool.risk_then_postcode (map K rows)).
  assert (Hperm : Permutation out (map K rows)) by apply stable_sort_perm.
  assert (Hout : Tool.get_sorted_annual_flood_risk dff dfp postcodes
                 = Tool.Returns out).
  { unfold Tool.get_sorted_annual_flood_risk. cbv zeta.
    rewrite requested_twice. fold fp. rewrite Hb. cbn [Tool.obind].
    rewrite Hrisk. cbn [Tool.obind].
    rewrite (proj2 (Nat.eqb_eq _ _) Hrl). now rewrite HK. }
  exists out. split; [exact Hout|]. split; [|split].
  - rewrite Hperm, map_map.
    rewrite (map_ext (fun x => fst (K x))
                     (fun x => Tool.Postcode (fst x))) by reflexivity.
    rewrite <- (map_map fst Tool.Postcode).
    unfold rows. rewrite map_fst_combine by lia. reflexivity.
  - intros p v. split.
    + intros Hin. apply (Permutation_in _ Hperm) in Hin.
      apply in_map_iff in Hin. destruct Hin as (x & Hx & Hxin).
      apply Hrows in Hxin.
      destruct Hxin as [Hfp (name & pr & Hp & Hpr & Hv)].
      unfold K in Hx. injection Hx as <- <-.
      apply requested_spec in Hfp.
      exists (fst x), name, pr. tauto.
    + intros (r & name & pr & Hsel & <- & Hp & Hpr & ->).
      apply (Permutation_in _ (Permutation_sym Hperm)).
      apply in_map_iff.
      exists (r, Some (pr * Tool.Total_Value r * 0.05)).
      split; [reflexivity|]. apply Hrows. cbn [fst snd].
      split; [now apply requested_spec|]. exists name, pr. auto.
  - intros i Hi.
    assert (Hadj := Sorted_adjacent _ out (""%string, None)
                      (stable_sort_sorted Tool.risk_then_postcode _
                         risk_then_postcode_total) i Hi).
    cbv beta in Hadj.
    assert (Hsome : forall y, In y out -> exists x, snd y = Some x).
    { intros y Hy. apply (Permutation_in _ Hperm) in Hy.
      apply in_map_iff in Hy. destruct Hy as (x & <- & Hxin).
      apply Hrows in Hxin. destruct Hxin as [_ (name & pr & _ & _ & Hv)].
      unfold K. cbn [snd]. rewrite Hv. eauto. }
    destruct (Hsome (nth i out (""%string, None))) as [x1 E1];
      [apply nth_In; lia|].
    destruct (Hsome (nth (S i) out (""%string, None))) as [x2 E2];
      [apply nth_In; lia|].
    exists x1, x2. split; [assumption|]. split; [assumption|].
    unfold Tool.risk_then_postcode in Hadj. rewrite E1, E2 in Hadj.
    apply orb_true_iff in Hadj. destruct Hadj as [Hlt|Heq].
    + left. now apply lt_b_true.
    + apply andb_true_iff in Heq. destruct Heq as [Hle Hpc].
      apply le_b_true in Hle.
      destruct (Req_dec x1 x2) as [E|E]; [right; now split | left; lra].
Qed.

Lemma sorted_annual_flood_risk_rows_witness :
  exists out,
    Tool.get_sorted_annual_flood_risk
      [Tool.mk_circle 460000 480000 100 Tool.High]
      [Tool.mk_postcode_row "YO62 4LS" 54 (-1) 460000 480000 250000;
       Tool.mk_postcode_row "DE2 3DA" 53 (-2) 430000 330000 100000]
      ["yo62 4ls"]%string = Tool.Returns out
    /\ Permutation (map fst out) ["YO62 4LS"%string].
Proof.
  destruct (sorted_annual_flood_risk_rows
              [Tool.mk_circle 460000 480000 100 Tool.High]
              [Tool.mk_postcode_row "YO62 4LS" 54 (-1) 460000 480000 250000;
               Tool.mk_postcode_row "DE2 3DA" 53 (-2) 430000 330000 100000]
              ["yo62 4ls"]%string) as (out & Hout & Hperm & _).
  - discriminate.
  - exists out. split; [exact Hout | exact Hperm].
Defined.
